(** * Spectrum Scale CSI plugin: volume provisioning controller

    A shallow embedding of the controller of the GPFS / Spectrum Scale CSI
    driver (package [scale]): [CreateVolume] and [DeleteVolume] of
    [ScaleControllerServer], the provisioning helpers [createScaleImage]
    and [deleteScaleImage], the name lookup [getScaleVolumeByName] and the
    per-volume metadata files ([persistVolInfo], [loadVolInfo],
    [deleteVolInfo]).

    Go code that returns [(value, error)] is embedded as a function into a
    sum or a pair with an [option error]; code that touches the process-wide
    registry [scaleVolumes], the file system or the administrative layer is
    embedded in a state monad over a [World]. Every call that leaves the
    package (administrative commands, iSCSI, UUID generation, file system)
    is recorded, in order, in the world's [trace].

    The metadata files are written and read with Go's [encoding/json];
    the part of that library the volume record goes through (string
    escaping, UTF-8, numbers, the scanner and the store into the struct)
    is embedded in the modules [utf8] and [json]. *)

From Stdlib Require Import ZArith Ascii String List.
From stdpp Require Import base option list gmap strings pretty.

Local Open Scope Z_scope.
Local Open Scope string_scope.
Local Open Scope list_scope.

(** ** Go values *)

(** Error numbers a file-system call can fail with. *)
Inductive Errno := ENOENT | EACCES.

(** Go [error] values. [os.ErrNotExist] is one package-level value; the
    errors of [os.Create], [os.Open] and [os.Remove] are [*os.PathError]
    values wrapping the error number; [fmt.Errorf] builds a fresh value from
    its text. Comparing two errors with [==] or [!=] compares these values. *)
Inductive error :=
| os_ErrNotExist
| PathError (op path : string) (errno : Errno)
| Errorf (text : string).

Global Instance Errno_eq_dec : EqDecision Errno.
Proof. solve_decision. Defined.
Global Instance error_eq_dec : EqDecision error.
Proof. solve_decision. Defined.

Definition Errno_Error (e : Errno) : string :=
  match e with
  | ENOENT => "no such file or directory"
  | EACCES => "permission denied"
  end.

(** The text [%v] and [%s] print for an error: its [Error()] method. *)
Definition Error (e : error) : string :=
  match e with
  | os_ErrNotExist => "file does not exist"
  | PathError op path errno => op +:+ " " +:+ path +:+ ": " +:+ Errno_Error errno
  | Errorf text => text
  end.

(** gRPC status codes used by the controller. *)
Inductive Code := InvalidArgument | AlreadyExists | Internal | Unimplemented.

Global Instance Code_eq_dec : EqDecision Code.
Proof. solve_decision. Defined.

(** [status.Error(code, message)]. *)
Record Status := status_Error { code : Code; message : string }.

(** [len(s)] of a Go string. *)
Definition len (s : string) : Z := Z.of_nat (String.length s).

(** [strconv.ParseBool]. *)
Definition strconv_ParseBool (str : string) : bool * option error :=
  if bool_decide (str ∈ ["1"; "t"; "T"; "true"; "TRUE"; "True"]) then (true, None)
  else if bool_decide (str ∈ ["0"; "f"; "F"; "false"; "FALSE"; "False"]) then (false, None)
  else (false, Some (Errorf ("strconv.ParseBool: parsing " +:+ str +:+ ": invalid syntax"))).

(** [strings.Split(s, sep)] for a separator of one byte (the only use in
    the package is with ["/"]): the pieces of [s] between the separators,
    never an empty list. [cur] is the piece being read. *)
Fixpoint split_from (sep : ascii) (cur s : string) : list string :=
  match s with
  | EmptyString => [cur]
  | String c s' =>
      if Ascii.eqb c sep then cur :: split_from sep "" s'
      else split_from sep (cur +:+ String c "") s'
  end.

Definition strings_Split (s : string) (sep : ascii) : list string :=
  split_from sep "" s.

(** [s[len(s)-1]] of a slice of strings that is not empty. *)
Definition last_elem (s : list string) : string := default "" (last s).

(** ** The volume record *)

Record scaleVolume := mkScaleVolume {
  VolName : string;
  VolID : string;
  VolSize : Z;            (* int64 *)
  VolIscsi : bool;
  VolIscsiVid : string;
  VolBackendFs : string;
}.

Global Instance scaleVolume_eq_dec : EqDecision scaleVolume.
Proof. solve_decision. Defined.

(** [&scaleVolume{}]: every field at its zero value. *)
Definition zero_scaleVolume : scaleVolume := mkScaleVolume "" "" 0 false "" "".

Definition set_VolName (x : string) (v : scaleVolume) : scaleVolume :=
  mkScaleVolume x (VolID v) (VolSize v) (VolIscsi v) (VolIscsiVid v) (VolBackendFs v).
Definition set_VolID (x : string) (v : scaleVolume) : scaleVolume :=
  mkScaleVolume (VolName v) x (VolSize v) (VolIscsi v) (VolIscsiVid v) (VolBackendFs v).
Definition set_VolSize (x : Z) (v : scaleVolume) : scaleVolume :=
  mkScaleVolume (VolName v) (VolID v) x (VolIscsi v) (VolIscsiVid v) (VolBackendFs v).
Definition set_VolIscsi (x : bool) (v : scaleVolume) : scaleVolume :=
  mkScaleVolume (VolName v) (VolID v) (VolSize v) x (VolIscsiVid v) (VolBackendFs v).
Definition set_VolIscsiVid (x : string) (v : scaleVolume) : scaleVolume :=
  mkScaleVolume (VolName v) (VolID v) (VolSize v) (VolIscsi v) x (VolBackendFs v).
Definition set_VolBackendFs (x : string) (v : scaleVolume) : scaleVolume :=
  mkScaleVolume (VolName v) (VolID v) (VolSize v) (VolIscsi v) (VolIscsiVid v) x.

(** ** Requests and responses of the CSI protocol *)

Inductive VolumeCapability_AccessMode_Mode :=
| SINGLE_NODE_WRITER
| SINGLE_NODE_READER_ONLY
| MULTI_NODE_READER_ONLY
| MULTI_NODE_SINGLE_WRITER
| MULTI_NODE_MULTI_WRITER.

Record VolumeCapability := mkVolumeCapability {
  AccessMode : VolumeCapability_AccessMode_Mode;
}.

Record CapacityRange := mkCapacityRange {
  RequiredBytes : Z;      (* int64 *)
  LimitBytes : Z;         (* int64 *)
}.

(** [CapacityRange] is a pointer and [VolumeCapabilities] a slice: both can
    be [nil], which is [None] here. A slice that is not [nil] can still be
    empty. [Parameters] is a map that is only read, and reading a [nil] map
    is reading an empty one. *)
Record CreateVolumeRequest := mkCreateVolumeRequest {
  Name : string;
  CapacityRange_ : option CapacityRange;
  VolumeCapabilities : option (list VolumeCapability);
  Parameters : gmap string string;
}.

Definition GetName (req : CreateVolumeRequest) : string := Name req.
Definition GetCapacityRange (req : CreateVolumeRequest) : option CapacityRange :=
  CapacityRange_ req.
Definition GetParameters (req : CreateVolumeRequest) : gmap string string :=
  Parameters req.

(** The getter of a [nil] message answers the zero value. *)
Definition GetRequiredBytes (r : option CapacityRange) : Z :=
  match r with
  | Some r => RequiredBytes r
  | None => 0
  end.

Record Volume := mkVolume {
  VolumeId : string;
  CapacityBytes : Z;
  VolumeContext : gmap string string;
}.

Record CreateVolumeResponse := mkCreateVolumeResponse {
  Volume_ : Volume;
}.

Record DeleteVolumeRequest := mkDeleteVolumeRequest {
  DeleteVolumeRequest_VolumeId : string;
}.

Definition GetVolumeId (req : DeleteVolumeRequest) : string :=
  DeleteVolumeRequest_VolumeId req.

Inductive DeleteVolumeResponse := mkDeleteVolumeResponse.

(** Indexing a [map[string]string]: a missing key reads as [""]. *)
Definition index (m : gmap string string) (k : string) : string :=
  default "" (m !! k).

(** ** Calls that leave the package *)

(** The volume an iSCSI create call answers with ([pbVol]). *)
Record PbVolume := mkPbVolume {
  Vid_Val : string;
  Iphost : string;
  Iqn : string;
  Lun : Z;
}.

(** One constructor per outside call of the package, with its arguments:
    the administrative operations [ops.*], the raw-device scheduler
    [ops.Sched], the iSCSI operations [iscsiOps.*], [uuid.NewUUID] and the
    three file-system calls of the metadata files. *)
Inductive Call :=
| CreateFSet (fsName fsetName : string)
| LinkFSet (fsName fsetName linkPath : string)
| UnlinkFSet (fsName fsetName : string)
| DeleteFSet (fsName fsetName : string)
| PickNextRawDevice
| CreateNSD (name device : string)
| CreateFS (name nsd : string)
| DeleteFS (name : string)
| DeleteNSD (name : string)
| AttachIscsiDevicesToNode (iphost iqn node : string)
| IscsiCreateVolume (name : string) (szMb : Z)
| IscsiGetDevicePath (iphost iqn lun : string)
| IscsiDeleteVolume (vid : string)
| NewUUID
| OsCreate (file : string)
| OsOpen (file : string)
| OsRemove (file : string).

Global Instance Call_eq_dec : EqDecision Call.
Proof. solve_decision. Defined.

(** What the administrative layer answers to a call. The file-system calls
    are not answered by it; they are listed with [unit]. *)
Definition reply (c : Call) : Type :=
  match c with
  | PickNextRawDevice => (string + error)%type
  | IscsiCreateVolume _ _ => (PbVolume + error)%type
  | IscsiGetDevicePath _ _ _ => string
  | NewUUID => string
  | OsCreate _ | OsOpen _ | OsRemove _ => unit
  | _ => option error
  end.

(** The administrative layer, the iSCSI layer and the UUID generator, as an
    interface over a state [B] of their own: nothing in the package fixes
    which calls succeed. *)
Class Backend (B : Type) := {
  exec : ∀ c : Call, B → reply c * B;
}.

(** What the package takes from the rest of the repository and from Go's
    library and run time:
    - [PluginFolder], a constant of the package;
    - [path.Join];
    - [json.Marshal] of a [scaleVolume] (what [Encoder.Encode] writes,
      followed by a newline) and [Decoder.Decode] into a [scaleVolume]
      that already holds values;
    - the order in which [range] visits a map, which Go leaves open;
    - the text [%v] prints for a delete request. *)
Class Platform := {
  PluginFolder : string;
  path_Join : list string → string;
  json_Marshal : scaleVolume → string + error;
  json_Decode : string → scaleVolume → scaleVolume * option error;
  range_order : gmap string scaleVolume → list (string * scaleVolume);
  Sprint_DeleteVolumeRequest : DeleteVolumeRequest → string;
}.

(** Capability types a controller request can be checked against. *)
Inductive ControllerServiceCapability_RPC_Type :=
| RPC_UNKNOWN
| RPC_CREATE_DELETE_VOLUME
| RPC_PUBLISH_UNPUBLISH_VOLUME.

Global Instance RPC_Type_eq_dec : EqDecision ControllerServiceCapability_RPC_Type.
Proof. solve_decision. Defined.

(** The driver, of which the controller only calls
    [ValidateControllerServiceRequest]. *)
Class Driver (D : Type) := {
  ValidateControllerServiceRequest :
    D → ControllerServiceCapability_RPC_Type → option error;
}.

(** ** The file system under the metadata directory *)

(** The regular files by path, and the paths the process may not write
    (create, truncate or remove). *)
Record FileSys := mkFileSys {
  files : gmap string string;
  write_protected : gset string;
}.

(** [os.Create]: creates the file, or truncates it when it exists. *)
Definition fs_Create (file : string) (fs : FileSys) : option error * FileSys :=
  if decide (file ∈ write_protected fs) then (Some (PathError "open" file EACCES), fs)
  else (None, mkFileSys (<[file := ""]> (files fs)) (write_protected fs)).

(** Writing to the handle [os.Create] returned: the bytes go to the end of
    the file. *)
Definition fs_Write (file data : string) (fs : FileSys) : FileSys :=
  mkFileSys (<[file := default "" (files fs !! file) +:+ data]> (files fs))
            (write_protected fs).

(** [os.Open], with the content a reader of the handle sees. *)
Definition fs_Open (file : string) (fs : FileSys) : string + error :=
  match files fs !! file with
  | Some data => inl data
  | None => inr (PathError "open" file ENOENT)
  end.

(** [os.Remove]: every failure is a [*PathError]. *)
Definition fs_Remove (file : string) (fs : FileSys) : option error * FileSys :=
  match files fs !! file with
  | None => (Some (PathError "remove" file ENOENT), fs)
  | Some _ =>
      if decide (file ∈ write_protected fs) then (Some (PathError "remove" file EACCES), fs)
      else (None, mkFileSys (delete file (files fs)) (write_protected fs))
  end.

(** ** The world of the controller *)

Section World.
Context {B : Type}.

(** [scaleVolumes] is the package's registry [map[string]*scaleVolume],
    keyed by volume identifier. A record is never written through its
    pointer once it is in the map, so the map holds the records. *)
Record World := mkWorld {
  scaleVolumes : gmap string scaleVolume;
  fsys : FileSys;
  backend : B;
  trace : list Call;
}.

Definition M (A : Type) : Type := World → A * World.

Definition ret {A} (a : A) : M A := λ w, (a, w).

Definition bind {A C} (m : M A) (k : A → M C) : M C :=
  λ w, let (a, w') := m w in k a w'.

Definition set_scaleVolumes (f : gmap string scaleVolume → gmap string scaleVolume) : M unit :=
  λ w, (tt, mkWorld (f (scaleVolumes w)) (fsys w) (backend w) (trace w)).

Definition get_scaleVolumes : M (gmap string scaleVolume) :=
  λ w, (scaleVolumes w, w).

Definition record_call (c : Call) (w : World) : World :=
  mkWorld (scaleVolumes w) (fsys w) (backend w) (trace w ++ [c]).

(** A call into the administrative layer. *)
Definition extern `{!Backend B} (c : Call) : M (reply c) :=
  λ w, let (r, b') := exec c (backend w) in
       (r, mkWorld (scaleVolumes w) (fsys w) b' (trace w ++ [c])).

Definition os_Create (file : string) : M (option error) :=
  λ w, let (err, fs') := fs_Create file (fsys w) in
       (err, mkWorld (scaleVolumes w) fs' (backend w) (trace w ++ [OsCreate file])).

Definition fp_Write (file data : string) : M unit :=
  λ w, (tt, mkWorld (scaleVolumes w) (fs_Write file data (fsys w)) (backend w) (trace w)).

Definition os_Open (file : string) : M (string + error) :=
  λ w, (fs_Open file (fsys w), record_call (OsOpen file) w).

Definition os_Remove (file : string) : M (option error) :=
  λ w, let (err, fs') := fs_Remove file (fsys w) in
       (err, mkWorld (scaleVolumes w) fs' (backend w) (trace w ++ [OsRemove file])).
End World.

Arguments World : clear implicits.
Arguments M : clear implicits.

Notation "'let*' x := m 'in' k" := (bind m (λ x, k))
  (at level 10, x pattern, m at level 100, k at level 200, only parsing).

Definition oneGB : Z := 1073741824.

(** ** gpfs_util.go *)

Section Plugin.
Context {B : Type} `{!Backend B} `{!Platform}.

Local Abbreviation M := (M B).

(** The cluster nodes an iSCSI volume is attached to. *)
Definition nodes : list string := ["fin27p"; "fin31p"; "fin57p"].

(** The loop over [nodes] of [createScaleImage]: it returns at the first
    attach that fails. *)
Fixpoint attach_to_nodes (pbVol : PbVolume) (nodes : list string) : M (option error) :=
  match nodes with
  | [] => ret None
  | node :: nodes' =>
      let* err := extern (AttachIscsiDevicesToNode (Iphost pbVol) (Iqn pbVol) node) in
      match err with
      | Some err => ret (Some err)
      | None => attach_to_nodes pbVol nodes'
      end
  end.

(** [createScaleImage] writes [VolIscsiVid] through the pointer [pOpts];
    the record it leaves behind is returned next to the error. *)
Definition createScaleImage (pOpts : scaleVolume) (volSzMb : Z)
  : M (scaleVolume * option error) :=
  let volName := VolID pOpts in
  if len (VolBackendFs pOpts) >? 0 then
    let s := strings_Split (VolBackendFs pOpts) "/" in
    let fsName := last_elem s in
    let* err := extern (CreateFSet fsName volName) in
    match err with
    | Some err => ret (pOpts, Some err)
    | None =>
        let* err := extern (LinkFSet fsName volName (VolBackendFs pOpts +:+ "/" +:+ volName)) in
        match err with
        | Some err => ret (pOpts, Some err)
        | None => ret (pOpts, None)
        end
    end
  else
    let create_NSD_and_FS (pOpts : scaleVolume) (device : string) :=
      let* err := extern (CreateNSD volName device) in
      match err with
      | Some err => ret (pOpts, Some err)
      | None =>
          let* err := extern (CreateFS volName volName) in
          match err with
          | Some err => ret (pOpts, Some err)
          | None => ret (pOpts, None)
          end
      end in
    if VolIscsi pOpts then
      let* r := extern (IscsiCreateVolume volName volSzMb) in
      match r with
      | inr err => ret (pOpts, Some err)
      | inl pbVol =>
          let pOpts := set_VolIscsiVid (Vid_Val pbVol) pOpts in
          let* err := attach_to_nodes pbVol nodes in
          match err with
          | Some err => ret (pOpts, Some err)
          | None =>
              let* device := extern (IscsiGetDevicePath (Iphost pbVol) (Iqn pbVol)
                                                   (pretty (Lun pbVol))) in
              let device := "fin31p:" +:+ device in
              create_NSD_and_FS pOpts device
          end
      end
    else
      let* r := extern PickNextRawDevice in
      match r with
      | inr err => ret (pOpts, Some err)
      | inl device => create_NSD_and_FS pOpts device
      end.

Definition getScaleVolumeOptions (volOptions : gmap string string)
  : scaleVolume * option error :=
  let scaleVol := zero_scaleVolume in
  let scaleVol := set_VolIscsi (strconv_ParseBool (index volOptions "volIscsi")).1 scaleVol in
  let scaleVol := set_VolBackendFs (index volOptions "volBackendFs") scaleVol in
  (scaleVol, None).

(** The loop of [getScaleVolumeByName] over the records in the order
    [range] visits them. *)
Fixpoint first_named (volName : string) (vols : list (string * scaleVolume))
  : scaleVolume + error :=
  match vols with
  | [] => inr (Errorf ("volume name " +:+ volName +:+
                       " does not exit in the volumes list"))
  | (_, scaleVol) :: vols' =>
      if decide (VolName scaleVol = volName) then inl scaleVol
      else first_named volName vols'
  end.

Definition getScaleVolumeByName (volName : string) : M (scaleVolume + error) :=
  let* scaleVolumes := get_scaleVolumes in
  ret (first_named volName (range_order scaleVolumes)).

Definition persistVolInfo (image persistentStoragePath : string) (volInfo : scaleVolume)
  : M (option error) :=
  let file := path_Join [persistentStoragePath; image +:+ ".json"] in
  let* err := os_Create file in
  match err with
  | Some err => ret (Some (Errorf ("scale: create err " +:+ file +:+ "/" +:+ Error err)))
  | None =>
      match json_Marshal volInfo with
      | inr err => ret (Some (Errorf ("scale: encode err: " +:+ Error err)))
      | inl data =>
          let* _ := fp_Write file (data +:+ String "010" "") in
          ret None
      end
  end.

(** [loadVolInfo] decodes into the record behind the pointer [volInfo];
    the record it leaves behind is returned next to the error. *)
Definition loadVolInfo (image persistentStoragePath : string) (volInfo : scaleVolume)
  : M (scaleVolume * option error) :=
  let file := path_Join [persistentStoragePath; image +:+ ".json"] in
  let* r := os_Open file in
  match r with
  | inr err => ret (volInfo, Some (Errorf ("scale: open err " +:+ file +:+ "/" +:+ Error err)))
  | inl data =>
      let (volInfo, err) := json_Decode data volInfo in
      match err with
      | Some err => ret (volInfo, Some (Errorf ("scale: decode err: " +:+ Error err +:+ ".")))
      | None => ret (volInfo, None)
      end
  end.

Definition deleteVolInfo (image persistentStoragePath : string) : M (option error) :=
  let file := path_Join [persistentStoragePath; image +:+ ".json"] in
  let* err := os_Remove file in
  match err with
  | Some err =>
      if decide (err ≠ os_ErrNotExist) then
        ret (Some (Errorf ("scale: error removing file: " +:+ file +:+ "/" +:+ Error err)))
      else ret None
  | None => ret None
  end.

Definition deleteScaleImage (pOpts : scaleVolume) : M (option error) :=
  let volId := VolID pOpts in
  if len (VolBackendFs pOpts) >? 0 then
    let s := strings_Split (VolBackendFs pOpts) "/" in
    let fsName := last_elem s in
    let* err := extern (UnlinkFSet fsName volId) in
    match err with
    | Some err => ret (Some err)
    | None =>
        let* err := extern (DeleteFSet fsName volId) in
        match err with
        | Some err => ret (Some err)
        | None => ret None
        end
    end
  else
    let* err := extern (DeleteFS volId) in
    match err with
    | Some err => ret (Some (Errorf ("failed to delete scale fs: " +:+ Error err)))
    | None =>
        let* err := extern (DeleteNSD volId) in
        match err with
        | Some err => ret (Some (Errorf ("failed to delete scale nsd: " +:+ Error err)))
        | None =>
            let* err := extern (IscsiDeleteVolume (VolIscsiVid pOpts)) in
            ret err
        end
    end.
End Plugin.

(** ** The controller server *)

Record ScaleControllerServer (D : Type) := mkScaleControllerServer {
  Driver_ : D;
}.
Arguments Driver_ {D} _.
Arguments mkScaleControllerServer {D} _.

Section Controller.
Context {B : Type} `{!Backend B} `{!Platform} {D : Type} `{!Driver D}.

Local Abbreviation M := (M B).

(** The protocol answers [(response, nil)] or [(nil, status error)]. *)
Definition CreateVolume (cs : ScaleControllerServer D) (req : CreateVolumeRequest)
  : M (CreateVolumeResponse + Status) :=
  match ValidateControllerServiceRequest (Driver_ cs) RPC_CREATE_DELETE_VOLUME with
  | Some err =>
      ret (inr (status_Error Internal
        ("CreateVolume ValidateControllerServiceRequest failed: " +:+ Error err)))
  | None =>
  (* Check sanity of request Name, Volume Capabilities *)
  if (len (Name req) =? 0)%Z then
    ret (inr (status_Error InvalidArgument "Volume Name cannot be empty"))
  else if decide (VolumeCapabilities req = None) then
    ret (inr (status_Error InvalidArgument "Volume Capabilities cannot be empty"))
  else
  let* found := getScaleVolumeByName (GetName req) in
  match found with
  | inl exVol =>
      if VolSize exVol >=? GetRequiredBytes (GetCapacityRange req) then
        ret (inl (mkCreateVolumeResponse
                    (mkVolume (VolID exVol) (VolSize exVol) (GetParameters req))))
      else
        ret (inr (status_Error AlreadyExists
          ("Volume with the same name: " +:+ GetName req +:+
           " but with different size already exist")))
  | inr _ =>
  let (scaleVol, err) := getScaleVolumeOptions (GetParameters req) in
  match err with
  | Some err =>
      ret (inr (status_Error Internal
        ("CreateVolume unable to get volume options: " +:+ Error err)))
  | None =>
  let volName := GetName req in
  let* uniqueID := extern NewUUID in
  let volName := if (len volName =? 0)%Z then "dynamic_pvc_" +:+ uniqueID else volName in
  let scaleVol := set_VolName volName scaleVol in
  let volumeID := uniqueID in
  let volumeID :=
    if len (VolBackendFs scaleVol) >? 0 then volumeID +:+ "-fileset" else volumeID in
  let scaleVol := set_VolID volumeID scaleVol in
  (* Volume Size - Default is 1 GiB *)
  let volSizeBytes := oneGB in
  let volSizeBytes :=
    if decide (GetCapacityRange req ≠ None)
    then GetRequiredBytes (GetCapacityRange req) else volSizeBytes in
  let scaleVol := set_VolSize volSizeBytes scaleVol in
  let volSizeMB := volSizeBytes ÷ 1024 ÷ 1024 in
  let* (scaleVol, err) := createScaleImage scaleVol volSizeMB in
  match err with
  | Some err =>
      ret (inr (status_Error Internal ("Failed to create volume: " +:+ Error err)))
  | None =>
  (* Storing volInfo into a persistent file. *)
  let* err := persistVolInfo volumeID (path_Join [PluginFolder; "controller"]) scaleVol in
  match err with
  | Some err =>
      ret (inr (status_Error Internal
        ("failed to store volInfo with error: " +:+ Error err)))
  | None =>
  let* _ := set_scaleVolumes (insert volumeID scaleVol) in
  ret (inl (mkCreateVolumeResponse
              (mkVolume volumeID volSizeBytes (GetParameters req))))
  end end end end end.

Definition DeleteVolume (cs : ScaleControllerServer D) (req : DeleteVolumeRequest)
  : M (DeleteVolumeResponse + Status) :=
  match ValidateControllerServiceRequest (Driver_ cs) RPC_CREATE_DELETE_VOLUME with
  | Some err =>
      ret (inr (status_Error InvalidArgument
        ("invalid delete volume req (" +:+ Sprint_DeleteVolumeRequest req +:+ "): "
         +:+ Error err)))
  | None =>
  let volumeID := GetVolumeId req in
  let scaleVol := zero_scaleVolume in
  let* (scaleVol, err) :=
    loadVolInfo volumeID (path_Join [PluginFolder; "controller"]) scaleVol in
  match err with
  | Some err =>
      ret (inr (status_Error Internal ("failed to load volInfo: " +:+ Error err)))
  | None =>
  let volName := VolName scaleVol in
  (* Deleting scale image *)
  let* err := deleteScaleImage scaleVol in
  match err with
  | Some err =>
      ret (inr (status_Error Internal
        ("failed to delete scale image: " +:+ volName +:+ " with error: " +:+ Error err)))
  | None =>
  (* Removing persistent storage file for the unmapped volume *)
  let* err := deleteVolInfo volumeID (path_Join [PluginFolder; "controller"]) in
  match err with
  | Some err =>
      ret (inr (status_Error Internal
        ("failed to delete volInfo with error: " +:+ Error err)))
  | None =>
  let* _ := set_scaleVolumes (delete volumeID) in
  ret (inl mkDeleteVolumeResponse)
  end end end end.
End Controller.

(** ** A simulated installation

    One instance of each interface, to run the controller on: an
    administrative layer that numbers the devices and identifiers it hands
    out and fails exactly the calls it is told to fail, a driver given by
    the capabilities it registered, and a platform with a JSON codec for
    the volume record. *)

Module Sim.

Record Admin := mkAdmin {
  counter : nat;
  failing : Call → bool;
}.

Definition answer (c : Call) (b : Admin) : option error :=
  if failing b c then Some (Errorf "command failed") else None.

Definition tick (b : Admin) : Admin := mkAdmin (S (counter b)) (failing b).

Definition admin_exec (c : Call) : Admin → reply c * Admin :=
  match c return Admin → reply c * Admin with
  | PickNextRawDevice => λ b,
      if failing b PickNextRawDevice then (inr (Errorf "no raw device left"), b)
      else (inl ("/dev/dm-" +:+ pretty (counter b)), tick b)
  | IscsiCreateVolume name szMb => λ b,
      if failing b (IscsiCreateVolume name szMb) then (inr (Errorf "no iSCSI volume"), b)
      else (inl (mkPbVolume ("vid-" +:+ pretty (counter b)) "10.0.0.7"
                            ("iqn.2019-04.scale:" +:+ name) 1), tick b)
  | IscsiGetDevicePath iphost iqn lun => λ b,
      ("/dev/disk/by-path/ip-" +:+ iphost +:+ "-iscsi-" +:+ iqn +:+ "-lun-" +:+ lun, b)
  | NewUUID => λ b, ("uuid-" +:+ pretty (counter b), tick b)
  | OsCreate _ | OsOpen _ | OsRemove _ => λ b, (tt, b)
  | CreateFSet _ _ as c | LinkFSet _ _ _ as c | UnlinkFSet _ _ as c
  | DeleteFSet _ _ as c | CreateNSD _ _ as c | CreateFS _ _ as c
  | DeleteFS _ as c | DeleteNSD _ as c | AttachIscsiDevicesToNode _ _ _ as c
  | IscsiDeleteVolume _ as c => λ b, (answer c b, b)
  end.

#[export] Instance admin_backend : Backend Admin := {| exec := admin_exec |}.

(** A driver is the list of capabilities it registered. *)
Definition validate (cscap : list ControllerServiceCapability_RPC_Type)
    (c : ControllerServiceCapability_RPC_Type) : option error :=
  if decide (c = RPC_UNKNOWN) then None
  else if decide (c ∈ cscap) then None
  else Some (Errorf "unsupported controller service capability").

#[export] Instance capability_driver : Driver (list ControllerServiceCapability_RPC_Type) :=
  {| ValidateControllerServiceRequest := validate |}.

(** A JSON codec for the volume record. It writes the object the way
    [encoding/json] does for strings that need no more than a backslash
    before a quote or a backslash, and reads back objects of that shape. *)
Definition dquote : ascii := "034".
Definition backslash : ascii := "092".

Fixpoint escape (s : string) : string :=
  match s with
  | EmptyString => ""
  | String c s' =>
      if Ascii.eqb c dquote || Ascii.eqb c backslash
      then String backslash (String c (escape s'))
      else String c (escape s')
  end.

Definition quoted (s : string) : string :=
  String dquote (escape s) +:+ String dquote "".

Definition marshal (v : scaleVolume) : string :=
  "{" +:+ quoted "volName" +:+ ":" +:+ quoted (VolName v) +:+
  "," +:+ quoted "volID" +:+ ":" +:+ quoted (VolID v) +:+
  "," +:+ quoted "volSize" +:+ ":" +:+ pretty (VolSize v) +:+
  "," +:+ quoted "volIscsi" +:+ ":" +:+ (if VolIscsi v then "true" else "false") +:+
  "," +:+ quoted "volIscsiVid" +:+ ":" +:+ quoted (VolIscsiVid v) +:+
  "," +:+ quoted "volBackendFs" +:+ ":" +:+ quoted (VolBackendFs v) +:+ "}".

(** [strip pre s] is what follows [pre] in [s]. *)
Fixpoint strip (pre s : string) : option string :=
  match pre, s with
  | EmptyString, _ => Some s
  | String c pre', String d s' => if Ascii.eqb c d then strip pre' s' else None
  | String _ _, EmptyString => None
  end.

(** Reads a string after its opening quote, up to the closing one. *)
Fixpoint read_string (s : string) : option (string * string) :=
  match s with
  | EmptyString => None
  | String c s' =>
      if Ascii.eqb c dquote then Some ("", s')
      else if Ascii.eqb c backslash then
        match s' with
        | EmptyString => None
        | String d s'' => '(v, rest) ← read_string s''; Some (String d v, rest)
        end
      else '(v, rest) ← read_string s'; Some (String c v, rest)
  end.

Definition digit (c : ascii) : option Z :=
  let n := Z.of_N (N_of_ascii c) in
  if ((48 <=? n) && (n <=? 57))%Z then Some (n - 48) else None.

Fixpoint read_digits (s : string) (acc : option Z) : option (Z * string) :=
  match s with
  | EmptyString => z ← acc; Some (z, s)
  | String c s' =>
      match digit c with
      | Some d => read_digits s' (Some (10 * default 0 acc + d))
      | None => z ← acc; Some (z, s)
      end
  end.

Definition read_int (s : string) : option (Z * string) :=
  match s with
  | String "-" s' => '(z, rest) ← read_digits s' None; Some (- z, rest)
  | _ => read_digits s None
  end.

Definition read_bool (s : string) : option (bool * string) :=
  match strip "true" s with
  | Some rest => Some (true, rest)
  | None => rest ← strip "false" s; Some (false, rest)
  end.

Definition read_field {A} (key : string) (read : string → option (A * string))
    (s : string) : option (A * string) :=
  s ← strip (quoted key +:+ ":") s; read s.

Definition read_quoted (s : string) : option (string * string) :=
  s ← strip (String dquote "") s; read_string s.

Definition unmarshal (s : string) : option scaleVolume :=
  s ← strip "{" s;
  '(volName, s) ← read_field "volName" read_quoted s;
  s ← strip "," s;
  '(volID, s) ← read_field "volID" read_quoted s;
  s ← strip "," s;
  '(volSize, s) ← read_field "volSize" read_int s;
  s ← strip "," s;
  '(volIscsi, s) ← read_field "volIscsi" read_bool s;
  s ← strip "," s;
  '(volIscsiVid, s) ← read_field "volIscsiVid" read_quoted s;
  s ← strip "," s;
  '(volBackendFs, s) ← read_field "volBackendFs" read_quoted s;
  _ ← strip "}" s;
  Some (mkScaleVolume volName volID volSize volIscsi volIscsiVid volBackendFs).

Definition decode (data : string) (volInfo : scaleVolume) : scaleVolume * option error :=
  match unmarshal data with
  | Some v => (v, None)
  | None => (volInfo, Some (Errorf "invalid character"))
  end.

(** [path.Join] of elements that are clean already: the elements that
    are not empty, with a slash between them. *)
Definition join (elem : list string) : string :=
  match filter (λ e, e ≠ "") elem with
  | [] => ""
  | e :: es => fold_left (λ acc e, acc +:+ "/" +:+ e) es e
  end.

#[export] Instance platform : Platform := {|
  PluginFolder := "/var/lib/kubelet/plugins/csi-spectrum-scale";
  path_Join := join;
  json_Marshal v := inl (marshal v);
  json_Decode := decode;
  range_order := map_to_list;
  Sprint_DeleteVolumeRequest req := "volume_id:" +:+ quoted (GetVolumeId req) +:+ " ";
|}.

(** A server whose driver registered the create/delete capability, and
    one whose driver did not. *)
Definition cs : ScaleControllerServer (list ControllerServiceCapability_RPC_Type) :=
  mkScaleControllerServer [RPC_CREATE_DELETE_VOLUME; RPC_PUBLISH_UNPUBLISH_VOLUME].
Definition cs_without_capability
  : ScaleControllerServer (list ControllerServiceCapability_RPC_Type) :=
  mkScaleControllerServer [].

(** An administrative layer on which every call succeeds, and one on
    which the calls in [calls] fail. *)
Definition admin : Admin := mkAdmin 0 (λ _, false).
Definition admin_failing (calls : list Call) : Admin :=
  mkAdmin 0 (λ c, bool_decide (c ∈ calls)).

(** A fresh installation: no volume, no file. *)
Definition empty_fs : FileSys := mkFileSys ∅ ∅.
Definition start (b : Admin) : World Admin := mkWorld ∅ empty_fs b [].

End Sim.

(** ** Vocabulary of the properties *)

(** The three provisioning strategies and the selection rule, in the words
    of the design: a backing file-system path selects the fileset strategy,
    otherwise the flag selects the network block device, otherwise the raw
    device. *)
Inductive Strategy := Fileset | NetworkBlockDevice | RawDevice.

Definition select_strategy (backendFilesystemPath : string)
    (useNetworkBlockDevice : bool) : Strategy :=
  if decide (backendFilesystemPath ≠ "") then Fileset
  else if useNetworkBlockDevice then NetworkBlockDevice
  else RawDevice.

(** The call each strategy opens its create sequence with. *)
Definition opening_call (pOpts : scaleVolume) (volSzMb : Z) : Call :=
  match select_strategy (VolBackendFs pOpts) (VolIscsi pOpts) with
  | Fileset =>
      CreateFSet (last_elem (strings_Split (VolBackendFs pOpts) "/")) (VolID pOpts)
  | NetworkBlockDevice => IscsiCreateVolume (VolID pOpts) volSzMb
  | RawDevice => PickNextRawDevice
  end.

(** The record of a new volume, in the words of the design: the name of
    the request, the generated identifier (with a suffix for a fileset),
    the required bytes of the capacity range or 1 GiB without one, and the
    two strategy parameters. *)
Definition new_volume (req : CreateVolumeRequest) (uniqueID : string) : scaleVolume :=
  {| VolName := Name req;
     VolID := if decide (index (Parameters req) "volBackendFs" = "")
              then uniqueID else uniqueID +:+ "-fileset";
     VolSize := match CapacityRange_ req with
                | Some r => RequiredBytes r
                | None => 1073741824
                end;
     VolIscsi := (strconv_ParseBool (index (Parameters req) "volIscsi")).1;
     VolIscsiVid := "";
     VolBackendFs := index (Parameters req) "volBackendFs" |}.

(** No record of the registry carries the name. *)
Definition fresh_name (name : string) (registry : gmap string scaleVolume) : Prop :=
  ∀ id r, registry !! id = Some r → VolName r ≠ name.

(** The metadata file of a volume identifier. *)
Definition volInfo_file `{!Platform} (volumeID : string) : string :=
  path_Join [path_Join [PluginFolder; "controller"]; volumeID +:+ ".json"].

Section Frames.
Context {B : Type}.

(** [w'] differs from [w] by calls into the administrative layer only:
    same registry, same files, a longer trace. *)
Definition admin_only (w w' : World B) : Prop :=
  scaleVolumes w' = scaleVolumes w ∧ fsys w' = fsys w ∧
  ∃ calls, trace w' = (trace w ++ calls)%list.

(** A computation that only calls into the administrative layer. *)
Definition admin_only_m {A} (m : M B A) : Prop :=
  ∀ w, admin_only w (m w).2.

(** The world after inserting a record into the registry. *)
Definition with_volume (volumeID : string) (v : scaleVolume) (w : World B) : World B :=
  mkWorld (<[volumeID := v]> (scaleVolumes w)) (fsys w) (backend w) (trace w).

(** The world after deleting an identifier from the registry. *)
Definition without_volume (volumeID : string) (w : World B) : World B :=
  mkWorld (delete volumeID (scaleVolumes w)) (fsys w) (backend w) (trace w).
End Frames.

(** ** Example inputs *)

Module Examples.
Import Sim.

Definition caps : option (list VolumeCapability) :=
  Some [mkVolumeCapability MULTI_NODE_MULTI_WRITER].

(** [create(name = pvc-a)] with no capacity range and no parameters. *)
Definition req_a : CreateVolumeRequest := mkCreateVolumeRequest "pvc-a" None caps ∅.

(** The same name with 5 required bytes, with and without capabilities. *)
Definition req_a_5 : CreateVolumeRequest :=
  mkCreateVolumeRequest "pvc-a" (Some (mkCapacityRange 5 0)) caps ∅.
Definition req_a_5_nocaps : CreateVolumeRequest :=
  mkCreateVolumeRequest "pvc-a" (Some (mkCapacityRange 5 0)) None ∅.

(** A request without a name, and one whose capability slice is empty
    but not [nil]. *)
Definition req_noname : CreateVolumeRequest := mkCreateVolumeRequest "" None caps ∅.
Definition req_emptycaps : CreateVolumeRequest :=
  mkCreateVolumeRequest "pvc-e" None (Some []) ∅.

(** The raw-device volume [create(name = pvc-a)] leaves behind. *)
Definition vol_a : scaleVolume := mkScaleVolume "pvc-a" "uuid-0" 1073741824 false "" "".

(** The installation after [pvc-a] was created on a fresh one. *)
Definition after_a : World Admin := (CreateVolume cs req_a (start admin)).2.

(** The same installation over an administrative layer on which the
    calls in [calls] fail. *)
Definition after_a_failing (calls : list Call) : World Admin :=
  mkWorld (scaleVolumes after_a) (fsys after_a) (admin_failing calls) [].

(** The same installation with the metadata file of [vol_a] protected
    against writing. *)
Definition after_a_protected : World Admin :=
  mkWorld (scaleVolumes after_a)
          (mkFileSys (files (fsys after_a)) {[ volInfo_file "uuid-0" ]}) admin [].

Definition delete_a : DeleteVolumeRequest := mkDeleteVolumeRequest "uuid-0".

(** The directory of the metadata files. *)
Definition controller_dir : string := path_Join [PluginFolder; "controller"].
End Examples.

(** ** The capability check of the controller *)

(** [ValidateVolumeCapabilities] reads the access mode of every capability
    through the getters of the protocol messages, which answer the zero
    value behind a [nil] pointer. The messages are modelled with their
    pointers: a capability of the slice can be [nil], and so can its
    access mode. *)
Module csi.

Inductive VolumeCapability_AccessMode_Mode :=
| VolumeCapability_AccessMode_UNKNOWN
| VolumeCapability_AccessMode_SINGLE_NODE_WRITER
| VolumeCapability_AccessMode_SINGLE_NODE_READER_ONLY
| VolumeCapability_AccessMode_MULTI_NODE_READER_ONLY
| VolumeCapability_AccessMode_MULTI_NODE_SINGLE_WRITER
| VolumeCapability_AccessMode_MULTI_NODE_MULTI_WRITER.

Global Instance Mode_eq_dec : EqDecision VolumeCapability_AccessMode_Mode.
Proof. solve_decision. Defined.

Record VolumeCapability_AccessMode := mkAccessMode {
  Mode : VolumeCapability_AccessMode_Mode;
}.

Record VolumeCapability := mkCapability {
  AccessMode : option VolumeCapability_AccessMode;
}.

Definition GetAccessMode (cap : option VolumeCapability)
  : option VolumeCapability_AccessMode :=
  match cap with
  | Some cap => AccessMode cap
  | None => None
  end.

Definition GetMode (m : option VolumeCapability_AccessMode)
  : VolumeCapability_AccessMode_Mode :=
  match m with
  | Some m => Mode m
  | None => VolumeCapability_AccessMode_UNKNOWN
  end.

Record ValidateVolumeCapabilitiesRequest := mkValidateRequest {
  VolumeCapabilities : list (option VolumeCapability);
}.

Record ValidateVolumeCapabilitiesResponse_Confirmed := mkConfirmed {
  Confirmed_VolumeCapabilities : list (option VolumeCapability);
}.

Record ValidateVolumeCapabilitiesResponse := mkValidateResponse {
  Confirmed : option ValidateVolumeCapabilitiesResponse_Confirmed;
  Message : string;
}.

(** The loop of [ValidateVolumeCapabilities] over the capabilities still
    to visit; [all] is the slice of the request. *)
Fixpoint validate_from (all caps : list (option VolumeCapability))
  : ValidateVolumeCapabilitiesResponse + Status :=
  match caps with
  | [] => inl (mkValidateResponse (Some (mkConfirmed all)) "")
  | cap :: caps' =>
      if decide (GetMode (GetAccessMode cap) ≠ VolumeCapability_AccessMode_MULTI_NODE_MULTI_WRITER)
      then inl (mkValidateResponse None "")
      else validate_from all caps'
  end.

Definition ValidateVolumeCapabilities (req : ValidateVolumeCapabilitiesRequest)
  : ValidateVolumeCapabilitiesResponse + Status :=
  validate_from (VolumeCapabilities req) (VolumeCapabilities req).

End csi.

(** ** settings/scale_config.go *)

Module settings.

Record Primary := mkPrimary {
  PrimaryFS : string;
  PrimaryFset : string;
  PrimaryCid : string;
  InodeLimit : string;
  RemoteCluster : string;
  RemoteFS : string;
  PrimaryFSMount : string;
  PrimaryFsetLink : string;
  SymlinkAbsolutePath : string;
  SymlinkRelativePath : string;
}.

Record RestAPI := mkRestAPI {
  GuiHost : string;
  GuiPort : Z;
}.

(** [CacertValue] is a byte slice; it is only assigned and never tested
    against [nil]. *)
Record Clusters := mkClusters {
  ID : string;
  Primary_ : Primary;
  SecureSslMode : bool;
  Cacert : string;
  Secrets : string;
  RestAPI_ : list RestAPI;
  MgmtUsername : string;
  MgmtPassword : string;
  CacertValue : string;
}.

Record ScaleSettingsConfigMap := mkScaleSettingsConfigMap {
  Clusters_ : list Clusters;
}.

Definition set_MgmtUsername (x : string) (c : Clusters) : Clusters :=
  mkClusters (ID c) (Primary_ c) (SecureSslMode c) (Cacert c) (Secrets c) (RestAPI_ c)
             x (MgmtPassword c) (CacertValue c).
Definition set_MgmtPassword (x : string) (c : Clusters) : Clusters :=
  mkClusters (ID c) (Primary_ c) (SecureSslMode c) (Cacert c) (Secrets c) (RestAPI_ c)
             (MgmtUsername c) x (CacertValue c).
Definition set_CacertValue (x : string) (c : Clusters) : Clusters :=
  mkClusters (ID c) (Primary_ c) (SecureSslMode c) (Cacert c) (Secrets c) (RestAPI_ c)
             (MgmtUsername c) (MgmtPassword c) x.

Definition DefaultGuiPort : Z := 443.
Definition GuiProtocol : string := "https".
Definition ConfigMapFile : string := "/var/lib/ibm/config/spectrum-scale-config.json".
Definition SecretBasePath : string := "/var/lib/ibm/".
Definition CertificatePath : string := "/var/lib/ibm/ssl/public".

(** [ScaleSettingsConfigMap{}]. *)
Definition zero_config : ScaleSettingsConfigMap := mkScaleSettingsConfigMap [].

(** What the package takes from Go's library: [strings.TrimSpace], and
    [json.Unmarshal] of the configuration document into a configuration
    that already holds values. *)
Class ConfigLib := {
  strings_TrimSpace : string → string;
  json_Unmarshal : string → ScaleSettingsConfigMap → ScaleSettingsConfigMap * option error;
}.

(** [trim_suffix s suffix] is what precedes [suffix] at the end of [s]. *)
Fixpoint trim_suffix (s suffix : string) : option string :=
  if String.eqb s suffix then Some ""
  else match s with
       | EmptyString => None
       | String c s' => String c <$> trim_suffix s' suffix
       end.

(** [strings.TrimSuffix]. *)
Definition strings_TrimSuffix (s suffix : string) : string :=
  default s (trim_suffix s suffix).

(** What a path of the installation holds when the settings are read: a
    file that can be read to its end, or something whose read fails (a
    file without read permission, a directory, a device that fails), with
    the error of the failing call. A path outside the map does not
    exist. *)
Inductive Entry :=
| Readable (data : string)
| Unreadable (err : error).

Definition Disk := gmap string Entry.

(** [ioutil.ReadFile]: the whole content of the file, or the error of the
    open or of the read that failed, whatever it is. *)
Definition ioutil_ReadFile (file : string) (disk : Disk) : string + error :=
  match disk !! file with
  | Some (Readable data) => inl data
  | Some (Unreadable err) => inr err
  | None => inr (PathError "open" file ENOENT)
  end.

(** The content of a file that can be read. *)
Definition content (disk : Disk) (file : string) : option string :=
  match disk !! file with
  | Some (Readable data) => Some data
  | _ => None
  end.

Section Config.
Context `{!Platform} `{!ConfigLib}.

(** One secret: the file read, trimmed of white space and then of a
    newline at its end. *)
Definition trimmed (file : string) : string :=
  let file_s := file in
  let file_s := strings_TrimSpace file_s in
  let file_s := strings_TrimSuffix file_s (String "010" "") in
  file_s.

(** The body of the loop of [HandleSecretsAndCerts] for the cluster
    [cmap.Clusters[i]]: the cluster as the body leaves it, and the error it
    returns with, if any. *)
Definition handle_cluster (disk : Disk) (c : Clusters) : Clusters * option error :=
  let with_cert (c : Clusters) : Clusters * option error :=
    if SecureSslMode c && bool_decide (Cacert c ≠ "") then
      let certPath := path_Join [CertificatePath; Cacert c] in
      match ioutil_ReadFile certPath disk with
      | inr e =>
          (c, Some (Errorf ("Spectrum Scale CA certificate not found: " +:+ Error e
                            +:+ String "010" "")))
      | inl file => (set_CacertValue file c, None)
      end
    else (c, None) in
  if bool_decide (Secrets c ≠ "") then
    let unamePath := path_Join [SecretBasePath; Secrets c; "username"] in
    match ioutil_ReadFile unamePath disk with
    | inr e =>
        (c, Some (Errorf ("Spectrum Scale secret not found: " +:+ Error e
                          +:+ String "010" "")))
    | inl file =>
        let c := set_MgmtUsername (trimmed file) c in
        let pwdPath := path_Join [SecretBasePath; Secrets c; "password"] in
        match ioutil_ReadFile pwdPath disk with
        | inr e =>
            (c, Some (Errorf ("Spectrum Scale secret not found: " +:+ Error e
                              +:+ String "010" "")))
        | inl file =>
            let c := set_MgmtPassword (trimmed file) c in
            with_cert c
        end
    end
  else with_cert c.

(** The loop over the clusters from index [i] on: it returns at the first
    cluster whose body fails, leaving the later clusters as they were. *)
Fixpoint handle_clusters (disk : Disk) (clusters : list Clusters)
  : list Clusters * option error :=
  match clusters with
  | [] => ([], None)
  | c :: rest =>
      match handle_cluster disk c with
      | (c', Some e) => (c' :: rest, Some e)
      | (c', None) =>
          let (rest', err) := handle_clusters disk rest in (c' :: rest', err)
      end
  end.

(** [HandleSecretsAndCerts] writes the clusters through the pointer
    [cmap]; the configuration it leaves behind is returned next to the
    error. *)
Definition HandleSecretsAndCerts (disk : Disk) (cmap : ScaleSettingsConfigMap)
  : ScaleSettingsConfigMap * option error :=
  let (clusters, err) := handle_clusters disk (Clusters_ cmap) in
  (mkScaleSettingsConfigMap clusters, err).

Definition LoadScaleConfigSettings (disk : Disk) : ScaleSettingsConfigMap :=
  match ioutil_ReadFile ConfigMapFile disk with
  | inr e => zero_config
  | inl file =>
      let cmsj := zero_config in
      let (cmsj, e) := json_Unmarshal file cmsj in
      match e with
      | Some e => zero_config
      | None =>
          let (cmsj, e) := HandleSecretsAndCerts disk cmsj in
          match e with
          | Some e => zero_config
          | None => cmsj
          end
      end
  end.
End Config.

(** The files a cluster needs: its two secrets when it names a secret, its
    certificate when it is in secure mode and names one. *)
Definition needed_files `{!Platform} (c : Clusters) : list string :=
  (if bool_decide (Secrets c ≠ "")
   then [path_Join [SecretBasePath; Secrets c; "username"];
         path_Join [SecretBasePath; Secrets c; "password"]]
   else []) ++
  (if SecureSslMode c && bool_decide (Cacert c ≠ "")
   then [path_Join [CertificatePath; Cacert c]]
   else []).

(** Two clusters that differ at most in the credentials and the
    certificate that are read from files. *)
Definition same_settings (c c' : Clusters) : Prop :=
  ID c' = ID c ∧ Primary_ c' = Primary_ c ∧ SecureSslMode c' = SecureSslMode c ∧
  Cacert c' = Cacert c ∧ Secrets c' = Secrets c ∧ RestAPI_ c' = RestAPI_ c.

(** A library for the simulated installation: white space is the six
    ASCII white-space bytes, and the configuration document is one line per
    cluster, [id secrets cacert], in secure mode. *)
Module SimConfig.

Definition is_space (c : ascii) : bool :=
  let n := N_of_ascii c in
  (n =? 32)%N || ((9 <=? n)%N && (n <=? 13)%N).

Fixpoint trim_left (s : string) : string :=
  match s with
  | String c s' => if is_space c then trim_left s' else s
  | EmptyString => ""
  end.

Fixpoint rev_string (s acc : string) : string :=
  match s with
  | EmptyString => acc
  | String c s' => rev_string s' (String c acc)
  end.

Definition trim_space (s : string) : string :=
  rev_string (trim_left (rev_string (trim_left s) "")) "".

Definition zero_Primary : Primary := mkPrimary "" "" "" "" "" "" "" "" "" "".

Definition parse_line (line : string) : option Clusters :=
  match strings_Split line " " with
  | [id; secrets; cacert] =>
      Some (mkClusters id zero_Primary true cacert secrets [] "" "" "")
  | _ => None
  end.

Definition unmarshal_config (doc : string) (into : ScaleSettingsConfigMap)
  : ScaleSettingsConfigMap * option error :=
  match mapM parse_line (filter (λ l, l ≠ "") (strings_Split doc "010")) with
  | Some clusters => (mkScaleSettingsConfigMap clusters, None)
  | None => (into, Some (Errorf "invalid character"))
  end.

#[export] Instance config_lib : ConfigLib := {|
  strings_TrimSpace := trim_space;
  json_Unmarshal := unmarshal_config;
|}.

End SimConfig.

End settings.

(** ** The JSON encoding of the volume record *)

(** Packages [unicode/utf8] and [encoding/json] of Go's library, as far as
    [Encoder.Encode] of a [scaleVolume] and [Decoder.Decode] into one use
    them. A Go string is a sequence of bytes, as a [string] is here. *)
Module utf8.
Local Open Scope Z_scope.

(** A byte as a number, and the byte of a number below 256. *)
Definition byte (c : ascii) : Z := Z.of_N (N_of_ascii c).
Definition chr (b : Z) : ascii := ascii_of_N (Z.to_N (b mod 256)).

(** [s[:n]] and [s[n:]], for [n] up to the length of [s]. *)
Fixpoint take (n : nat) (s : string) : string :=
  match n, s with
  | S n, String c s' => String c (take n s')
  | _, _ => ""
  end.

Fixpoint drop (n : nat) (s : string) : string :=
  match n, s with
  | S n, String _ s' => drop n s'
  | _, _ => s
  end.

Definition RuneError : Z := 0xFFFD.
Definition RuneSelf : Z := 0x80.
Definition MaxRune : Z := 0x10FFFF.
Definition surrogateMin : Z := 0xD800.
Definition surrogateMax : Z := 0xDFFF.

Definition maskx : Z := 0x3F.
Definition mask2 : Z := 0x1F.
Definition mask3 : Z := 0x0F.
Definition mask4 : Z := 0x07.
Definition locb : Z := 0x80.
Definition hicb : Z := 0xBF.

(** The table [first]: for each first byte, [as] for ASCII, [xx] for a
    byte that starts no sequence, else the index of the accept range in
    the high four bits and the length of the sequence in the low three. *)
Definition xx : Z := 0xF1.
Definition as_ : Z := 0xF0.
Definition s1 : Z := 0x02.
Definition s2 : Z := 0x13.
Definition s3 : Z := 0x03.
Definition s4 : Z := 0x23.
Definition s5 : Z := 0x34.
Definition s6 : Z := 0x04.
Definition s7 : Z := 0x44.

Definition first (b : Z) : Z :=
  if b <? 0x80 then as_
  else if b <? 0xC2 then xx
  else if b <? 0xE0 then s1
  else if b =? 0xE0 then s2
  else if b <? 0xED then s3
  else if b =? 0xED then s4
  else if b <? 0xF0 then s3
  else if b =? 0xF0 then s5
  else if b <? 0xF4 then s6
  else if b =? 0xF4 then s7
  else xx.

(** The table [acceptRanges]: the values the second byte may take. *)
Definition acceptRanges (i : Z) : Z * Z :=
  if i =? 0 then (locb, hicb)
  else if i =? 1 then (0xA0, hicb)
  else if i =? 2 then (locb, 0x9F)
  else if i =? 3 then (0x90, hicb)
  else if i =? 4 then (locb, 0x8F)
  else (0, 0).

(** [utf8.DecodeRuneInString]: the first rune of [s] and its width in
    bytes; [(RuneError, 1)] stands for an encoding that is not valid. The
    test [n < sz] of the source is made byte by byte here: a sequence that
    ends before its last byte is not valid. *)
Definition DecodeRuneInString (s : string) : Z * nat :=
  match s with
  | EmptyString => (RuneError, 0%nat)
  | String c0 t0 =>
      let s0 := byte c0 in
      let x := first s0 in
      if as_ <=? x then (if x =? xx then RuneError else s0, 1%nat)
      else
        let sz := Z.land x 7 in
        let accept := acceptRanges (Z.shiftr x 4) in
        match t0 with
        | EmptyString => (RuneError, 1%nat)
        | String c1 t1 =>
            let s1 := byte c1 in
            if (s1 <? accept.1) || (accept.2 <? s1) then (RuneError, 1%nat)
            else if sz <=? 2 then
              (Z.lor (Z.shiftl (Z.land s0 mask2) 6) (Z.land s1 maskx), 2%nat)
            else
              match t1 with
              | EmptyString => (RuneError, 1%nat)
              | String c2 t2 =>
                  let s2 := byte c2 in
                  if (s2 <? locb) || (hicb <? s2) then (RuneError, 1%nat)
                  else if sz <=? 3 then
                    (Z.lor (Z.lor (Z.shiftl (Z.land s0 mask3) 12)
                                  (Z.shiftl (Z.land s1 maskx) 6))
                           (Z.land s2 maskx), 3%nat)
                  else
                    match t2 with
                    | EmptyString => (RuneError, 1%nat)
                    | String c3 _ =>
                        let s3 := byte c3 in
                        if (s3 <? locb) || (hicb <? s3) then (RuneError, 1%nat)
                        else
                          (Z.lor (Z.lor (Z.lor (Z.shiftl (Z.land s0 mask4) 18)
                                               (Z.shiftl (Z.land s1 maskx) 12))
                                        (Z.shiftl (Z.land s2 maskx) 6))
                                 (Z.land s3 maskx), 4%nat)
                    end
              end
        end
  end.

(** [utf8.EncodeRune], for a rune that is not negative. *)
Definition EncodeRune (r : Z) : string :=
  let three (r : Z) : string :=
    String (chr (Z.lor 0xE0 (Z.shiftr r 12)))
      (String (chr (Z.lor 0x80 (Z.land (Z.shiftr r 6) maskx)))
         (String (chr (Z.lor 0x80 (Z.land r maskx))) "")) in
  if r <=? 0x7F then String (chr r) ""
  else if r <=? 0x7FF then
    String (chr (Z.lor 0xC0 (Z.shiftr r 6)))
      (String (chr (Z.lor 0x80 (Z.land r maskx))) "")
  else if (MaxRune <? r) || ((surrogateMin <=? r) && (r <=? surrogateMax)) then
    three RuneError
  else if r <=? 0xFFFF then three r
  else
    String (chr (Z.lor 0xF0 (Z.shiftr r 18)))
      (String (chr (Z.lor 0x80 (Z.land (Z.shiftr r 12) maskx)))
         (String (chr (Z.lor 0x80 (Z.land (Z.shiftr r 6) maskx)))
            (String (chr (Z.lor 0x80 (Z.land r maskx))) ""))).

(** Whether [s] begins with an encoding that is not valid. *)
Definition invalid_rune (s : string) : bool :=
  let (r, size) := DecodeRuneInString s in
  (r =? RuneError) && (size =? 1)%nat.

(** [utf8.ValidString]: [s] is a sequence of validly encoded runes. *)
Fixpoint valid_from (fuel : nat) (s : string) : bool :=
  match fuel, s with
  | _, EmptyString => true
  | O, _ => false
  | S fuel, _ =>
      negb (invalid_rune s) && valid_from fuel (drop (DecodeRuneInString s).2 s)
  end.

Definition ValidString (s : string) : bool := valid_from (String.length s) s.

End utf8.

Module json.
Import utf8.
Local Open Scope Z_scope.

Definition quote : ascii := "034".
Definition backslash : ascii := "092".

(** *** Encoding *)

Definition hex (n : Z) : ascii :=
  default "0"%char (String.get (Z.to_nat n) "0123456789abcdef").

(** The table [htmlSafeSet]: the ASCII bytes a string holds unescaped. *)
Definition htmlSafeSet (b : Z) : bool :=
  (0x20 <=? b) && (b <? 0x80) &&
  negb (bool_decide (b ∈ [0x22; 0x26; 0x3C; 0x3E; 0x5C])).

(** One round of the loop of [appendString], with HTML escaping as the
    encoder has it, at [src[i:] = s]: the bytes the round adds to the
    output and the number of bytes [i] advances by. The bytes the source
    copies later, as part of [src[start:i]], are added by the round that
    passes them. Releases of Go before 1.22 write backspace and form feed
    as [\u0008] and [\u000c]. *)
Definition escape_step (s : string) : string * nat :=
  match s with
  | EmptyString => ("", 0%nat)
  | String c _ =>
      let b := byte c in
      if b <? RuneSelf then
        if htmlSafeSet b then (String c "", 1%nat)
        else if (b =? 0x5C) || (b =? 0x22) then (String backslash (String c ""), 1%nat)
        else if b =? 0x08 then ("\b", 1%nat)
        else if b =? 0x0C then ("\f", 1%nat)
        else if b =? 0x0A then ("\n", 1%nat)
        else if b =? 0x0D then ("\r", 1%nat)
        else if b =? 0x09 then ("\t", 1%nat)
        else ("\u00" +:+ String (hex (Z.shiftr b 4)) (String (hex (Z.land b 0xF)) ""), 1%nat)
      else
        let (r, size) := DecodeRuneInString (take 4 s) in
        if (r =? RuneError) && (size =? 1)%nat then (String backslash "ufffd", 1%nat)
        else if (r =? 0x2028) || (r =? 0x2029) then
          ("\u202" +:+ String (hex (Z.land r 0xF)) "", size)
        else (take size s, size)
  end.

Fixpoint escape_from (fuel : nat) (s : string) : string :=
  match fuel, s with
  | S fuel, String _ _ =>
      let (out, size) := escape_step s in
      out +:+ escape_from fuel (drop size s)
  | _, _ => ""
  end.

(** [appendString]: the JSON string literal of [s]. *)
Definition appendString (s : string) : string :=
  String quote (escape_from (String.length s) s +:+ String quote "").

(** [json.Marshal] of a [scaleVolume]: the fields in the order of the
    struct, under the names of their tags; [strconv.AppendInt] writes the
    size in decimal. The encoder has no error for a value of this type. *)
Definition Marshal (v : scaleVolume) : string :=
  "{" +:+ appendString "volName" +:+ ":" +:+ appendString (VolName v) +:+
  "," +:+ appendString "volID" +:+ ":" +:+ appendString (VolID v) +:+
  "," +:+ appendString "volSize" +:+ ":" +:+ pretty (VolSize v) +:+
  "," +:+ appendString "volIscsi" +:+ ":" +:+ (if VolIscsi v then "true" else "false") +:+
  "," +:+ appendString "volIscsiVid" +:+ ":" +:+ appendString (VolIscsiVid v) +:+
  "," +:+ appendString "volBackendFs" +:+ ":" +:+ appendString (VolBackendFs v) +:+ "}".

(** *** Decoding *)

(** The errors of [Decoder.Decode]: [io.EOF] when the input holds no
    value, [io.ErrUnexpectedEOF] when it ends inside one, a [*SyntaxError]
    for input that is not JSON, and an [*UnmarshalTypeError] for a JSON
    value that does not fit the Go value it is stored into. *)
Inductive DecodeError :=
| io_EOF
| io_ErrUnexpectedEOF
| SyntaxError
| UnmarshalTypeError (value field : string).

#[local] Set Warnings "-register-all".

(** A JSON value as the decoder reads it: a string with its escapes
    resolved, a number as its literal. *)
Inductive Value :=
| Null
| Bool (b : bool)
| Number (literal : string)
| Str (s : string)
| Array (elems : list Value)
| Object (members : list (string * Value)).

Definition isSpace (c : ascii) : bool :=
  bool_decide (byte c ∈ [0x20; 0x09; 0x0D; 0x0A]).

Fixpoint skip_space (s : string) : string :=
  match s with
  | String c s' => if isSpace c then skip_space s' else s
  | EmptyString => ""
  end.

Definition hexval (c : ascii) : option Z :=
  let b := byte c in
  if (0x30 <=? b) && (b <=? 0x39) then Some (b - 0x30)
  else if (0x61 <=? b) && (b <=? 0x66) then Some (b - 0x61 + 10)
  else if (0x41 <=? b) && (b <=? 0x46) then Some (b - 0x41 + 10)
  else None.

(** The value of [n] hexadecimal digits at the front of [s]. *)
Fixpoint hex_digits (n : nat) (r : Z) (s : string) : (Z * string) + DecodeError :=
  match n with
  | O => inl (r, s)
  | S n =>
      match s with
      | EmptyString => inr io_ErrUnexpectedEOF
      | String c s' =>
          match hexval c with
          | Some d => hex_digits n (r * 16 + d) s'
          | None => inr SyntaxError
          end
      end
  end.

(** [getu4]: the rune of an escape [\uXXXX] at the front of [s], if there
    is one ([-1] in the source when there is none). *)
Definition getu4 (s : string) : option Z :=
  match s with
  | String "\" (String "u" s') =>
      match hex_digits 4 0 s' with
      | inl (r, _) => Some r
      | inr _ => None
      end
  | _ => None
  end.

(** [utf16.IsSurrogate] and [utf16.DecodeRune]. *)
Definition IsSurrogate (r : Z) : bool := (0xD800 <=? r) && (r <? 0xE000).

Definition utf16_DecodeRune (r1 r2 : Z) : Z :=
  if (0xD800 <=? r1) && (r1 <? 0xDC00) && (0xDC00 <=? r2) && (r2 <? 0xE000)
  then Z.lor (Z.shiftl (r1 - 0xD800) 10) (r2 - 0xDC00) + 0x10000
  else RuneError.

(** The byte an escape of two bytes stands for. *)
Definition simple_escape (c : ascii) : option ascii :=
  let b := byte c in
  if (b =? 0x22) || (b =? 0x5C) || (b =? 0x2F) then Some c
  else if b =? 0x62 then Some "008"%char
  else if b =? 0x66 then Some "012"%char
  else if b =? 0x6E then Some "010"%char
  else if b =? 0x72 then Some "013"%char
  else if b =? 0x74 then Some "009"%char
  else None.

(** One round of the reading of a string literal, inside its quotes and
    not at the closing one: what the scanner accepts and [unquote] makes
    of it, and the input that is left. A control byte is refused; an
    escape gives its byte or the encoding of its rune, two escaped
    surrogate halves that pair giving one rune; bytes from [RuneSelf] on
    are decoded as a rune and encoded again, which turns a byte that
    encodes no rune into U+FFFD. *)
Definition unquote_step (s : string) : (string * string) + DecodeError :=
  match s with
  | EmptyString => inr io_ErrUnexpectedEOF
  | String c rest =>
      let b := byte c in
      if b =? 0x5C then
        match rest with
        | EmptyString => inr io_ErrUnexpectedEOF
        | String e rest' =>
            match simple_escape e with
            | Some c' => inl (String c' "", rest')
            | None =>
                if byte e =? 0x75 then
                  match hex_digits 4 0 rest' with
                  | inr err => inr err
                  | inl (rr, rest4) =>
                      if IsSurrogate rr then
                        match getu4 rest4 with
                        | Some rr1 =>
                            let dec := utf16_DecodeRune rr rr1 in
                            if dec =? RuneError then (inl (EncodeRune RuneError, rest4))
                            else inl (EncodeRune dec, drop 6 rest4)
                        | None => inl (EncodeRune RuneError, rest4)
                        end
                      else inl (EncodeRune rr, rest4)
                  end
                else inr SyntaxError
            end
        end
      else if b <? 0x20 then inr SyntaxError
      else if b <? RuneSelf then inl (String c "", rest)
      else
        let (rr, size) := DecodeRuneInString s in
        inl (EncodeRune rr, drop size s)
  end.

(** A string literal after its opening quote: the string it stands for and
    the input after its closing quote. *)
Fixpoint string_literal (fuel : nat) (s : string) : (string * string) + DecodeError :=
  match fuel with
  | O => inr io_ErrUnexpectedEOF
  | S fuel =>
      match s with
      | EmptyString => inr io_ErrUnexpectedEOF
      | String c rest =>
          if Ascii.eqb c quote then inl ("", rest)
          else
            match unquote_step s with
            | inr err => inr err
            | inl (out, s') =>
                match string_literal fuel s' with
                | inr err => inr err
                | inl (str, s'') => inl (out +:+ str, s'')
                end
            end
      end
  end.

Definition isDigit (c : ascii) : bool := (0x30 <=? byte c) && (byte c <=? 0x39).

(** The digits at the front of [s], and what follows them. *)
Fixpoint digits (s : string) : string * string :=
  match s with
  | String c s' =>
      if isDigit c then let (ds, rest) := digits s' in (String c ds, rest)
      else ("", s)
  | EmptyString => ("", "")
  end.

(** One or more digits. *)
Definition digits1 (s : string) : (string * string) + DecodeError :=
  match s with
  | EmptyString => inr io_ErrUnexpectedEOF
  | String c _ => if isDigit c then inl (digits s) else inr SyntaxError
  end.

(** A number literal: an optional minus, the integer part ([0], or digits
    not starting with [0]), an optional fraction and an optional exponent.
    The literal ends before the first byte that cannot continue it. *)
Definition number_literal (s : string) : (string * string) + DecodeError :=
  let (sign, s) :=
    match s with
    | String c s' => if Ascii.eqb c "-" then ("-", s') else ("", s)
    | EmptyString => ("", s)
    end in
  match s with
  | EmptyString => inr io_ErrUnexpectedEOF
  | String c s' =>
      if negb (isDigit c) then inr SyntaxError
      else
        let (int, s) := if Ascii.eqb c "0" then ("0", s') else digits s in
        let frac :=
          match s with
          | String c s' =>
              if Ascii.eqb c "." then
                match digits1 s' with
                | inr err => inr err
                | inl (ds, s) => inl ("." +:+ ds, s)
                end
              else inl ("", s)
          | EmptyString => inl ("", s)
          end in
        match frac with
        | inr err => inr err
        | inl (frac, s) =>
            let exp :=
              match s with
              | String e s' =>
                  if Ascii.eqb e "e" || Ascii.eqb e "E" then
                    let (esign, s') :=
                      match s' with
                      | String c s'' =>
                          if Ascii.eqb c "+" || Ascii.eqb c "-" then (String c "", s'')
                          else ("", s')
                      | EmptyString => ("", s')
                      end in
                    match digits1 s' with
                    | inr err => inr err
                    | inl (ds, s) => inl (String e esign +:+ ds, s)
                    end
                  else inl ("", s)
              | EmptyString => inl ("", s)
              end in
            match exp with
            | inr err => inr err
            | inl (exp, s) => inl (sign +:+ int +:+ frac +:+ exp, s)
            end
        end
  end.

(** The input after the bytes of [word], which the input must hold. *)
Fixpoint expect (word s : string) : string + DecodeError :=
  match word, s with
  | EmptyString, _ => inl s
  | String _ _, EmptyString => inr io_ErrUnexpectedEOF
  | String c word', String d s' =>
      if Ascii.eqb c d then expect word' s' else inr SyntaxError
  end.

Definition maxNestingDepth : Z := 10000.

(** The scanner and the value it delimits: the first JSON value of [s],
    which begins at a byte that is no white space, and the input after
    it. [depth] counts the arrays and objects around the value. *)
Fixpoint value (fuel : nat) (depth : Z) (s : string) : (Value * string) + DecodeError :=
  match fuel with
  | O => inr SyntaxError
  | S fuel =>
      match s with
      | EmptyString => inr io_ErrUnexpectedEOF
      | String c rest =>
          if Ascii.eqb c "{" then
            if maxNestingDepth <? depth + 1 then inr SyntaxError
            else
              match skip_space rest with
              | EmptyString => inr io_ErrUnexpectedEOF
              | String d rest' as s' =>
                  if Ascii.eqb d "}" then inl (Object [], rest')
                  else
                    match members fuel (depth + 1) s' with
                    | inr err => inr err
                    | inl (ms, s'') => inl (Object ms, s'')
                    end
              end
          else if Ascii.eqb c "[" then
            if maxNestingDepth <? depth + 1 then inr SyntaxError
            else
              match skip_space rest with
              | EmptyString => inr io_ErrUnexpectedEOF
              | String d rest' as s' =>
                  if Ascii.eqb d "]" then inl (Array [], rest')
                  else
                    match elements fuel (depth + 1) s' with
                    | inr err => inr err
                    | inl (vs, s'') => inl (Array vs, s'')
                    end
              end
          else if Ascii.eqb c quote then
            match string_literal (String.length s) rest with
            | inr err => inr err
            | inl (str, s') => inl (Str str, s')
            end
          else if Ascii.eqb c "-" || isDigit c then
            match number_literal s with
            | inr err => inr err
            | inl (lit, s') => inl (Number lit, s')
            end
          else if Ascii.eqb c "t" then
            match expect "rue" rest with
            | inr err => inr err
            | inl s' => inl (Bool true, s')
            end
          else if Ascii.eqb c "f" then
            match expect "alse" rest with
            | inr err => inr err
            | inl s' => inl (Bool false, s')
            end
          else if Ascii.eqb c "n" then
            match expect "ull" rest with
            | inr err => inr err
            | inl s' => inl (Null, s')
            end
          else inr SyntaxError
      end
  end
with members (fuel : nat) (depth : Z) (s : string)
  : (list (string * Value) * string) + DecodeError :=
  match fuel with
  | O => inr SyntaxError
  | S fuel =>
      match s with
      | EmptyString => inr io_ErrUnexpectedEOF
      | String c rest =>
          if negb (Ascii.eqb c quote) then inr SyntaxError
          else
            match string_literal (String.length s) rest with
            | inr err => inr err
            | inl (key, s) =>
                match skip_space s with
                | EmptyString => inr io_ErrUnexpectedEOF
                | String c s =>
                    if negb (Ascii.eqb c ":") then inr SyntaxError
                    else
                      match value fuel depth (skip_space s) with
                      | inr err => inr err
                      | inl (v, s) =>
                          match skip_space s with
                          | EmptyString => inr io_ErrUnexpectedEOF
                          | String c s =>
                              if Ascii.eqb c "}" then inl ([(key, v)], s)
                              else if Ascii.eqb c "," then
                                match members fuel depth (skip_space s) with
                                | inr err => inr err
                                | inl (ms, s) => inl ((key, v) :: ms, s)
                                end
                              else inr SyntaxError
                          end
                      end
                end
            end
      end
  end
with elements (fuel : nat) (depth : Z) (s : string)
  : (list Value * string) + DecodeError :=
  match fuel with
  | O => inr SyntaxError
  | S fuel =>
      match value fuel depth s with
      | inr err => inr err
      | inl (v, s) =>
          match skip_space s with
          | EmptyString => inr io_ErrUnexpectedEOF
          | String c s =>
              if Ascii.eqb c "]" then inl ([v], s)
              else if Ascii.eqb c "," then
                match elements fuel depth (skip_space s) with
                | inr err => inr err
                | inl (vs, s) => inl (v :: vs, s)
                end
              else inr SyntaxError
          end
      end
  end.

(** The fields of [scaleVolume]. *)
Inductive Field :=
| F_VolName | F_VolID | F_VolSize | F_VolIscsi | F_VolIscsiVid | F_VolBackendFs.

Definition fields : list Field :=
  [F_VolName; F_VolID; F_VolSize; F_VolIscsi; F_VolIscsiVid; F_VolBackendFs].

(** The name a field has in JSON, from its tag. *)
Definition name (f : Field) : string :=
  match f with
  | F_VolName => "volName"
  | F_VolID => "volID"
  | F_VolSize => "volSize"
  | F_VolIscsi => "volIscsi"
  | F_VolIscsiVid => "volIscsiVid"
  | F_VolBackendFs => "volBackendFs"
  end.

(** [foldName], as far as a comparison with a name of ASCII letters needs
    it: letters go to upper case, and the two runes outside ASCII that
    fold to a letter, U+017F (long s) and U+212A (Kelvin sign), go to
    [S] and [K]; every other rune folds to a rune outside ASCII, written
    as it is here. *)
Fixpoint foldName (s : string) : string :=
  match s with
  | String "197" (String "191" s') => String "S" (foldName s')
  | String "226" (String "132" (String "170" s')) => String "K" (foldName s')
  | String c s' =>
      let b := byte c in
      String (if (0x61 <=? b) && (b <=? 0x7A) then chr (b - 0x20) else c) (foldName s')
  | EmptyString => ""
  end.

(** The field an object key names: the one of that name, else the one
    whose name is equal under folding. No two names of the struct are. *)
Definition field_of (key : string) : option Field :=
  match List.find (λ f, String.eqb (name f) key) fields with
  | Some f => Some f
  | None => List.find (λ f, String.eqb (foldName (name f)) (foldName key)) fields
  end.

(** [strconv.ParseInt(s, 10, 64)] of a JSON number literal: the value of
    a literal without fraction and exponent that fits 64 bits. *)
Definition digit_value (c : ascii) : Z := byte c - 0x30.

Fixpoint decimal (acc : Z) (s : string) : option Z :=
  match s with
  | EmptyString => Some acc
  | String c s' => if isDigit c then decimal (acc * 10 + digit_value c) s' else None
  end.

Definition ParseInt (s : string) : option Z :=
  let unsigned (s : string) : option Z :=
    match s with
    | EmptyString => None
    | String _ _ => decimal 0 s
    end in
  let n :=
    match s with
    | String c s' => if Ascii.eqb c "-" then Z.opp <$> unsigned s' else unsigned s
    | EmptyString => None
    end in
  n ≫= λ n, if (- 2 ^ 63 <=? n) && (n <? 2 ^ 63) then Some n else None.

(** What an [*UnmarshalTypeError] calls a JSON value. *)
Definition kind (x : Value) : string :=
  match x with
  | Null => "null"
  | Bool _ => "bool"
  | Number _ => "number"
  | Str _ => "string"
  | Array _ => "array"
  | Object _ => "object"
  end.

(** The value [x] stored into the field [f]: [null] leaves the field as it
    is, a value of another kind than the field's is an error that leaves
    it as it is too. *)
Definition store (f : Field) (x : Value) (v : scaleVolume) : scaleVolume * option DecodeError :=
  let mismatch := (v, Some (UnmarshalTypeError (kind x) (name f))) in
  let text (set : string → scaleVolume → scaleVolume) :=
    match x with
    | Str s => (set s v, None)
    | Null => (v, None)
    | _ => mismatch
    end in
  match f with
  | F_VolName => text set_VolName
  | F_VolID => text set_VolID
  | F_VolIscsiVid => text set_VolIscsiVid
  | F_VolBackendFs => text set_VolBackendFs
  | F_VolSize =>
      match x with
      | Number lit =>
          match ParseInt lit with
          | Some n => (set_VolSize n v, None)
          | None => (v, Some (UnmarshalTypeError ("number " +:+ lit) (name f)))
          end
      | Null => (v, None)
      | _ => mismatch
      end
  | F_VolIscsi =>
      match x with
      | Bool b => (set_VolIscsi b v, None)
      | Null => (v, None)
      | _ => mismatch
      end
  end.

(** The members of an object stored one after the other: a key that names
    no field is skipped, a later member overwrites an earlier one, and the
    first error is kept while the rest is still stored. *)
Fixpoint object (ms : list (string * Value)) (v : scaleVolume) (saved : option DecodeError)
  : scaleVolume * option DecodeError :=
  match ms with
  | [] => (v, saved)
  | (key, x) :: ms =>
      match field_of key with
      | None => object ms v saved
      | Some f =>
          let (v, err) := store f x v in
          object ms v (if saved is Some _ then saved else err)
      end
  end.

(** [Unmarshal] of a value into a [*scaleVolume]. *)
Definition unmarshal (x : Value) (v : scaleVolume) : scaleVolume * option DecodeError :=
  match x with
  | Object ms => object ms v None
  | Null => (v, None)
  | _ => (v, Some (UnmarshalTypeError (kind x) ""))
  end.

(** [Decoder.Decode] on a decoder that has read nothing yet from a
    reader that holds [data]: the first value of the input is delimited
    and checked as a whole, then stored; what follows the value is not
    looked at. *)
Definition Decode (data : string) (v : scaleVolume) : scaleVolume * option DecodeError :=
  match skip_space data with
  | EmptyString => (v, Some io_EOF)
  | s =>
      match value (S (String.length s)) 0 s with
      | inr err => (v, Some err)
      | inl (x, _) => unmarshal x v
      end
  end.

(** The library, with [errors] giving the [error] value of each error of
    the decoder, plugged into what the package takes from outside. *)
Definition platform (errors : DecodeError → error) (P : Platform) : Platform := {|
  PluginFolder := @PluginFolder P;
  path_Join := @path_Join P;
  json_Marshal v := inl (Marshal v);
  json_Decode data v := let (v, err) := Decode data v in (v, errors <$> err);
  range_order := @range_order P;
  Sprint_DeleteVolumeRequest := @Sprint_DeleteVolumeRequest P;
|}.

(** A record whose strings are valid UTF-8; its size is an [int64]. *)
Definition well_formed (v : scaleVolume) : Prop :=
  ValidString (VolName v) = true ∧ ValidString (VolID v) = true ∧
  ValidString (VolIscsiVid v) = true ∧ ValidString (VolBackendFs v) = true ∧
  - 2 ^ 63 ≤ VolSize v < 2 ^ 63.

End json.

(** ** Vocabulary of the further properties *)

(** The calls by which a volume is provisioned, and those by which it is
    torn down. *)
Definition provisioning_call (c : Call) : bool :=
  match c with
  | CreateFSet _ _ | LinkFSet _ _ _ | PickNextRawDevice | CreateNSD _ _ | CreateFS _ _
  | AttachIscsiDevicesToNode _ _ _ | IscsiCreateVolume _ _ | IscsiGetDevicePath _ _ _ => true
  | _ => false
  end.

Definition teardown_call (c : Call) : bool :=
  match c with
  | UnlinkFSet _ _ | DeleteFSet _ _ | DeleteFS _ | DeleteNSD _ | IscsiDeleteVolume _ => true
  | _ => false
  end.

(** The calls a [CreateVolume] may make, and those a [DeleteVolume] may
    make. *)
Definition create_side_call (c : Call) : bool :=
  match c with
  | NewUUID | OsCreate _ => true
  | _ => provisioning_call c
  end.

Definition delete_side_call (c : Call) : bool :=
  match c with
  | OsOpen _ | OsRemove _ => true
  | _ => teardown_call c
  end.

Section More_frames.
Context {B : Type}.

(** [w'] differs from [w] in its trace by calls that all satisfy [P]. *)
Definition calls_within (P : Call → bool) (w w' : World B) : Prop :=
  ∃ calls, trace w' = trace w ++ calls ∧ Forall (λ c, P c = true) calls.

Definition calls_within_m {A} (P : Call → bool) (m : M B A) : Prop :=
  ∀ w, calls_within P w (m w).2.

(** The state of the administrative layer after it served the calls
    [calls], in order, from the state [b]. *)
Definition after_calls `{!Backend B} (calls : list Call) (b : B) : B :=
  fold_left (λ b c, (exec c b).2) calls b.
End More_frames.

(** Every record of the registry is stored under its own identifier. *)
Definition keyed_by_VolID (registry : gmap string scaleVolume) : Prop :=
  ∀ id v, registry !! id = Some v → VolID v = id.

(** No two entries of the registry carry the same name. *)
Definition unique_names (registry : gmap string scaleVolume) : Prop :=
  ∀ id1 id2 v1 v2,
    registry !! id1 = Some v1 → registry !! id2 = Some v2 →
    VolName v1 = VolName v2 → id1 = id2.

(** Whether the byte [c] occurs in [s]. *)
Fixpoint occurs (c : ascii) (s : string) : bool :=
  match s with
  | EmptyString => false
  | String d s' => Ascii.eqb d c || occurs c s'
  end.

(** The name of the file system a backing path selects: what follows the
    last slash of the path. *)
Definition fsName_of (volBackendFs : string) : string :=
  last_elem (strings_Split volBackendFs "/").

(** ** Further example inputs *)

Module Scenarios.
Import Sim Examples.

(** [create(name = pvc-b)] on the file system mounted at [/gpfs1]. *)
Definition req_b : CreateVolumeRequest :=
  mkCreateVolumeRequest "pvc-b" None caps {[ "volBackendFs" := "/gpfs1" ]}.

(** [create(name = pvc-i)] of 500000 bytes on an iSCSI volume. *)
Definition req_i : CreateVolumeRequest :=
  mkCreateVolumeRequest "pvc-i" (Some (mkCapacityRange 500000 0)) caps
                        {[ "volIscsi" := "true" ]}.

(** The records these requests leave behind on a fresh installation. *)
Definition vol_b : scaleVolume :=
  mkScaleVolume "pvc-b" "uuid-0-fileset" 1073741824 false "" "/gpfs1".
Definition vol_i : scaleVolume :=
  mkScaleVolume "pvc-i" "uuid-0" 500000 true "vid-1" "".

(** The installation after [pvc-a] was created and deleted again. *)
Definition after_delete_a : World Admin := (DeleteVolume cs delete_a after_a).2.

Definition multi_writer : option csi.VolumeCapability :=
  Some (csi.mkCapability
          (Some (csi.mkAccessMode csi.VolumeCapability_AccessMode_MULTI_NODE_MULTI_WRITER))).
Definition single_writer : option csi.VolumeCapability :=
  Some (csi.mkCapability
          (Some (csi.mkAccessMode csi.VolumeCapability_AccessMode_SINGLE_NODE_WRITER))).

(** A configuration of one cluster in secure mode, with its secret and its
    certificate; the same without the password file; and the same with a
    password file that is there but may not be read. *)
Definition newline : string := String "010" "".
Definition config_files : list (string * settings.Entry) :=
  [(settings.ConfigMapFile, settings.Readable ("c1 secret1 ca.pem" +:+ newline));
   (path_Join [settings.SecretBasePath; "secret1"; "username"],
    settings.Readable (" admin" +:+ newline));
   (path_Join [settings.CertificatePath; "ca.pem"], settings.Readable "CERTIFICATE")].
Definition password_path : string :=
  path_Join [settings.SecretBasePath; "secret1"; "password"].
Definition config_fs : settings.Disk :=
  list_to_map ((password_path, settings.Readable ("s3cret" +:+ newline)) :: config_files).
Definition config_fs_no_password : settings.Disk := list_to_map config_files.
Definition config_fs_password_denied : settings.Disk :=
  list_to_map ((password_path, settings.Unreadable (PathError "open" password_path EACCES))
               :: config_files).
(** The simulated installation with Go's JSON library in the place of
    its codec; the texts of the decoder's errors are those of the
    simulation. *)
Definition json_error (e : json.DecodeError) : error :=
  match e with
  | json.io_EOF => Errorf "EOF"
  | json.io_ErrUnexpectedEOF => Errorf "unexpected EOF"
  | json.SyntaxError => Errorf "invalid character"
  | json.UnmarshalTypeError value field =>
      Errorf ("json: cannot unmarshal " +:+ value +:+ " into Go struct field " +:+ field)
  end.
Definition go_platform : Platform := json.platform json_error Sim.platform.

(** The string literal with the content [s], written as it is. *)
Definition literal (s : string) : string :=
  String json.quote s +:+ String json.quote "".

(** The record of [pvc-a] under a name that is the one byte 0xFF, which
    is not UTF-8, and the same under the name U+FFFD. *)
Definition vol_byte_name : scaleVolume := set_VolName (String "255" "") vol_a.
Definition vol_replaced_name : scaleVolume :=
  set_VolName (String "239" (String "191" (String "189" ""))) vol_a.
End Scenarios.

(** ** Properties *)

Section Basics.
Lemma len_eqb_0 (s : string) : (len s =? 0)%Z = bool_decide (s = "").
Proof.
  destruct s as [|c s]; [reflexivity|].
  unfold len; cbn [String.length].
  rewrite bool_decide_eq_false_2 by discriminate.
  apply Z.eqb_neq. lia.
Qed.

Lemma len_gtb_0 (s : string) : (len s >? 0)%Z = bool_decide (s ≠ "").
Proof.
  destruct s as [|c s].
  - rewrite bool_decide_eq_false_2; [reflexivity|]. intros Hne. by apply Hne.
  - unfold len; cbn [String.length].
    rewrite bool_decide_eq_true_2 by discriminate.
    apply Z.gtb_lt. lia.
Qed.

(** A name no record carries is not found, in whatever order the records
    are visited. *)
Lemma first_named_fresh (name : string) (vols : list (string * scaleVolume)) :
  (∀ id r, (id, r) ∈ vols → VolName r ≠ name) →
  ∃ err, first_named name vols = inr err.
Proof.
  induction vols as [|[id r] vols IH]; intros Hfresh; cbn.
  - eauto.
  - destruct (decide (VolName r = name)) as [Heq|_].
    + exfalso. apply (Hfresh id r); [left|done].
    + apply IH. intros id' r' Hin. apply (Hfresh id' r'). by right.
Qed.

(** A record that is found carries the name and is in the list. *)
Lemma first_named_found (name : string) (vols : list (string * scaleVolume))
    (v : scaleVolume) :
  first_named name vols = inl v → VolName v = name ∧ ∃ id, (id, v) ∈ vols.
Proof.
  induction vols as [|[id r] vols IH]; cbn; [discriminate|].
  destruct (decide (VolName r = name)) as [Heq|_].
  - intros [= <-]. split; [done|]. exists id. left.
  - intros Hf. destruct (IH Hf) as [Hn [id' Hin]]. split; [done|].
    exists id'. by right.
Qed.
End Basics.

Section Frame_lemmas.
Context {B : Type} `{!Backend B} `{!Platform}.

Lemma admin_only_refl (w : World B) : admin_only w w.
Proof. repeat split. exists []. by rewrite app_nil_r. Qed.

Lemma admin_only_trans (w1 w2 w3 : World B) :
  admin_only w1 w2 → admin_only w2 w3 → admin_only w1 w3.
Proof.
  intros (Hr1 & Hf1 & c1 & Ht1) (Hr2 & Hf2 & c2 & Ht2).
  repeat split; [congruence..|].
  exists (c1 ++ c2)%list. by rewrite Ht2, Ht1, app_assoc.
Qed.

Lemma ret_admin_only {A} (a : A) : admin_only_m (B:=B) (ret a).
Proof. intros w. apply admin_only_refl. Qed.

Lemma bind_admin_only {A C} (m : M B A) (k : A → M B C) :
  admin_only_m m → (∀ a, admin_only_m (k a)) → admin_only_m (bind m k).
Proof.
  intros Hm Hk w. unfold bind. specialize (Hm w).
  destruct (m w) as [a w1]. eapply admin_only_trans; [exact Hm|apply Hk].
Qed.

Lemma extern_eq (c : Call) (w : World B) :
  extern c w =
  ((exec c (backend w)).1,
   mkWorld (scaleVolumes w) (fsys w) (exec c (backend w)).2 (trace w ++ [c])).
Proof. unfold extern. by destruct (exec c (backend w)). Qed.

Lemma extern_admin_only (c : Call) : admin_only_m (extern c).
Proof. intros w. rewrite extern_eq. repeat split. by exists [c]. Qed.

Lemma attach_to_nodes_admin_only (pbVol : PbVolume) (ns : list string) :
  admin_only_m (attach_to_nodes pbVol ns).
Proof.
  induction ns as [|node ns IH]; cbn [attach_to_nodes].
  - apply ret_admin_only.
  - apply bind_admin_only; [apply extern_admin_only|].
    intros [err|]; [apply ret_admin_only|exact IH].
Qed.

End Frame_lemmas.

(** Proves that a sequence of calls and returns is [admin_only_m]. *)
Ltac solve_frame :=
  repeat first
    [ apply ret_admin_only
    | apply extern_admin_only
    | apply attach_to_nodes_admin_only
    | apply bind_admin_only; [|intros ?]
    | match goal with
      | |- admin_only_m (match ?x with _ => _ end) => destruct x
      end ].

Section Frame_of_provisioning.
Context {B : Type} `{!Backend B} `{!Platform}.

(** A computation that starts with a call and goes on with calls only
    has that call first in what it adds to the trace. *)
Lemma bind_extern_opening {A} (c : Call) (k : reply c → M B A) (w : World B) :
  (∀ a, admin_only_m (k a)) →
  ∃ calls, trace (bind (extern c) k w).2 = trace w ++ c :: calls.
Proof.
  intros Hk. unfold bind. rewrite extern_eq.
  destruct (Hk (exec c (backend w)).1
               (mkWorld (scaleVolumes w) (fsys w) (exec c (backend w)).2 (trace w ++ [c])))
    as (_ & _ & calls & Htrace).
  exists calls. rewrite Htrace. cbn. by rewrite <- app_assoc.
Qed.

Lemma createScaleImage_admin_only (pOpts : scaleVolume) (volSzMb : Z) :
  admin_only_m (createScaleImage pOpts volSzMb).
Proof.
  unfold createScaleImage. cbv zeta.
  destruct (len (VolBackendFs pOpts) >? 0)%Z; [|destruct (VolIscsi pOpts)];
    solve_frame.
Qed.

Lemma deleteScaleImage_admin_only (pOpts : scaleVolume) :
  admin_only_m (deleteScaleImage pOpts).
Proof.
  unfold deleteScaleImage.
  destruct (len (VolBackendFs pOpts) >? 0)%Z; solve_frame.
Qed.
End Frame_of_provisioning.

Section Metadata_lemmas.
Context {B : Type} `{!Backend B} `{!Platform}.

(** What [persistVolInfo] does, by the outcome of [os.Create] and of the
    encoding. *)
Lemma persistVolInfo_eq (image dir : string) (v : scaleVolume) (w : World B) :
  let file := path_Join [dir; image +:+ ".json"] in
  persistVolInfo image dir v w =
  match fs_Create file (fsys w) with
  | (Some err, fs') =>
      (Some (Errorf ("scale: create err " +:+ file +:+ "/" +:+ Error err)),
       mkWorld (scaleVolumes w) fs' (backend w) (trace w ++ [OsCreate file]))
  | (None, fs') =>
      match json_Marshal v with
      | inr err =>
          (Some (Errorf ("scale: encode err: " +:+ Error err)),
           mkWorld (scaleVolumes w) fs' (backend w) (trace w ++ [OsCreate file]))
      | inl data =>
          (None,
           mkWorld (scaleVolumes w) (fs_Write file (data +:+ String "010" "") fs')
                   (backend w) (trace w ++ [OsCreate file]))
      end
  end.
Proof.
  cbv zeta. unfold persistVolInfo, bind, os_Create.
  destruct (fs_Create _ (fsys w)) as [[err|] fs']; [reflexivity|].
  destruct (json_Marshal v); reflexivity.
Qed.

(** [persistVolInfo] leaves the registry and the administrative layer
    alone and makes one file-system call. *)
Lemma persistVolInfo_frame (image dir : string) (v : scaleVolume) (w : World B) :
  let w' := (persistVolInfo image dir v w).2 in
  scaleVolumes w' = scaleVolumes w ∧ backend w' = backend w ∧
  trace w' = trace w ++ [OsCreate (path_Join [dir; image +:+ ".json"])].
Proof.
  cbv zeta. rewrite persistVolInfo_eq.
  destruct (fs_Create _ (fsys w)) as [[err|] fs']; [done|].
  destruct (json_Marshal v); done.
Qed.

(** After a successful [persistVolInfo] the file holds the encoded
    record and a newline, whatever it held before. *)
Lemma persistVolInfo_ok (image dir : string) (v : scaleVolume) (w w' : World B) :
  persistVolInfo image dir v w = (None, w') →
  ∃ data, json_Marshal v = inl data ∧
    files (fsys w') =
      <[path_Join [dir; image +:+ ".json"] := data +:+ String "010" ""]> (files (fsys w)) ∧
    write_protected (fsys w') = write_protected (fsys w).
Proof.
  rewrite persistVolInfo_eq. unfold fs_Create.
  destruct (decide (_ ∈ write_protected (fsys w))); [discriminate|].
  destruct (json_Marshal v) as [data|err]; [|discriminate].
  intros [= <-]. exists data. split; [done|]. cbn.
  rewrite lookup_insert_eq. cbn. by rewrite insert_insert_eq.
Qed.

Lemma loadVolInfo_eq (image dir : string) (volInfo : scaleVolume) (w : World B) :
  let file := path_Join [dir; image +:+ ".json"] in
  loadVolInfo image dir volInfo w =
  (match files (fsys w) !! file with
   | None =>
       (volInfo, Some (Errorf ("scale: open err " +:+ file +:+ "/" +:+
                               Error (PathError "open" file ENOENT))))
   | Some data =>
       match json_Decode data volInfo with
       | (v, Some err) => (v, Some (Errorf ("scale: decode err: " +:+ Error err +:+ ".")))
       | (v, None) => (v, None)
       end
   end, record_call (OsOpen file) w).
Proof.
  cbv zeta. unfold loadVolInfo, bind, os_Open, fs_Open.
  destruct (files (fsys w) !! _) as [data|]; [|reflexivity].
  destruct (json_Decode data volInfo) as [v [err|]]; reflexivity.
Qed.

(** What [deleteVolInfo] does: every failure of [os.Remove] is a
    [*PathError], which is never [os.ErrNotExist]. *)
Lemma deleteVolInfo_eq (image dir : string) (w : World B) :
  let file := path_Join [dir; image +:+ ".json"] in
  deleteVolInfo image dir w =
  match fs_Remove file (fsys w) with
  | (Some err, fs') =>
      (Some (Errorf ("scale: error removing file: " +:+ file +:+ "/" +:+ Error err)),
       mkWorld (scaleVolumes w) fs' (backend w) (trace w ++ [OsRemove file]))
  | (None, fs') =>
      (None, mkWorld (scaleVolumes w) fs' (backend w) (trace w ++ [OsRemove file]))
  end.
Proof.
  cbv zeta. unfold deleteVolInfo, bind, os_Remove, fs_Remove.
  destruct (files (fsys w) !! _) as [data|]; [|reflexivity].
  destruct (decide (_ ∈ write_protected (fsys w))); reflexivity.
Qed.

(** [os.Remove] never fails with the value [os.ErrNotExist]: the test
    [err != os.ErrNotExist] of [deleteVolInfo] holds at every failure. *)
Lemma fs_Remove_error (file : string) (fs fs' : FileSys) (err : error) :
  fs_Remove file fs = (Some err, fs') → err ≠ os_ErrNotExist.
Proof.
  unfold fs_Remove. destruct (files fs !! file) as [data|].
  - destruct (decide (file ∈ write_protected fs)); intros [= <- <-]; discriminate.
  - intros [= <- <-]. discriminate.
Qed.

(** Removing the metadata file of an identifier that has none is an
    error of [deleteVolInfo]. *)
Lemma deleteVolInfo_absent (image dir : string) (w : World B) :
  files (fsys w) !! path_Join [dir; image +:+ ".json"] = None →
  ∃ err, (deleteVolInfo image dir w).1 = Some err.
Proof.
  intros Habsent. rewrite deleteVolInfo_eq. cbv zeta. unfold fs_Remove.
  rewrite Habsent. by eexists.
Qed.

Lemma deleteVolInfo_frame (image dir : string) (w : World B) :
  let w' := (deleteVolInfo image dir w).2 in
  scaleVolumes w' = scaleVolumes w ∧ backend w' = backend w ∧
  trace w' = trace w ++ [OsRemove (path_Join [dir; image +:+ ".json"])].
Proof.
  cbv zeta. rewrite deleteVolInfo_eq.
  destruct (fs_Remove _ (fsys w)) as [[err|] fs']; done.
Qed.

(** A [deleteVolInfo] that fails leaves every file in place; one that
    succeeds removes the file of the volume and no other. *)
Lemma deleteVolInfo_files (image dir : string) (w : World B) :
  let file := path_Join [dir; image +:+ ".json"] in
  match deleteVolInfo image dir w with
  | (Some _, w') => fsys w' = fsys w
  | (None, w') =>
      files (fsys w') = delete file (files (fsys w)) ∧
      write_protected (fsys w') = write_protected (fsys w)
  end.
Proof.
  cbv zeta. rewrite deleteVolInfo_eq. unfold fs_Remove.
  destruct (files (fsys w) !! _) as [data|]; [|done].
  destruct (decide (_ ∈ write_protected (fsys w))); done.
Qed.
End Metadata_lemmas.

Section Controller_lemmas.
Context {B : Type} `{!Backend B} `{!Platform} {D : Type} `{!Driver D}.

(** The record [CreateVolume] hands to [createScaleImage] is
    [new_volume]. *)
Lemma built_record (req : CreateVolumeRequest) (uniqueID : string) :
  Name req ≠ "" →
  let scaleVol := (getScaleVolumeOptions (GetParameters req)).1 in
  let volName := GetName req in
  let volName := if (len volName =? 0)%Z then "dynamic_pvc_" +:+ uniqueID else volName in
  let scaleVol := set_VolName volName scaleVol in
  let volumeID := uniqueID in
  let volumeID :=
    if (len (VolBackendFs scaleVol) >? 0)%Z then volumeID +:+ "-fileset" else volumeID in
  let scaleVol := set_VolID volumeID scaleVol in
  let volSizeBytes := oneGB in
  let volSizeBytes :=
    if decide (GetCapacityRange req ≠ None)
    then GetRequiredBytes (GetCapacityRange req) else volSizeBytes in
  set_VolSize volSizeBytes scaleVol = new_volume req uniqueID ∧
  volumeID = VolID (new_volume req uniqueID) ∧
  volSizeBytes = VolSize (new_volume req uniqueID).
Proof.
  intros Hname. cbv zeta.
  unfold GetName, GetParameters, GetCapacityRange, getScaleVolumeOptions, new_volume.
  cbn. rewrite len_eqb_0, bool_decide_eq_false_2 by done.
  rewrite len_gtb_0.
  destruct (decide (index (Parameters req) "volBackendFs" = "")) as [Hp|Hp].
  - rewrite bool_decide_eq_false_2 by (intros Hne; by apply Hne).
    destruct (CapacityRange_ req) as [r|]; cbn; done.
  - rewrite bool_decide_eq_true_2 by done.
    destruct (CapacityRange_ req) as [r|]; cbn; done.
Qed.

(** [CreateVolume] for a request that passes the checks and whose name is
    not found: generate, provision, persist, insert. *)
Lemma CreateVolume_fresh (cs : ScaleControllerServer D) (req : CreateVolumeRequest)
    (w : World B) (notfound : error) :
  ValidateControllerServiceRequest (Driver_ cs) RPC_CREATE_DELETE_VOLUME = None →
  Name req ≠ "" →
  VolumeCapabilities req ≠ None →
  first_named (Name req) (range_order (scaleVolumes w)) = inr notfound →
  CreateVolume cs req w =
  let (uniqueID, w1) := extern NewUUID w in
  let v := new_volume req uniqueID in
  let (created, w2) := createScaleImage v (VolSize v ÷ 1024 ÷ 1024) w1 in
  match created with
  | (_, Some err) =>
      (inr (status_Error Internal ("Failed to create volume: " +:+ Error err)), w2)
  | (v', None) =>
      let (err, w3) :=
        persistVolInfo (VolID v) (path_Join [PluginFolder; "controller"]) v' w2 in
      match err with
      | Some err =>
          (inr (status_Error Internal
                  ("failed to store volInfo with error: " +:+ Error err)), w3)
      | None =>
          (inl (mkCreateVolumeResponse (mkVolume (VolID v) (VolSize v) (Parameters req))),
           with_volume (VolID v) v' w3)
      end
  end.
Proof.
  intros Hvalid Hname Hcaps Hfresh. unfold CreateVolume.
  rewrite Hvalid, len_eqb_0, bool_decide_eq_false_2 by done.
  destruct (decide (VolumeCapabilities req = None)) as [|_]; [done|].
  unfold bind at 1. unfold getScaleVolumeByName, bind at 1.
  unfold get_scaleVolumes, ret at 1. unfold GetName at 1. rewrite Hfresh.
  change (getScaleVolumeOptions (GetParameters req))
    with ((getScaleVolumeOptions (GetParameters req)).1, @None error).
  cbv iota beta. unfold bind at 1.
  destruct (extern NewUUID w) as [uniqueID w1].
  destruct (built_record req uniqueID Hname) as (Hrec & Hid & Hsize).
  cbv zeta in Hrec, Hid, Hsize. rewrite Hrec, Hid, Hsize.
  unfold bind at 1.
  destruct (createScaleImage _ _ w1) as [[v' [err|]] w2]; [reflexivity|].
  unfold bind at 1.
  destruct (persistVolInfo _ _ v' w2) as [[err|] w3]; reflexivity.
Qed.
End Controller_lemmas.

Section CreateVolume_checks.
Context {B : Type} `{!Backend B} `{!Platform} {D : Type} `{!Driver D}.

(** A request without a name never gets past the checks: the world is
    left as it was. *)
Lemma CreateVolume_noname (cs : ScaleControllerServer D) (req : CreateVolumeRequest)
    (w : World B) :
  Name req = "" → ∃ st, CreateVolume cs req w = (inr st, w).
Proof.
  intros Hname. unfold CreateVolume.
  destruct (ValidateControllerServiceRequest _ _) as [err|]; [by eexists|].
  rewrite len_eqb_0, bool_decide_eq_true_2 by done. by eexists.
Qed.

(** With the driver's validation passed, a request without a name or
    without capabilities is an invalid argument. *)
Lemma CreateVolume_incomplete (cs : ScaleControllerServer D) (req : CreateVolumeRequest)
    (w : World B) :
  ValidateControllerServiceRequest (Driver_ cs) RPC_CREATE_DELETE_VOLUME = None →
  Name req = "" ∨ VolumeCapabilities req = None →
  ∃ msg, CreateVolume cs req w = (inr (status_Error InvalidArgument msg), w).
Proof.
  intros Hvalid Hbad. unfold CreateVolume. rewrite Hvalid, len_eqb_0.
  destruct (decide (Name req = "")) as [Hname|Hname].
  - rewrite bool_decide_eq_true_2 by done. by eexists.
  - rewrite bool_decide_eq_false_2 by done.
    destruct Hbad as [?|Hcaps]; [done|].
    destruct (decide (VolumeCapabilities req = None)); [|done]. by eexists.
Qed.

(** C1 (amended). For every CreateVolume request that passes the checks
    at the head of the function (the driver validates the request, the
    name is not empty, the capability list is not nil) and whose name
    resolves, by getScaleVolumeByName, to a record of the registry with
    stored size S: if S is at least the required bytes of the request,
    CreateVolume answers the identifier and the size S of that record;
    otherwise it fails with ALREADY_EXISTS. In both cases the world is
    left as it was: no call leaves the package, no file and no registry
    entry changes. *)
Theorem CreateVolume_existing_name (cs : ScaleControllerServer D)
    (req : CreateVolumeRequest) (w : World B) (exVol : scaleVolume) :
  ValidateControllerServiceRequest (Driver_ cs) RPC_CREATE_DELETE_VOLUME = None →
  Name req ≠ "" →
  VolumeCapabilities req ≠ None →
  (getScaleVolumeByName (Name req) w).1 = inl exVol →
  ((VolSize exVol >= GetRequiredBytes (CapacityRange_ req))%Z →
     CreateVolume cs req w =
     (inl (mkCreateVolumeResponse
             (mkVolume (VolID exVol) (VolSize exVol) (Parameters req))), w)) ∧
  ((VolSize exVol < GetRequiredBytes (CapacityRange_ req))%Z →
     ∃ msg, CreateVolume cs req w = (inr (status_Error AlreadyExists msg), w)).
Proof.
  intros Hvalid Hname Hcaps Hfound.
  assert (Hrun : CreateVolume cs req w =
    (if (VolSize exVol >=? GetRequiredBytes (CapacityRange_ req))%Z
     then inl (mkCreateVolumeResponse
                 (mkVolume (VolID exVol) (VolSize exVol) (Parameters req)))
     else inr (status_Error AlreadyExists
                 ("Volume with the same name: " +:+ Name req +:+
                  " but with different size already exist")), w)).
  { unfold CreateVolume.
    rewrite Hvalid, len_eqb_0, bool_decide_eq_false_2 by done.
    destruct (decide (VolumeCapabilities req = None)) as [|_]; [done|].
    unfold bind. unfold GetName.
    destruct (getScaleVolumeByName (Name req) w) as [found w0] eqn:Hlookup.
    assert (w0 = w) as -> by (unfold getScaleVolumeByName, bind, get_scaleVolumes, ret in Hlookup; congruence).
    cbn in Hfound. subst found.
    unfold GetCapacityRange, GetParameters.
    by destruct (VolSize exVol >=? _)%Z. }
  rewrite Hrun. split.
  - intros Hge. apply Z.ge_le, Z.geb_le in Hge. by rewrite Hge.
  - intros Hlt. destruct (VolSize exVol >=? _)%Z eqn:Hge.
    + apply Z.geb_le in Hge. lia.
    + by eexists.
Qed.

(** C4 (amended). For every CreateVolume request that the driver
    validates and whose name is empty or whose capability list is nil,
    CreateVolume fails with INVALID_ARGUMENT and leaves the world as it
    was: no provisioning, no persistence, no registry change. *)
Theorem CreateVolume_rejects_incomplete_request (cs : ScaleControllerServer D)
    (req : CreateVolumeRequest) (w : World B) :
  ValidateControllerServiceRequest (Driver_ cs) RPC_CREATE_DELETE_VOLUME = None →
  Name req = "" ∨ VolumeCapabilities req = None →
  ∃ msg, CreateVolume cs req w = (inr (status_Error InvalidArgument msg), w).
Proof.
  intros Hvalid Hbad. by apply CreateVolume_incomplete.
Qed.

(** C10. In CreateVolume the branch that synthesizes a volume name is
    never taken: in every execution that reaches identifier generation
    (one whose calls include NewUUID) the name of the request is not
    empty, so the test len(volName) == 0 is false there; a request with
    an empty name is rejected before any call leaves the package, with
    INVALID_ARGUMENT once the driver has validated the request. *)
Theorem synthesized_name_unreachable (cs : ScaleControllerServer D)
    (req : CreateVolumeRequest) (w : World B) :
  (∀ calls, trace (CreateVolume cs req w).2 = trace w ++ calls →
            NewUUID ∈ calls →
            (len (GetName req) =? 0)%Z = false) ∧
  (Name req = "" →
     ∃ st, CreateVolume cs req w = (inr st, w) ∧
           (ValidateControllerServiceRequest (Driver_ cs) RPC_CREATE_DELETE_VOLUME = None →
            code st = InvalidArgument)).
Proof.
  split.
  - intros calls Htrace Hin. rewrite len_eqb_0. apply bool_decide_eq_false_2.
    intros Hname. destruct (CreateVolume_noname cs req w Hname) as [st Hrun].
    rewrite Hrun in Htrace. cbn in Htrace.
    rewrite <- (app_nil_r (trace w)) in Htrace at 1.
    apply app_inv_head in Htrace. subst calls. by apply not_elem_of_nil in Hin.
  - intros Hname. destruct (CreateVolume_noname cs req w Hname) as [st Hrun].
    exists st. split; [done|]. intros Hvalid.
    destruct (CreateVolume_incomplete cs req w Hvalid (or_introl Hname)) as [msg Hrej].
    rewrite Hrun in Hrej. by injection Hrej as ->.
Qed.
End CreateVolume_checks.

(** Reduces the pairs, projections and [ret]s a run has produced, leaving
    the calls that are still to run folded. *)
Ltac run_pure := unfold ret; cbn [fst snd scaleVolumes fsys backend trace].

Section Provisioning_lemmas.
Context {B : Type} `{!Backend B} `{!Platform}.

(** [createScaleImage] writes no field of the record but [VolIscsiVid]. *)
Lemma createScaleImage_record (pOpts : scaleVolume) (volSzMb : Z) (w : World B) :
  ∃ vid, (createScaleImage pOpts volSzMb w).1.1 = set_VolIscsiVid vid pOpts.
Proof.
  assert (Hid : pOpts = set_VolIscsiVid (VolIscsiVid pOpts) pOpts) by by destruct pOpts.
  unfold createScaleImage.
  destruct (len (VolBackendFs pOpts) >? 0)%Z; [|destruct (VolIscsi pOpts)]; unfold bind.
  - destruct (extern _ w) as [[err|] w1]; [by eexists|].
    destruct (extern _ w1) as [[err|] w2]; by eexists.
  - destruct (extern _ w) as [[pbVol|err] w1]; [|by eexists].
    destruct (attach_to_nodes pbVol nodes w1) as [[err|] w2]; [by eexists|].
    destruct (extern _ w2) as [device w3].
    destruct (extern _ w3) as [[err|] w4]; [by eexists|].
    destruct (extern _ w4) as [[err|] w5]; by eexists.
  - destruct (extern _ w) as [[device|err] w1]; [|by eexists].
    destruct (extern _ w1) as [[err|] w2]; [by eexists|].
    destruct (extern _ w2) as [[err|] w3]; by eexists.
Qed.

(** The calls of a raw-device create that succeeds: pick a device,
    create the NSD over it, create the file system over the NSD. *)
Lemma createScaleImage_raw_device (pOpts pOpts' : scaleVolume) (volSzMb : Z)
    (w w' : World B) :
  VolBackendFs pOpts = "" → VolIscsi pOpts = false →
  createScaleImage pOpts volSzMb w = ((pOpts', None), w') →
  pOpts' = pOpts ∧
  ∃ device, trace w' = trace w ++ [PickNextRawDevice; CreateNSD (VolID pOpts) device;
                                   CreateFS (VolID pOpts) (VolID pOpts)].
Proof.
  intros Hfs Hiscsi. unfold createScaleImage.
  rewrite len_gtb_0, Hfs, bool_decide_eq_false_2 by (intros Hne; by apply Hne).
  rewrite Hiscsi. unfold bind. rewrite extern_eq.
  destruct (exec PickNextRawDevice (backend w)) as [[device|err] b1]; run_pure;
    [|discriminate].
  rewrite extern_eq; run_pure.
  destruct (exec (CreateNSD _ device) b1) as [[err|] b2]; run_pure; [discriminate|].
  rewrite extern_eq; run_pure.
  destruct (exec (CreateFS _ _) b2) as [[err|] b3]; run_pure; [discriminate|].
  intros [= <- <-]. split; [done|]. exists device. run_pure.
  by rewrite <- !app_assoc.
Qed.

(** Every create sequence opens with the call of the selected strategy:
    the strategy is decided by the path and the flag alone. *)
Lemma createScaleImage_opening_call (pOpts : scaleVolume) (volSzMb : Z) (w : World B) :
  ∃ calls, trace (createScaleImage pOpts volSzMb w).2 =
           trace w ++ opening_call pOpts volSzMb :: calls.
Proof.
  unfold createScaleImage, opening_call, select_strategy.
  rewrite len_gtb_0.
  destruct (decide (VolBackendFs pOpts ≠ "")).
  - rewrite bool_decide_eq_true_2 by done.
    apply bind_extern_opening. intros a. solve_frame.
  - rewrite bool_decide_eq_false_2 by done.
    destruct (VolIscsi pOpts); apply bind_extern_opening; intros a; solve_frame.
Qed.

(** The teardown of a record without a backing file-system path: delete
    the file system, then the NSD, then the iSCSI volume, stopping at the
    first call that fails. The flag [VolIscsi] is not consulted. *)
Lemma deleteScaleImage_non_fileset (pOpts : scaleVolume) (w : World B) :
  VolBackendFs pOpts = "" →
  let volId := VolID pOpts in
  let w' := (deleteScaleImage pOpts w).2 in
  trace w' = trace w ++ [DeleteFS volId] ∨
  trace w' = trace w ++ [DeleteFS volId; DeleteNSD volId] ∨
  trace w' = trace w ++ [DeleteFS volId; DeleteNSD volId;
                         IscsiDeleteVolume (VolIscsiVid pOpts)].
Proof.
  intros Hfs. cbv zeta. unfold deleteScaleImage.
  rewrite len_gtb_0, Hfs, bool_decide_eq_false_2 by (intros Hne; by apply Hne).
  unfold bind. rewrite extern_eq.
  destruct (exec (DeleteFS _) (backend w)) as [[err|] b1]; run_pure; [by left|].
  rewrite extern_eq; run_pure.
  destruct (exec (DeleteNSD _) b1) as [[err|] b2]; run_pure.
  { right; left. by rewrite <- app_assoc. }
  rewrite extern_eq; run_pure.
  destruct (exec (IscsiDeleteVolume (VolIscsiVid pOpts)) b2) as [err b3]; run_pure.
  right; right. by rewrite <- !app_assoc.
Qed.
End Provisioning_lemmas.

Section CreateVolume_properties.
Context {B : Type} `{!Backend B} `{!Platform} {D : Type} `{!Driver D}.

(** C5. For every CreateVolume call that reaches the provisioning step
    (the checks pass, the name is not found, an identifier is generated):
    if createScaleImage fails, the call answers INTERNAL and neither the
    file system of the metadata store nor the registry has changed; if
    it succeeds, persistVolInfo runs while the registry is still as it
    was, a failure of it answers INTERNAL with the registry unchanged,
    and only after its success is the record inserted into the registry:
    the final world is the world after persisting with the one registry
    entry added, and the metadata file holds the encoded record. *)
Theorem CreateVolume_provision_persist_insert (cs : ScaleControllerServer D)
    (req : CreateVolumeRequest) (w : World B) (notfound : error)
    (uniqueID : string) (w1 : World B)
    (v' : scaleVolume) (cerr : option error) (w2 : World B) :
  ValidateControllerServiceRequest (Driver_ cs) RPC_CREATE_DELETE_VOLUME = None →
  Name req ≠ "" →
  VolumeCapabilities req ≠ None →
  (getScaleVolumeByName (Name req) w).1 = inr notfound →
  extern NewUUID w = (uniqueID, w1) →
  let v := new_volume req uniqueID in
  createScaleImage v (VolSize v ÷ 1024 ÷ 1024) w1 = ((v', cerr), w2) →
  (∀ err, cerr = Some err →
     (∃ msg, CreateVolume cs req w = (inr (status_Error Internal msg), w2)) ∧
     fsys w2 = fsys w ∧ scaleVolumes w2 = scaleVolumes w) ∧
  (cerr = None → ∀ perr w3,
     persistVolInfo (VolID v) (path_Join [PluginFolder; "controller"]) v' w2 = (perr, w3) →
     scaleVolumes w3 = scaleVolumes w ∧
     (∀ err, perr = Some err →
        ∃ msg, CreateVolume cs req w = (inr (status_Error Internal msg), w3)) ∧
     (perr = None →
        CreateVolume cs req w =
        (inl (mkCreateVolumeResponse (mkVolume (VolID v) (VolSize v) (Parameters req))),
         with_volume (VolID v) v' w3) ∧
        ∃ data, json_Marshal v' = inl data ∧
                files (fsys w3) !! volInfo_file (VolID v) = Some (data +:+ String "010" ""))).
Proof.
  intros Hvalid Hname Hcaps Hfresh Huuid v Hcreate.
  pose proof (CreateVolume_fresh cs req w notfound Hvalid Hname Hcaps Hfresh) as Hrun.
  rewrite Huuid in Hrun. cbv zeta in Hrun. fold v in Hrun. rewrite Hcreate in Hrun.
  assert (Hframe : admin_only w w2).
  { eapply admin_only_trans.
    - pose proof (extern_admin_only NewUUID w) as Hu. rewrite Huuid in Hu. exact Hu.
    - pose proof (createScaleImage_admin_only v (VolSize v ÷ 1024 ÷ 1024) w1) as Hc.
      rewrite Hcreate in Hc. exact Hc. }
  destruct Hframe as (Hreg & Hfs & _).
  split.
  - intros err ->. split; [by eexists|done].
  - intros -> perr w3 Hpersist. rewrite Hpersist in Hrun.
    pose proof (persistVolInfo_frame (VolID v) (path_Join [PluginFolder; "controller"]) v' w2)
      as Hpf.
    cbv zeta in Hpf. rewrite Hpersist in Hpf. destruct Hpf as (Hreg3 & _ & _).
    cbn [snd] in Hreg3. split; [congruence|]. split.
    + intros err ->. by eexists.
    + intros ->. split; [done|].
      destruct (persistVolInfo_ok _ _ _ _ _ Hpersist) as (data & Hdata & Hfiles & _).
      exists data. split; [done|]. unfold volInfo_file. rewrite Hfiles.
      apply lookup_insert_eq.
Qed.

(** C8. For every CreateVolume request with a fresh name that creates a
    volume, the size of the volume (in the answer and in the record the
    registry holds under the answered identifier) is the required bytes
    of the capacity range when the request has one and 1073741824 when
    it has none; in particular the request named pvc-a without capacity
    range and without parameters gets size 1073741824 by the raw-device
    strategy: pick a raw device, create the NSD, create the file
    system. *)
Theorem CreateVolume_fresh_name_size (cs : ScaleControllerServer D)
    (req : CreateVolumeRequest) (w w' : World B) (resp : CreateVolumeResponse) :
  range_order (scaleVolumes w) ≡ₚ map_to_list (scaleVolumes w) →
  fresh_name (Name req) (scaleVolumes w) →
  CreateVolume cs req w = (inl resp, w') →
  let size := CapacityBytes (Volume_ resp) in
  let volumeID := VolumeId (Volume_ resp) in
  (∀ r, CapacityRange_ req = Some r → size = RequiredBytes r) ∧
  (CapacityRange_ req = None → size = 1073741824) ∧
  (∃ v, scaleVolumes w' !! volumeID = Some v ∧ VolName v = Name req ∧
        VolSize v = size) ∧
  (Name req = "pvc-a" → CapacityRange_ req = None → Parameters req = ∅ →
     size = 1073741824 ∧
     ∃ v device,
       scaleVolumes w' !! volumeID = Some v ∧
       select_strategy (VolBackendFs v) (VolIscsi v) = RawDevice ∧
       trace w' = trace w ++ [NewUUID; PickNextRawDevice; CreateNSD volumeID device;
                              CreateFS volumeID volumeID;
                              OsCreate (volInfo_file volumeID)]).
Proof.
  intros Horder Hfresh Hrun.
  (* a call that answers a volume has passed the checks *)
  assert (Hvalid : ValidateControllerServiceRequest (Driver_ cs)
                     RPC_CREATE_DELETE_VOLUME = None).
  { unfold CreateVolume in Hrun.
    by destruct (ValidateControllerServiceRequest _ _). }
  assert (Hname : Name req ≠ "").
  { intros He. destruct (CreateVolume_noname cs req w He) as [st Hst]. congruence. }
  assert (Hcaps : VolumeCapabilities req ≠ None).
  { intros He.
    destruct (CreateVolume_incomplete cs req w Hvalid (or_intror He))
      as [msg Hst]. congruence. }
  destruct (first_named_fresh (Name req) (range_order (scaleVolumes w))) as [nf Hnf].
  { intros id r Hin. rewrite Horder in Hin.
    apply elem_of_map_to_list in Hin. by apply (Hfresh id r). }
  rewrite (CreateVolume_fresh cs req w nf Hvalid Hname Hcaps Hnf) in Hrun.
  rewrite extern_eq in Hrun. cbv zeta in Hrun.
  set (uniqueID := (exec NewUUID (backend w)).1) in Hrun.
  set (w1 := mkWorld _ _ _ _) in Hrun.
  set (v := new_volume req uniqueID) in Hrun.
  assert (Hsize : VolSize v = match CapacityRange_ req with
                              | Some r => RequiredBytes r
                              | None => 1073741824
                              end) by reflexivity.
  assert (Hvname : VolName v = Name req) by reflexivity.
  assert (Hvfs : VolBackendFs v = index (Parameters req) "volBackendFs") by reflexivity.
  assert (Hviscsi : VolIscsi v = (strconv_ParseBool (index (Parameters req) "volIscsi")).1)
    by reflexivity.
  assert (Hvid : VolID v = if decide (index (Parameters req) "volBackendFs" = "")
                           then uniqueID else uniqueID +:+ "-fileset") by reflexivity.
  clearbody v.
  destruct (createScaleImage v _ w1) as [[v' [err|]] w2] eqn:Hcreate; [discriminate|].
  destruct (persistVolInfo _ _ v' w2) as [[err|] w3] eqn:Hpersist; [discriminate|].
  injection Hrun as <- <-. cbv zeta. cbn [Volume_ CapacityBytes VolumeId].
  destruct (createScaleImage_record v (VolSize v ÷ 1024 ÷ 1024) w1) as [vid Hv'].
  rewrite Hcreate in Hv'. cbn [fst] in Hv'.
  split; [|split; [|split]].
  - intros r Hr. by rewrite Hsize, Hr.
  - intros Hr. by rewrite Hsize, Hr.
  - exists v'. unfold with_volume. cbn [scaleVolumes]. rewrite lookup_insert_eq.
    by subst v'.
  - intros _ Hr Hparams. split; [by rewrite Hsize, Hr|].
    rewrite Hparams in Hvfs, Hviscsi, Hvid. cbn in Hvfs, Hviscsi, Hvid.
    destruct (createScaleImage_raw_device _ _ _ _ _ Hvfs Hviscsi Hcreate)
      as (-> & device & Htrace).
    exists v, device. split.
    { unfold with_volume. cbn [scaleVolumes]. apply lookup_insert_eq. }
    split.
    { by rewrite Hvfs, Hviscsi. }
    pose proof (persistVolInfo_frame (VolID v) (path_Join [PluginFolder; "controller"]) v w2)
      as Hpf.
    cbv zeta in Hpf. rewrite Hpersist in Hpf. destruct Hpf as (_ & _ & Ht3).
    cbn [snd] in Ht3. unfold with_volume. cbn [trace].
    rewrite Ht3, Htrace. subst w1. cbn [trace].
    unfold volInfo_file. by rewrite <- !app_assoc.
Qed.
End CreateVolume_properties.

Section DeleteVolume_properties.
Context {B : Type} `{!Backend B} `{!Platform} {D : Type} `{!Driver D}.

(** [DeleteVolume] for a request the driver validates and whose record
    loads: tear down, delete the metadata file, delete the registry
    entry. *)
Lemma DeleteVolume_loaded (cs : ScaleControllerServer D) (req : DeleteVolumeRequest)
    (w w1 : World B) (v : scaleVolume) :
  ValidateControllerServiceRequest (Driver_ cs) RPC_CREATE_DELETE_VOLUME = None →
  loadVolInfo (GetVolumeId req) (path_Join [PluginFolder; "controller"])
              zero_scaleVolume w = ((v, None), w1) →
  DeleteVolume cs req w =
  let (derr, w2) := deleteScaleImage v w1 in
  match derr with
  | Some err =>
      (inr (status_Error Internal
              ("failed to delete scale image: " +:+ VolName v +:+ " with error: "
               +:+ Error err)), w2)
  | None =>
      let (verr, w3) :=
        deleteVolInfo (GetVolumeId req) (path_Join [PluginFolder; "controller"]) w2 in
      match verr with
      | Some err =>
          (inr (status_Error Internal
                  ("failed to delete volInfo with error: " +:+ Error err)), w3)
      | None => (inl mkDeleteVolumeResponse, without_volume (GetVolumeId req) w3)
      end
  end.
Proof.
  intros Hvalid Hload. unfold DeleteVolume. rewrite Hvalid.
  unfold bind at 1. rewrite Hload. unfold bind at 1.
  destruct (deleteScaleImage v w1) as [[err|] w2]; [reflexivity|].
  unfold bind at 1.
  destruct (deleteVolInfo _ _ w2) as [[err|] w3]; reflexivity.
Qed.

(** What follows the loading of the record in [DeleteVolume], step by
    step. *)
Lemma DeleteVolume_teardown_and_removal (cs : ScaleControllerServer D)
    (req : DeleteVolumeRequest) (w w1 : World B) (v : scaleVolume)
    (derr : option error) (w2 : World B) :
  ValidateControllerServiceRequest (Driver_ cs) RPC_CREATE_DELETE_VOLUME = None →
  loadVolInfo (GetVolumeId req) (path_Join [PluginFolder; "controller"])
              zero_scaleVolume w = ((v, None), w1) →
  deleteScaleImage v w1 = (derr, w2) →
  (∀ err, derr = Some err →
     (∃ msg, DeleteVolume cs req w = (inr (status_Error Internal msg), w2)) ∧
     fsys w2 = fsys w ∧ scaleVolumes w2 = scaleVolumes w) ∧
  (derr = None → ∀ verr w3,
     deleteVolInfo (GetVolumeId req) (path_Join [PluginFolder; "controller"]) w2
       = (verr, w3) →
     scaleVolumes w3 = scaleVolumes w ∧
     (∀ err, verr = Some err →
        (∃ msg, DeleteVolume cs req w = (inr (status_Error Internal msg), w3)) ∧
        fsys w3 = fsys w) ∧
     (verr = None →
        DeleteVolume cs req w =
          (inl mkDeleteVolumeResponse, without_volume (GetVolumeId req) w3) ∧
        files (fsys w3) = delete (volInfo_file (GetVolumeId req)) (files (fsys w)) ∧
        scaleVolumes (without_volume (GetVolumeId req) w3) =
          delete (GetVolumeId req) (scaleVolumes w))).
Proof.
  intros Hvalid Hload Hdel.
  pose proof (DeleteVolume_loaded cs req w w1 v Hvalid Hload) as Hrun.
  rewrite Hdel in Hrun.
  assert (Hw1 : w1 = record_call (OsOpen (volInfo_file (GetVolumeId req))) w).
  { rewrite loadVolInfo_eq in Hload. cbv zeta in Hload. by injection Hload. }
  pose proof (deleteScaleImage_admin_only v w1) as Hframe.
  rewrite Hdel in Hframe. destruct Hframe as (Hreg & Hfs & _).
  cbn [snd] in Hreg, Hfs. rewrite Hw1 in Hreg, Hfs. cbn in Hreg, Hfs.
  split.
  - intros err ->. split; [by eexists|done].
  - intros -> verr w3 Hrm. rewrite Hrm in Hrun.
    pose proof (deleteVolInfo_frame (GetVolumeId req)
                  (path_Join [PluginFolder; "controller"]) w2) as Hvf.
    pose proof (deleteVolInfo_files (GetVolumeId req)
                  (path_Join [PluginFolder; "controller"]) w2) as Hvfiles.
    cbv zeta in Hvf, Hvfiles. rewrite Hrm in Hvf, Hvfiles.
    destruct Hvf as (Hreg3 & _ & _). cbn [snd] in Hreg3.
    split; [congruence|]. split.
    + intros err ->. split; [by eexists|congruence].
    + intros ->. split; [done|]. destruct Hvfiles as (Hfiles & _). split.
      * unfold volInfo_file. by rewrite Hfiles, Hfs.
      * unfold without_volume. cbn [scaleVolumes]. congruence.
Qed.

(** C6. For every DeleteVolume call that reaches the teardown (the
    driver validates the request and the record loads): if
    deleteScaleImage fails, the call answers INTERNAL and the file system
    of the metadata store and the registry are as they were; if it
    succeeds, deleteVolInfo runs while the registry is still as it was, a
    failure of it answers INTERNAL with files and registry unchanged, and
    only after its success is the identifier deleted from the registry:
    the final world is the world after removing the file with the one
    registry entry deleted. *)
Theorem DeleteVolume_teardown_remove_evict (cs : ScaleControllerServer D)
    (req : DeleteVolumeRequest) (w w1 : World B) (v : scaleVolume)
    (derr : option error) (w2 : World B) :
  ValidateControllerServiceRequest (Driver_ cs) RPC_CREATE_DELETE_VOLUME = None →
  loadVolInfo (GetVolumeId req) (path_Join [PluginFolder; "controller"])
              zero_scaleVolume w = ((v, None), w1) →
  deleteScaleImage v w1 = (derr, w2) →
  (∀ err, derr = Some err →
     (∃ msg, DeleteVolume cs req w = (inr (status_Error Internal msg), w2)) ∧
     fsys w2 = fsys w ∧ scaleVolumes w2 = scaleVolumes w) ∧
  (derr = None → ∀ verr w3,
     deleteVolInfo (GetVolumeId req) (path_Join [PluginFolder; "controller"]) w2
       = (verr, w3) →
     scaleVolumes w3 = scaleVolumes w ∧
     (∀ err, verr = Some err →
        (∃ msg, DeleteVolume cs req w = (inr (status_Error Internal msg), w3)) ∧
        fsys w3 = fsys w) ∧
     (verr = None →
        DeleteVolume cs req w =
          (inl mkDeleteVolumeResponse, without_volume (GetVolumeId req) w3) ∧
        files (fsys w3) = delete (volInfo_file (GetVolumeId req)) (files (fsys w)) ∧
        scaleVolumes (without_volume (GetVolumeId req) w3) =
          delete (GetVolumeId req) (scaleVolumes w))).
Proof.
  intros Hvalid Hload Hdel.
  pose proof (DeleteVolume_loaded cs req w w1 v Hvalid Hload) as Hrun.
  rewrite Hdel in Hrun.
  assert (Hw1 : w1 = record_call (OsOpen (volInfo_file (GetVolumeId req))) w).
  { rewrite loadVolInfo_eq in Hload. cbv zeta in Hload. by injection Hload. }
  pose proof (deleteScaleImage_admin_only v w1) as Hframe.
  rewrite Hdel in Hframe. destruct Hframe as (Hreg & Hfs & _).
  cbn [snd] in Hreg, Hfs. rewrite Hw1 in Hreg, Hfs. cbn in Hreg, Hfs.
  split.
  - intros err ->. split; [by eexists|done].
  - intros -> verr w3 Hrm. rewrite Hrm in Hrun.
    pose proof (deleteVolInfo_frame (GetVolumeId req)
                  (path_Join [PluginFolder; "controller"]) w2) as Hvf.
    pose proof (deleteVolInfo_files (GetVolumeId req)
                  (path_Join [PluginFolder; "controller"]) w2) as Hvfiles.
    cbv zeta in Hvf, Hvfiles. rewrite Hrm in Hvf, Hvfiles.
    destruct Hvf as (Hreg3 & _ & _). cbn [snd] in Hreg3.
    split; [congruence|]. split.
    + intros err ->. split; [by eexists|congruence].
    + intros ->. split; [done|]. destruct Hvfiles as (Hfiles & _). split.
      * unfold volInfo_file. by rewrite Hfiles, Hfs.
      * unfold without_volume. cbn [scaleVolumes]. congruence.
Qed.
End DeleteVolume_properties.

Section Utf8_facts.
Import utf8.
Local Arguments String.append !_ _ / : simpl nomatch.
Local Open Scope Z_scope.

Lemma byte_range (c : ascii) : 0 ≤ byte c < 256.
Proof.
  unfold byte. pose proof (N_ascii_bounded c). lia.
Qed.

Lemma chr_byte (c : ascii) : chr (byte c) = c.
Proof.
  unfold chr, byte. pose proof (N_ascii_bounded c).
  rewrite Z.mod_small by lia. by rewrite N2Z.id, ascii_N_embedding.
Qed.

Lemma string_take_drop (n : nat) (s : string) : take n s +:+ drop n s = s.
Proof.
  revert s. induction n as [|n IH]; intros [|c s]; cbn [take drop String.append]; try done.
  by rewrite IH.
Qed.

Lemma string_drop_take_app (n : nat) (s t : string) :
  (n ≤ String.length s)%nat → drop n (take n s +:+ t) = t.
Proof.
  revert s. induction n as [|n IH]; intros [|c s] Hn; cbn in *; try done; try lia.
  apply IH. lia.
Qed.

Lemma string_length_drop (n : nat) (s : string) :
  String.length (drop n s) = (String.length s - n)%nat.
Proof.
  revert s. induction n as [|n IH]; intros [|c s]; cbn [drop String.length]; try lia.
  apply IH.
Qed.

Lemma DecodeRune_take4 (s : string) :
  DecodeRuneInString (take 4 s) = DecodeRuneInString s.
Proof. by destruct s as [|c0 [|c1 [|c2 [|c3 s]]]]. Qed.

Lemma first_cases (b : Z) :
  (b < 0x80 ∧ first b = as_) ∨
  ((0x80 ≤ b < 0xC2 ∨ 0xF4 < b) ∧ first b = xx) ∨
  (0xC2 ≤ b < 0xE0 ∧ first b = s1) ∨
  (b = 0xE0 ∧ first b = s2) ∨
  ((0xE0 < b < 0xED ∨ 0xED < b < 0xF0) ∧ first b = s3) ∨
  (b = 0xED ∧ first b = s4) ∨
  (b = 0xF0 ∧ first b = s5) ∨
  (0xF0 < b < 0xF4 ∧ first b = s6) ∨
  (b = 0xF4 ∧ first b = s7).
Proof.
  unfold first.
  repeat match goal with
         | |- context [if Z.ltb ?x ?y then _ else _] => destruct (Z.ltb_spec x y)
         | |- context [if Z.eqb ?x ?y then _ else _] => destruct (Z.eqb_spec x y)
         end; lia.
Qed.

(** Bits set in disjoint places add up. *)
Lemma lor_add (c b k : Z) :
  0 ≤ k → 0 ≤ b < 2 ^ k → c mod 2 ^ k = 0 → Z.lor c b = c + b.
Proof.
  intros Hk Hb Hc.
  symmetry. apply Z.add_nocarry_lor, Z.bits_inj'. intros n Hn.
  rewrite Z.land_spec, Z.bits_0.
  destruct (Z.lt_ge_cases n k).
  - rewrite (Z.div_mod c (2 ^ k)) by lia. rewrite Hc, Z.add_0_r, Z.mul_comm.
    by rewrite Z.mul_pow2_bits_low.
  - rewrite <- (Z.mod_small b (2 ^ k)) by done.
    rewrite Z.mod_pow2_bits_high by lia. apply andb_false_r.
Qed.

Lemma land_mask (b k : Z) : 0 ≤ k → Z.land b (2 ^ k - 1) = b mod 2 ^ k.
Proof. intros Hk. rewrite Z.sub_1_r, <- Z.ones_equiv. by apply Z.land_ones. Qed.

Lemma chr_mod (b : Z) : chr (b mod 256) = chr b.
Proof. unfold chr. by rewrite Z.mod_mod. Qed.

Ltac bits_to_arith :=
  change mask4 with (2 ^ 3 - 1); change mask3 with (2 ^ 4 - 1);
  change mask2 with (2 ^ 5 - 1); change maskx with (2 ^ 6 - 1);
  rewrite ?land_mask, ?Z.shiftl_mul_pow2, ?Z.shiftr_div_pow2 by lia.

Lemma EncodeRune_4 (b0 b1 b2 b3 : Z) :
  0xF0 ≤ b0 ≤ 0xF4 → 0x80 ≤ b1 ≤ 0xBF → 0x80 ≤ b2 ≤ 0xBF → 0x80 ≤ b3 ≤ 0xBF →
  (b0 = 0xF0 → 0x90 ≤ b1) → (b0 = 0xF4 → b1 ≤ 0x8F) →
  EncodeRune (Z.lor (Z.lor (Z.lor (Z.shiftl (Z.land b0 mask4) 18)
                                  (Z.shiftl (Z.land b1 maskx) 12))
                           (Z.shiftl (Z.land b2 maskx) 6))
                    (Z.land b3 maskx)) =
  String (chr b0) (String (chr b1) (String (chr b2) (String (chr b3) ""))).
Proof.
  intros H0 H1 H2 H3 HF0 HF4.
  bits_to_arith.
  change (2 ^ 18) with 262144; change (2 ^ 12) with 4096; change (2 ^ 6) with 64;
    change (2 ^ 3) with 8.
  pose proof (Z.mod_pos_bound b0 8 eq_refl) as Hx0.
  pose proof (Z.mod_pos_bound b1 64 eq_refl) as Hx1.
  pose proof (Z.mod_pos_bound b2 64 eq_refl) as Hx2.
  pose proof (Z.mod_pos_bound b3 64 eq_refl) as Hx3.
  assert (b0 mod 8 = b0 - 0xF0) as E0 by (Z.div_mod_to_equations; lia).
  assert (b1 mod 64 = b1 - 0x80) as E1 by (Z.div_mod_to_equations; lia).
  assert (b2 mod 64 = b2 - 0x80) as E2 by (Z.div_mod_to_equations; lia).
  assert (b3 mod 64 = b3 - 0x80) as E3 by (Z.div_mod_to_equations; lia).
  rewrite E0, E1, E2, E3.
  rewrite (lor_add ((b0 - 240) * 262144) ((b1 - 128) * 4096) 18)
    by (change (2 ^ 18) with 262144; try (Z.div_mod_to_equations; lia)).
  rewrite (lor_add _ ((b2 - 128) * 64) 12)
    by (change (2 ^ 12) with 4096; try (Z.div_mod_to_equations; lia)).
  rewrite (lor_add _ (b3 - 128) 6)
    by (change (2 ^ 6) with 64; try (Z.div_mod_to_equations; lia)).
  set (r := _ + (b3 - 128)).
  assert (Hr : r = (b0 - 240) * 262144 + (b1 - 128) * 4096 + (b2 - 128) * 64 + (b3 - 128))
    by done.
  clearbody r.
  unfold EncodeRune, MaxRune, surrogateMin, surrogateMax.
  rewrite (proj2 (Z.leb_gt r 0x7F)), (proj2 (Z.leb_gt r 0x7FF)) by lia.
  rewrite (proj2 (Z.ltb_ge 0x10FFFF r)) by lia.
  rewrite (proj2 (Z.leb_gt r 0xDFFF)), andb_false_r by lia. cbn [orb].
  rewrite (proj2 (Z.leb_gt r 0xFFFF)) by lia.
  bits_to_arith.
  change (2 ^ 18) with 262144; change (2 ^ 12) with 4096; change (2 ^ 6) with 64.
  rewrite (lor_add 0xF0 (r / 262144) 4), !(lor_add 0x80 _ 6)
    by (change (2 ^ 4) with 16; change (2 ^ 6) with 64; try (Z.div_mod_to_equations; lia)).
  repeat f_equal; Z.div_mod_to_equations; lia.
Qed.

Lemma EncodeRune_3 (b0 b1 b2 : Z) :
  0xE0 ≤ b0 < 0xF0 → 0x80 ≤ b1 ≤ 0xBF → 0x80 ≤ b2 ≤ 0xBF →
  (b0 = 0xE0 → 0xA0 ≤ b1) → (b0 = 0xED → b1 ≤ 0x9F) →
  EncodeRune (Z.lor (Z.lor (Z.shiftl (Z.land b0 mask3) 12) (Z.shiftl (Z.land b1 maskx) 6))
                    (Z.land b2 maskx)) =
  String (chr b0) (String (chr b1) (String (chr b2) "")).
Proof.
  intros H0 H1 H2 HE0 HED.
  bits_to_arith.
  change (2 ^ 12) with 4096; change (2 ^ 6) with 64; change (2 ^ 4) with 16.
  assert (b0 mod 16 = b0 - 0xE0) as E0 by (Z.div_mod_to_equations; lia).
  assert (b1 mod 64 = b1 - 0x80) as E1 by (Z.div_mod_to_equations; lia).
  assert (b2 mod 64 = b2 - 0x80) as E2 by (Z.div_mod_to_equations; lia).
  rewrite E0, E1, E2.
  rewrite (lor_add ((b0 - 224) * 4096) ((b1 - 128) * 64) 12)
    by (change (2 ^ 12) with 4096; try (Z.div_mod_to_equations; lia)).
  rewrite (lor_add _ (b2 - 128) 6)
    by (change (2 ^ 6) with 64; try (Z.div_mod_to_equations; lia)).
  set (r := _ + (b2 - 128)).
  assert (Hr : r = (b0 - 224) * 4096 + (b1 - 128) * 64 + (b2 - 128)) by done.
  clearbody r.
  unfold EncodeRune, MaxRune, surrogateMin, surrogateMax.
  rewrite (proj2 (Z.leb_gt r 0x7F)), (proj2 (Z.leb_gt r 0x7FF)) by lia.
  rewrite (proj2 (Z.ltb_ge 0x10FFFF r)) by lia.
  assert (((0xD800 <=? r) && (r <=? 0xDFFF)) = false) as ->.
  { apply andb_false_iff.
    destruct (Z.le_gt_cases b0 0xED) as [Hle|Hgt];
      [left; apply Z.leb_gt|right; apply Z.leb_gt]; lia. }
  cbn [orb].
  rewrite (proj2 (Z.leb_le r 0xFFFF)) by lia.
  bits_to_arith.
  change (2 ^ 12) with 4096; change (2 ^ 6) with 64.
  rewrite (lor_add 0xE0 (r / 4096) 5), !(lor_add 0x80 _ 6)
    by (change (2 ^ 5) with 32; change (2 ^ 6) with 64; try (Z.div_mod_to_equations; lia)).
  repeat f_equal; Z.div_mod_to_equations; lia.
Qed.

Lemma EncodeRune_2 (b0 b1 : Z) :
  0xC2 ≤ b0 < 0xE0 → 0x80 ≤ b1 ≤ 0xBF →
  EncodeRune (Z.lor (Z.shiftl (Z.land b0 mask2) 6) (Z.land b1 maskx)) =
  String (chr b0) (String (chr b1) "").
Proof.
  intros H0 H1.
  bits_to_arith.
  change (2 ^ 6) with 64; change (2 ^ 5) with 32.
  assert (b0 mod 32 = b0 - 0xC0) as E0 by (Z.div_mod_to_equations; lia).
  assert (b1 mod 64 = b1 - 0x80) as E1 by (Z.div_mod_to_equations; lia).
  rewrite E0, E1.
  rewrite (lor_add ((b0 - 192) * 64) (b1 - 128) 6)
    by (change (2 ^ 6) with 64; try (Z.div_mod_to_equations; lia)).
  set (r := _ + (b1 - 128)).
  assert (Hr : r = (b0 - 192) * 64 + (b1 - 128)) by done.
  clearbody r.
  unfold EncodeRune.
  rewrite (proj2 (Z.leb_gt r 0x7F)), (proj2 (Z.leb_le r 0x7FF)) by lia.
  bits_to_arith.
  change (2 ^ 6) with 64.
  rewrite (lor_add 0xC0 (r / 64) 6), !(lor_add 0x80 _ 6)
    by (change (2 ^ 6) with 64; try (Z.div_mod_to_equations; lia)).
  repeat f_equal; Z.div_mod_to_equations; lia.
Qed.

Ltac eval_first :=
  match goal with
  | |- context [acceptRanges (Z.shiftr ?x 4)] =>
      let a := eval vm_compute in (acceptRanges (Z.shiftr x 4)) in
      change (acceptRanges (Z.shiftr x 4)) with a;
      let z := eval vm_compute in (Z.land x 7) in
      change (Z.land x 7) with z
  end;
  cbn [fst snd];
  try change (2 <=? 2) with true; try change (2 <=? 3) with true;
  try change (3 <=? 2) with false; try change (3 <=? 3) with true;
  try change (4 <=? 2) with false; try change (4 <=? 3) with false;
  cbv iota.

Ltac decode_prefix Hf :=
  intros ?; unfold DecodeRuneInString; rewrite Hf;
  change (as_ <=? _) with false; cbv iota; eval_first;
  repeat (rewrite (proj2 (Z.ltb_ge _ _)) by (unfold locb, hicb; lia); cbn [orb]; cbv iota);
  reflexivity.

(** A string begins with an encoding that is not valid, or with one of
    the four forms of a rune, which the bytes after it do not change. *)
Lemma DecodeRune_cases (c0 : ascii) (t0 : string) :
  DecodeRuneInString (String c0 t0) = (RuneError, 1%nat) ∨
  (byte c0 < 0x80 ∧ ∀ t, DecodeRuneInString (String c0 t) = (byte c0, 1%nat)) ∨
  (∃ c1 t1 r, t0 = String c1 t1 ∧
     EncodeRune r = String c0 (String c1 "") ∧
     ∀ t, DecodeRuneInString (String c0 (String c1 t)) = (r, 2%nat)) ∨
  (∃ c1 c2 t2 r, t0 = String c1 (String c2 t2) ∧
     EncodeRune r = String c0 (String c1 (String c2 "")) ∧
     ∀ t, DecodeRuneInString (String c0 (String c1 (String c2 t))) = (r, 3%nat)) ∨
  (∃ c1 c2 c3 t3 r, t0 = String c1 (String c2 (String c3 t3)) ∧
     EncodeRune r = String c0 (String c1 (String c2 (String c3 ""))) ∧
     ∀ t, DecodeRuneInString (String c0 (String c1 (String c2 (String c3 t)))) = (r, 4%nat)).
Proof.
  pose proof (byte_range c0) as H0.
  destruct (first_cases (byte c0))
    as [[Hb Hf]|[[Hb Hf]|[[Hb Hf]|[[Hb Hf]|[[Hb Hf]|[[Hb Hf]|[[Hb Hf]|[[Hb Hf]|[Hb Hf]]]]]]]]].
  { right; left. split; [done|]. intros t. unfold DecodeRuneInString. by rewrite Hf. }
  { left. unfold DecodeRuneInString. by rewrite Hf. }
  all: destruct t0 as [|c1 t1]; [left; unfold DecodeRuneInString; by rewrite Hf|].
  all: pose proof (byte_range c1) as H1.
  all: unfold DecodeRuneInString at 1; rewrite Hf;
       change (as_ <=? _) with false; cbv iota; eval_first.
  all: match goal with
       | |- context [Z.ltb ?x ?y || _] => destruct (Z.ltb_spec x y) as [?|Hlo]
       end; cbn [orb]; [by left|].
  all: match goal with
       | |- context [if Z.ltb ?y ?x then _ else _] => destruct (Z.ltb_spec y x) as [?|Hhi]
       end; [by left|].
  { right; right; left. exists c1, t1. eexists. split; [done|]. split; cycle 1.
    - decode_prefix Hf.
    - etrans; [apply EncodeRune_2; lia|]. by rewrite !chr_byte. }
  all: destruct t1 as [|c2 t2]; [by left|].
  all: pose proof (byte_range c2) as H2.
  all: match goal with
       | |- context [Z.ltb ?x ?y || _] => destruct (Z.ltb_spec x y) as [?|Hlo2]
       end; cbn [orb]; [by left|].
  all: match goal with
       | |- context [if Z.ltb ?y ?x then _ else _] => destruct (Z.ltb_spec y x) as [?|Hhi2]
       end; [by left|].
  all: unfold locb, hicb in *.
  1-3: right; right; right; left; exists c1, c2, t2; eexists; split; [done|];
       (split; cycle 1); [decode_prefix Hf|];
       (etrans; [apply EncodeRune_3; lia|]); by rewrite !chr_byte.
  all: destruct t2 as [|c3 t3]; [by left|].
  all: pose proof (byte_range c3) as H3.
  all: match goal with
       | |- context [Z.ltb ?x ?y || _] => destruct (Z.ltb_spec x y) as [?|Hlo3]
       end; cbn [orb]; [by left|].
  all: match goal with
       | |- context [if Z.ltb ?y ?x then _ else _] => destruct (Z.ltb_spec y x) as [?|Hhi3]
       end; [by left|].
  all: right; right; right; right; exists c1, c2, c3, t3; eexists; split; [done|];
       (split; cycle 1); [decode_prefix Hf|];
       (etrans; [apply EncodeRune_4; lia|]); by rewrite !chr_byte.
Qed.

(** A string that begins with a valid encoding: the rune encodes to the
    bytes it was read from, and is read from them whatever follows. *)
Lemma DecodeRune_valid (s : string) :
  s ≠ "" → invalid_rune s = false →
  ∃ r n, DecodeRuneInString s = (r, n) ∧ (1 ≤ n ≤ String.length s)%nat ∧
         EncodeRune r = take n s ∧
         ∀ t, DecodeRuneInString (take n s +:+ t) = (r, n).
Proof.
  destruct s as [|c0 t0]; [done|]. intros _ Hvalid. unfold invalid_rune in Hvalid.
  destruct (DecodeRune_cases c0 t0)
    as [Hd|[[Hb Hd]|[(c1 & t1 & r & -> & Henc & Hd)|[(c1 & c2 & t2 & r & -> & Henc & Hd)|
        (c1 & c2 & c3 & t3 & r & -> & Henc & Hd)]]]].
  - rewrite Hd in Hvalid. discriminate.
  - exists (byte c0), 1%nat. split; [apply Hd|]. split; [cbn; lia|]. split; [|apply Hd].
    unfold EncodeRune. rewrite (proj2 (Z.leb_le (byte c0) 0x7F)) by lia.
    cbn [take]. by rewrite chr_byte.
  - exists r, 2%nat. split; [apply Hd|]. split; [cbn; lia|]. split; [done|apply Hd].
  - exists r, 3%nat. split; [apply Hd|]. split; [cbn; lia|]. split; [done|apply Hd].
  - exists r, 4%nat. split; [apply Hd|]. split; [cbn; lia|]. split; [done|apply Hd].
Qed.
End Utf8_facts.

Section Json_strings.
Import utf8 json.
Local Arguments String.append !_ _ / : simpl nomatch.
Local Open Scope Z_scope.

Lemma string_app_assoc (a b c : string) : (a +:+ b) +:+ c = a +:+ b +:+ c.
Proof. induction a as [|d a IH]; cbn [String.append]; [done|by rewrite IH]. Qed.

Lemma length_string_app (a b : string) :
  String.length (a +:+ b) = (String.length a + String.length b)%nat.
Proof. induction a as [|d a IH]; cbn [String.append String.length]; [done|by rewrite IH]. Qed.

(** A round of the encoder on an ASCII byte, read back. *)
Lemma escape_unquote_ascii (c : ascii) (s' : string) :
  byte c < 0x80 →
  (escape_step (String c s')).2 = 1%nat ∧
  (∃ d out', (escape_step (String c s')).1 = String d out' ∧ d ≠ quote) ∧
  ∀ t, unquote_step ((escape_step (String c s')).1 +:+ t) = inl (String c "", t).
Proof.
  intros Hc.
  destruct c as [[] [] [] [] [] [] [] []]; try (vm_compute in Hc; discriminate).
  all: split; [vm_compute; reflexivity|].
  all: split; [eexists _, _; split; [vm_compute; reflexivity|discriminate]|].
  all: intros t; vm_compute; reflexivity.
Qed.

(** A round of the encoder at a valid encoding, read back by a round of
    the decoder: the bytes the encoder passed over, and as rest what
    followed the encoder's output. *)
Lemma escape_unquote_step (s : string) :
  s ≠ "" → invalid_rune s = false →
  (escape_step s).2 = (DecodeRuneInString s).2 ∧
  (1 ≤ (escape_step s).2 ≤ String.length s)%nat ∧
  (∃ d out', (escape_step s).1 = String d out' ∧ d ≠ quote) ∧
  ∀ t, unquote_step ((escape_step s).1 +:+ t) = inl (take (escape_step s).2 s, t).
Proof.
  intros Hne Hvalid. destruct s as [|c s']; [done|].
  destruct (Z.ltb_spec (byte c) RuneSelf) as [Hascii|Hhigh].
  { destruct (escape_unquote_ascii c s' Hascii) as (-> & Hout & Hread).
    split.
    { destruct (DecodeRune_cases c s') as [Hd|[[_ Hd]|[Hd|[Hd|Hd]]]].
      - unfold invalid_rune in Hvalid. rewrite Hd in Hvalid. discriminate.
      - by rewrite Hd.
      - exfalso. destruct Hd as (c1 & t1 & r & -> & _ & Hd). specialize (Hd t1).
        unfold DecodeRuneInString, first in Hd.
        rewrite (proj2 (Z.ltb_lt (byte c) 0x80)) in Hd by done. discriminate.
      - exfalso. destruct Hd as (c1 & c2 & t1 & r & -> & _ & Hd). specialize (Hd t1).
        unfold DecodeRuneInString, first in Hd.
        rewrite (proj2 (Z.ltb_lt (byte c) 0x80)) in Hd by done. discriminate.
      - exfalso. destruct Hd as (c1 & c2 & c3 & t1 & r & -> & _ & Hd). specialize (Hd t1).
        unfold DecodeRuneInString, first in Hd.
        rewrite (proj2 (Z.ltb_lt (byte c) 0x80)) in Hd by done. discriminate. }
    split; [cbn; lia|]. split; [done|]. intros t. by rewrite Hread. }
  destruct (DecodeRune_valid _ Hne Hvalid) as (r & n & Hd & Hn & Henc & Hpre).
  unfold invalid_rune in Hvalid. rewrite Hd in Hvalid.
  unfold RuneSelf in Hhigh.
  assert (Hstep : escape_step (String c s') =
                  if (r =? 0x2028) || (r =? 0x2029)
                  then ("\u202" +:+ String (hex (Z.land r 0xF)) "", n)
                  else (take n (String c s'), n)).
  { unfold escape_step. rewrite (proj2 (Z.ltb_ge (byte c) RuneSelf)) by done.
    by rewrite DecodeRune_take4, Hd, Hvalid. }
  rewrite Hstep.
  destruct (Z.eqb_spec r 0x2028) as [->|Hr1]; [|destruct (Z.eqb_spec r 0x2029) as [->|Hr2]];
    cbn [orb fst snd].
  - split; [by rewrite Hd|]. split; [done|]. split; [by eexists _, _|].
    intros t. rewrite <- Henc. vm_compute. reflexivity.
  - split; [by rewrite Hd|]. split; [done|]. split; [by eexists _, _|].
    intros t. rewrite <- Henc. vm_compute. reflexivity.
  - split; [by rewrite Hd|]. split; [done|].
    destruct n as [|n]; [lia|]. cbn [take String.append].
    split.
    { eexists _, _. split; [done|]. intros ->. vm_compute in Hhigh. by apply Hhigh. }
    intros t. unfold unquote_step.
    rewrite (proj2 (Z.eqb_neq (byte c) 0x5C)) by lia.
    rewrite (proj2 (Z.ltb_ge (byte c) 0x20)) by lia.
    rewrite (proj2 (Z.ltb_ge (byte c) RuneSelf)) by (unfold RuneSelf; lia).
    change (String c (take n s' +:+ t)) with (take (S n) (String c s') +:+ t).
    rewrite Hpre, Henc. by rewrite string_drop_take_app by lia.
Qed.

(** The string literal the encoder writes for a valid string is read back
    as that string. *)
Lemma string_literal_escape (fuel : nat) (s : string) :
  (String.length s ≤ fuel)%nat → valid_from fuel s = true →
  ∀ (m : nat) (t : string),
    (String.length (escape_from fuel s +:+ String quote t) ≤ m)%nat →
    string_literal m (escape_from fuel s +:+ String quote t) = inl (s, t).
Proof.
  revert s. induction fuel as [|fuel IH]; intros s Hlen Hvalid m t Hm.
  - destruct s; [|cbn in Hlen; lia]. cbn in *.
    destruct m as [|m]; [lia|]. reflexivity.
  - destruct s as [|c s'].
    { cbn in *. destruct m as [|m]; [lia|]. reflexivity. }
    cbn [valid_from] in Hvalid. apply andb_true_iff in Hvalid as [Hrune Hrest].
    apply negb_true_iff in Hrune.
    destruct (escape_unquote_step (String c s') ltac:(done) Hrune)
      as (Hsize & Hn & (d & out' & Hout & Hd) & Hread).
    rewrite <- Hsize in Hrest.
    cbn [escape_from] in *.
    destruct (escape_step (String c s')) as [out k] eqn:Hstep. cbn [fst snd] in *.
    subst out. rewrite string_app_assoc in Hm |- *.
    destruct m as [|m]; [cbn in Hm; lia|].
    cbn [string_literal String.append].
    rewrite (proj2 (Ascii.eqb_neq d quote)) by done.
    change (String d (out' +:+ ?x)) with (String d out' +:+ x).
    rewrite Hread.
    rewrite IH.
    + by rewrite string_take_drop.
    + rewrite string_length_drop. lia.
    + done.
    + cbn in Hm. 
      assert (String.length (escape_from fuel (drop k (String c s')) +:+ String quote t)
              ≤ String.length (out' +:+ escape_from fuel (drop k (String c s')) +:+ String quote t))%nat.
      { rewrite !length_string_app. lia. }
      lia.
Qed.
End Json_strings.

Section Json_numbers.
Import utf8 json.
Local Arguments String.append !_ _ / : simpl nomatch.
Local Open Scope Z_scope.

Lemma string_app_empty_r (s : string) : s +:+ "" = s.
Proof. induction s as [|c s IH]; cbn [String.append]; [done|by rewrite IH]. Qed.

Lemma decimal_app (a : Z) (ds1 ds2 : string) :
  decimal a (ds1 +:+ ds2) = decimal a ds1 ≫= λ a', decimal a' ds2.
Proof.
  revert a. induction ds1 as [|c ds1 IH]; intros a; cbn [String.append decimal]; [done|].
  destruct (isDigit c); [apply IH|done].
Qed.

(** Digits are read up to the first byte that is none. *)
Lemma digits_app (a v : Z) (ds rest : string) :
  decimal a ds = Some v →
  digits (ds +:+ rest) = (ds +:+ (digits rest).1, (digits rest).2).
Proof.
  revert a. induction ds as [|c ds IH]; intros a; cbn [String.append decimal digits].
  - intros _. by destruct (digits rest).
  - destruct (isDigit c); [|done]. intros Hds. rewrite (IH _ Hds). done.
Qed.

Lemma pretty_N_char_digit (x : N) :
  (x < 10)%N →
  isDigit (pretty_N_char x) = true ∧ digit_value (pretty_N_char x) = Z.of_N x ∧
  (x ≠ 0%N → pretty_N_char x ≠ "0"%char).
Proof.
  intros Hx. rewrite <- (N2Nat.id x).
  assert (Hn : (N.to_nat x < 10)%nat) by lia.
  generalize dependent (N.to_nat x). clear Hx. intros n Hn.
  do 10 (destruct n as [|n]; [by vm_compute|]). lia.
Qed.

(** The decimal digits of a number: they stand for the number, and the
    first one is not a zero. *)
Lemma pretty_N_go_digits (x : N) (acc : string) :
  ∃ ds, pretty_N_go x acc = ds +:+ acc ∧
        (∀ a, decimal a ds = Some (a * 10 ^ Z.of_nat (String.length ds) + Z.of_N x)) ∧
        ((0 < x)%N → ∃ c ds', ds = String c ds' ∧ isDigit c = true ∧ c ≠ "0"%char).
Proof.
  revert acc. induction (N.lt_wf_0 x) as [x _ IH]; intros acc.
  destruct (decide (x = 0%N)) as [->|Hx].
  { exists "". split; [done|]. split; [|lia]. intros a. cbn. f_equal. lia. }
  rewrite pretty_N_go_step by lia.
  destruct (IH (x `div` 10)%N ltac:(apply N.div_lt; lia)
               (String (pretty_N_char (x `mod` 10)) acc)) as (ds & Hgo & Hval & Hfirst).
  destruct (pretty_N_char_digit (x `mod` 10)%N ltac:(apply N.mod_lt; lia))
    as (Hdigit & Hchar & Hnz).
  exists (ds +:+ String (pretty_N_char (x `mod` 10)) "").
  split; [by rewrite Hgo, string_app_assoc|]. split.
  - intros a. rewrite decimal_app, Hval. cbn [mbind option_bind decimal].
    rewrite Hdigit, Hchar. f_equal.
    rewrite length_string_app. cbn [String.length].
    rewrite Nat2Z.inj_add, Z.pow_add_r by lia. change (10 ^ Z.of_nat 1) with 10.
    pose proof (N.div_mod x 10 ltac:(lia)) as Hdm.
    rewrite N2Z.inj_div, N2Z.inj_mod. change (Z.of_N 10) with 10.
    pose proof (Z.div_mod (Z.of_N x) 10 ltac:(lia)).
    set (p := 10 ^ Z.of_nat (String.length ds)). clearbody p. lia.
  - intros _. destruct (decide (x `div` 10 = 0)%N) as [Hdiv|Hdiv].
    + rewrite Hdiv in Hgo. rewrite pretty_N_go_0 in Hgo.
      assert (ds = "") as ->.
      { destruct ds as [|c ds]; [done|]. exfalso.
        apply (f_equal String.length) in Hgo. cbn in Hgo.
        rewrite length_string_app in Hgo. cbn in Hgo. lia. }
      cbn [String.append]. eexists _, _. split; [done|]. split; [done|].
      apply Hnz. intros Hmod. pose proof (N.div_mod x 10 ltac:(lia)) as Hdm.
      rewrite Hdiv, Hmod in Hdm. lia.
    + destruct Hfirst as (c & ds' & -> & Hc & Hc0); [by apply N.neq_0_lt_0|].
      cbn [String.append]. by eexists _, _.
Qed.

(** The three shapes of a number in decimal. *)
Lemma pretty_Z_shape (z : Z) :
  (z = 0 ∧ pretty z = "0") ∨
  (∃ d ds, (pretty z = String d ds ∨ pretty z = String "-" (String d ds)) ∧
           isDigit d = true ∧ d ≠ "0"%char ∧
           (∀ a, decimal a (String d ds) =
                 Some (a * 10 ^ Z.of_nat (String.length (String d ds)) + Z.abs z)) ∧
           (pretty z = String d ds → 0 < z) ∧
           (pretty z = String "-" (String d ds) → z < 0)).
Proof.
  destruct z as [|p|p]; [by left|right..].
  - destruct (pretty_N_go_digits (N.pos p) "") as (ds & Hgo & Hval & Hfirst).
    destruct Hfirst as (d & ds' & -> & Hd & Hd0); [lia|].
    rewrite string_app_empty_r in Hgo.
    assert (pretty (Z.pos p) = String d ds') as Hp by done.
    exists d, ds'. split; [by left|]. split; [done|]. split; [done|].
    split; [|split; [lia|]].
    + intros a. rewrite Hval. f_equal.
    + rewrite Hp. intros [= -> _]. vm_compute in Hd. discriminate.
  - destruct (pretty_N_go_digits (N.pos p) "") as (ds & Hgo & Hval & Hfirst).
    destruct Hfirst as (d & ds' & -> & Hd & Hd0); [lia|].
    rewrite string_app_empty_r in Hgo.
    assert (pretty (Z.neg p) = String "-" (String d ds')) as Hp.
    { change (pretty (Z.neg p)) with ("-" +:+ pretty_N_go (N.pos p) ""). by rewrite Hgo. }
    exists d, ds'. split; [by right|]. split; [done|]. split; [done|].
    split; [|split; [|lia]].
    + intros a. rewrite Hval. f_equal.
    + rewrite Hp. intros [= <- _]. vm_compute in Hd. discriminate.
Qed.

Lemma isDigit_byte (c : ascii) : isDigit c = true ↔ 0x30 ≤ byte c ≤ 0x39.
Proof. unfold isDigit. rewrite andb_true_iff, !Z.leb_le. done. Qed.

Lemma eqb_byte (c d : ascii) : byte c ≠ byte d → Ascii.eqb c d = false.
Proof. intros Hne. apply Ascii.eqb_neq. by intros ->. Qed.

Ltac byte_ne :=
  match goal with
  | |- byte _ ≠ byte ?c =>
      let v := eval vm_compute in (byte c) in change (byte c) with v; lia
  end.

(** A number in decimal, read as a value up to a byte that cannot
    continue a number: the literal is the number as it was written. *)
Lemma value_pretty (fuel : nat) (depth z : Z) (c : ascii) (t : string) :
  isDigit c = false → c ≠ "."%char → c ≠ "e"%char → c ≠ "E"%char →
  value (S fuel) depth (pretty z +:+ String c t) = inl (Number (pretty z), String c t).
Proof.
  intros Hc Hdot He HE.
  assert (Htail : digits (String c t) = ("", String c t)) by (cbn; by rewrite Hc).
  destruct (pretty_Z_shape z) as [[-> ->]|(d & ds & Hp & Hd & Hd0 & Hval & _)].
  { cbn. rewrite (proj2 (Ascii.eqb_neq c ".")), (proj2 (Ascii.eqb_neq c "e")),
      (proj2 (Ascii.eqb_neq c "E")) by done. reflexivity. }
  pose proof (proj1 (isDigit_byte d) Hd) as Hbyte.
  assert (Hnum : number_literal (String d ds +:+ String c t) = inl (String d ds, String c t)).
  { unfold number_literal. cbn [String.append].
    rewrite (eqb_byte d "-") by byte_ne.
    rewrite Hd. cbn [negb]. rewrite (proj2 (Ascii.eqb_neq d "0")) by done.
    change (String d (ds +:+ String c t)) with (String d ds +:+ String c t).
    rewrite (digits_app _ _ _ _ (Hval 0)), Htail. cbn [fst snd].
    rewrite (proj2 (Ascii.eqb_neq c ".")), (proj2 (Ascii.eqb_neq c "e")),
      (proj2 (Ascii.eqb_neq c "E")) by done.
    cbn [orb String.append]. by rewrite !string_app_empty_r. }
  destruct Hp as [-> | ->].
  - cbn [value String.append].
    rewrite (eqb_byte d "{"), (eqb_byte d "["), (eqb_byte d quote), (eqb_byte d "-")
      by byte_ne.
    rewrite Hd. cbn [orb].
    change (String d (ds +:+ String c t)) with (String d ds +:+ String c t).
    by rewrite Hnum.
  - cbn [value String.append].
    rewrite (eqb_byte "-" "{"), (eqb_byte "-" "["), (eqb_byte "-" quote) by (by vm_compute).
    rewrite Ascii.eqb_refl. cbn [orb].
    unfold number_literal in Hnum |- *. cbn [String.append] in Hnum.
    rewrite Ascii.eqb_refl.
    rewrite (eqb_byte d "-") in Hnum by byte_ne.
    destruct (negb (isDigit d)); [done|].
    destruct (if Ascii.eqb d "0" then _ else _) as [int s1].
    destruct (match s1 with "" => _ | _ => _ end) as [[frac s2]|]; [|done].
    destruct (match s2 with "" => _ | _ => _ end) as [[exp s3]|]; [|done].
    injection Hnum as Hlit ->. cbn [String.append] in Hlit |- *. by rewrite Hlit.
Qed.

Lemma ParseInt_pretty (z : Z) : - 2 ^ 63 ≤ z < 2 ^ 63 → ParseInt (pretty z) = Some z.
Proof.
  intros Hz.
  assert (Hrange : (- 2 ^ 63 <=? z) && (z <? 2 ^ 63) = true).
  { apply andb_true_iff. split; [apply Z.leb_le|apply Z.ltb_lt]; lia. }
  destruct (pretty_Z_shape z) as [[-> ->]|(d & ds & Hp & Hd & Hd0 & Hval & Hpos & Hneg)];
    [done|].
  pose proof (proj1 (isDigit_byte d) Hd) as Hbyte.
  specialize (Hval 0). rewrite Z.mul_0_l, Z.add_0_l in Hval.
  unfold ParseInt. destruct Hp as [Hp|Hp]; rewrite Hp.
  - rewrite (eqb_byte d "-") by byte_ne.
    rewrite Hval. cbn [mbind option_bind]. rewrite Z.abs_eq by (specialize (Hpos Hp); lia).
    by rewrite Hrange.
  - cbn [Ascii.eqb Bool.eqb]. rewrite Hval. cbn [fmap option_fmap option_map mbind option_bind].
    rewrite Z.abs_neq by (specialize (Hneg Hp); lia). rewrite Z.opp_involutive.
    by rewrite Hrange.
Qed.
End Json_numbers.

Section Json_round_trip.
Import utf8 json.
Local Arguments String.append !_ _ / : simpl nomatch.
Local Open Scope Z_scope.

(** A string literal as the encoder writes it is read back as a value. *)
Lemma value_appendString (fuel : nat) (depth : Z) (s t : string) :
  ValidString s = true →
  value (S fuel) depth (appendString s +:+ t) = inl (Str s, t).
Proof.
  intros Hvalid. unfold appendString. cbn [String.append value].
  rewrite string_app_assoc. cbn [String.append].
  change (Ascii.eqb quote "{") with false. change (Ascii.eqb quote "[") with false.
  rewrite Ascii.eqb_refl. cbv iota.
  rewrite string_literal_escape; [done|done|done|]. cbn [String.length]. lia.
Qed.

Lemma value_bool (fuel : nat) (depth : Z) (b : bool) (t : string) :
  value (S fuel) depth ((if b then "true" else "false") +:+ t) = inl (Bool b, t).
Proof. destruct b; cbn; by rewrite ?Ascii.eqb_refl. Qed.

(** A member of an object that is followed by another one, and the last
    member of an object, as the encoder writes them. *)
Lemma members_cons (fuel : nat) (depth : Z) (key rest more : string) (x : Value)
    (ms : list (string * Value)) (t : string) :
  ValidString key = true →
  skip_space rest = rest → skip_space more = more →
  value fuel depth rest = inl (x, String "," more) →
  members fuel depth more = inl (ms, t) →
  members (S fuel) depth (appendString key +:+ String ":" rest) = inl ((key, x) :: ms, t).
Proof.
  intros Hkey Hrest Hmore Hvalue Hmembers.
  unfold appendString. cbn [String.append members].
  rewrite string_app_assoc. cbn [String.append].
  rewrite Ascii.eqb_refl. cbn [negb].
  rewrite string_literal_escape; [|done|done|cbn [String.length]; lia].
  cbn [skip_space]. change (isSpace ":") with false. cbv iota.
  rewrite Ascii.eqb_refl. cbn [negb]. rewrite Hrest, Hvalue.
  cbn [skip_space]. change (isSpace ",") with false. cbv iota.
  change (Ascii.eqb "," "}") with false. rewrite Ascii.eqb_refl. cbv iota.
  by rewrite Hmore, Hmembers.
Qed.

Lemma members_last (fuel : nat) (depth : Z) (key rest : string) (x : Value) (t : string) :
  ValidString key = true →
  skip_space rest = rest →
  value fuel depth rest = inl (x, String "}" t) →
  members (S fuel) depth (appendString key +:+ String ":" rest) = inl ([(key, x)], t).
Proof.
  intros Hkey Hrest Hvalue.
  unfold appendString. cbn [String.append members].
  rewrite string_app_assoc. cbn [String.append].
  rewrite Ascii.eqb_refl. cbn [negb].
  rewrite string_literal_escape; [|done|done|cbn [String.length]; lia].
  cbn [skip_space]. change (isSpace ":") with false. cbv iota.
  rewrite Ascii.eqb_refl. cbn [negb]. rewrite Hrest, Hvalue.
  cbn [skip_space]. change (isSpace "}") with false. cbv iota.
  by rewrite Ascii.eqb_refl.
Qed.

Lemma skip_space_appendString (s t : string) :
  skip_space (appendString s +:+ t) = appendString s +:+ t.
Proof. reflexivity. Qed.

Lemma skip_space_bool (b : bool) (t : string) :
  skip_space ((if b then "true" else "false") +:+ t) = (if b then "true" else "false") +:+ t.
Proof. by destruct b. Qed.

Lemma skip_space_pretty (z : Z) (t : string) :
  skip_space (pretty z +:+ t) = pretty z +:+ t.
Proof.
  destruct (pretty_Z_shape z) as [[-> ->]|(d & ds & [-> | ->] & Hd & _)]; [done| |done].
  cbn [String.append skip_space].
  apply isDigit_byte in Hd. unfold isSpace.
  rewrite bool_decide_eq_false_2; [done|].
  rewrite !elem_of_cons, elem_of_nil. lia.
Qed.

(** What the encoder writes for a record is read back as the object of
    its six fields. *)
Lemma value_Marshal (fuel : nat) (v : scaleVolume) (t : string) :
  well_formed v → (8 ≤ fuel)%nat →
  value fuel 0 (Marshal v +:+ t) =
  inl (Object [("volName", Str (VolName v)); ("volID", Str (VolID v));
               ("volSize", Number (pretty (VolSize v))); ("volIscsi", Bool (VolIscsi v));
               ("volIscsiVid", Str (VolIscsiVid v));
               ("volBackendFs", Str (VolBackendFs v))], t).
Proof.
  intros (Hname & Hid & Hvid & Hfs & Hsize) Hfuel.
  do 8 (destruct fuel as [|fuel]; [lia|]). clear Hfuel.
  unfold Marshal. rewrite !string_app_assoc.
  cbn [value String.append]. cbn [Ascii.eqb Bool.eqb andb]. cbv iota.
  change (maxNestingDepth <? 0 + 1) with false. cbv iota.
  rewrite skip_space_appendString.
  set (input := appendString "volName" +:+ _).
  assert (Hms : members (S (S (S (S (S (S (S fuel))))))) (0 + 1) input =
                inl ([("volName", Str (VolName v)); ("volID", Str (VolID v));
                      ("volSize", Number (pretty (VolSize v)));
                      ("volIscsi", Bool (VolIscsi v));
                      ("volIscsiVid", Str (VolIscsiVid v));
                      ("volBackendFs", Str (VolBackendFs v))], t)).
  { subst input.
    eapply members_cons; [done|apply skip_space_appendString|apply skip_space_appendString
                         |by apply value_appendString|].
    eapply members_cons; [done|apply skip_space_appendString|apply skip_space_appendString
                         |by apply value_appendString|].
    eapply members_cons; [done|apply skip_space_pretty|apply skip_space_appendString
                         |by apply value_pretty|].
    eapply members_cons; [done|apply skip_space_bool|apply skip_space_appendString
                         |by apply value_bool|].
    eapply members_cons; [done|apply skip_space_appendString|apply skip_space_appendString
                         |by apply value_appendString|].
    eapply members_last; [done|apply skip_space_appendString|by apply value_appendString]. }
  assert (Hq : ∃ r, input = String quote r) by (by eexists).
  destruct Hq as [r Hq]. clearbody input. subst input.
  change (Ascii.eqb quote "}") with false. cbv iota. by rewrite Hms.
Qed.

(** [Decode] reads back what [Marshal] wrote for a well-formed record,
    whatever follows it in the input and whatever the record decoded into
    held. *)
Lemma Decode_Marshal (v into : scaleVolume) (t : string) :
  well_formed v → Decode (Marshal v +:+ t) into = (v, None).
Proof.
  intros Hv. unfold Decode.
  assert (Hskip : skip_space (Marshal v +:+ t) = String "{" (drop 1 (Marshal v +:+ t)))
    by reflexivity.
  rewrite Hskip. cbv iota.
  change (String "{" (drop 1 (Marshal v +:+ t))) with (Marshal v +:+ t).
  rewrite (value_Marshal _ v t Hv).
  2: { unfold Marshal. rewrite !length_string_app.
       change (String.length (appendString "volName")) with 9%nat. lia. }
  unfold unmarshal, object.
  change (field_of "volName") with (Some F_VolName).
  change (field_of "volID") with (Some F_VolID).
  change (field_of "volSize") with (Some F_VolSize).
  change (field_of "volIscsi") with (Some F_VolIscsi).
  change (field_of "volIscsiVid") with (Some F_VolIscsiVid).
  change (field_of "volBackendFs") with (Some F_VolBackendFs).
  cbn [store]. rewrite ParseInt_pretty by apply Hv.
  by destruct v.
Qed.
End Json_round_trip.

Section Metadata_properties.
Context {B : Type} `{!Backend B} {P : Platform}.

(** C9. For every volume record whose four strings are valid UTF-8 (its
    size is an int64 by its type) and every identifier: once
    persistVolInfo has stored the record under the identifier, loadVolInfo
    with the same identifier and directory answers without error a record
    equal to the stored one in all six fields, whatever the record it
    decodes into held before. The JSON library is Go's encoder and
    decoder; the texts of its errors are left open. *)
Theorem persist_then_load (errors : json.DecodeError → error) (image dir : string)
    (volInfo into : scaleVolume) (w w1 : World B) :
  json.well_formed volInfo →
  persistVolInfo (H := json.platform errors P) image dir volInfo w = (None, w1) →
  (loadVolInfo (H := json.platform errors P) image dir into w1).1 = (volInfo, None).
Proof.
  intros Hwf Hpersist.
  destruct (persistVolInfo_ok _ _ _ _ _ Hpersist) as (data & Hdata & Hfiles & _).
  injection Hdata as <-.
  rewrite loadVolInfo_eq. cbv zeta. cbn [fst].
  rewrite Hfiles, lookup_insert_eq. cbn [json_Decode json.platform].
  by rewrite (Decode_Marshal volInfo into _ Hwf).
Qed.
End Metadata_properties.

(** ** The properties on the simulated installation *)

Section Teardown_dispatch.
Context {B : Type} `{!Backend B} `{!Platform}.

(** The delete path tests the backing file-system path the way the
    create path does: a fileset teardown opens with the unlink, every
    other teardown with the deletion of the file system. *)
Lemma deleteScaleImage_opening_call (pOpts : scaleVolume) (w : World B) :
  ∃ calls, trace (deleteScaleImage pOpts w).2 =
           trace w ++
           (match select_strategy (VolBackendFs pOpts) (VolIscsi pOpts) with
            | Fileset =>
                UnlinkFSet (last_elem (strings_Split (VolBackendFs pOpts) "/"))
                           (VolID pOpts)
            | _ => DeleteFS (VolID pOpts)
            end) :: calls.
Proof.
  unfold deleteScaleImage, select_strategy. rewrite len_gtb_0.
  destruct (decide (VolBackendFs pOpts ≠ "")).
  - rewrite bool_decide_eq_true_2 by done.
    apply bind_extern_opening. intros a. solve_frame.
  - rewrite bool_decide_eq_false_2 by done.
    destruct (VolIscsi pOpts); apply bind_extern_opening; intros a; solve_frame.
Qed.

(** [deleteScaleImage] never reads the flag [VolIscsi]. *)
Lemma deleteScaleImage_any_flag (pOpts : scaleVolume) (flag : bool) (w : World B) :
  deleteScaleImage (set_VolIscsi flag pOpts) w = deleteScaleImage pOpts w.
Proof. reflexivity. Qed.
End Teardown_dispatch.

Import Sim Examples.

(** C2. At a raw-device record (no backing file-system path, flag
    VolIscsi false) the teardown deletes the file system, then the NSD, and
    then issues the iSCSI delete all the same, with the empty volume
    identifier of the record; when that call fails, DeleteVolume of the
    raw-device volume fails with INTERNAL. *)
Theorem deleteScaleImage_raw_device_issues_iscsi_delete :
  VolBackendFs vol_a = "" ∧ VolIscsi vol_a = false ∧
  trace (deleteScaleImage vol_a (start admin)).2 =
    [DeleteFS "uuid-0"; DeleteNSD "uuid-0"; IscsiDeleteVolume ""] ∧
  (DeleteVolume cs delete_a (after_a_failing [IscsiDeleteVolume ""])).1 =
    inr (status_Error Internal
           "failed to delete scale image: pvc-a with error: command failed").
Proof. repeat split; vm_compute; reflexivity. Qed.

(** C3. When the metadata file of the identifier is absent, deleteVolInfo
    answers an error: the error of os.Remove is a PathError, which is not
    the value os.ErrNotExist it is compared with. *)
Theorem deleteVolInfo_absent_file_is_an_error :
  files (fsys (start admin)) !! volInfo_file "uuid-0" = None ∧
  (deleteVolInfo "uuid-0" controller_dir (start admin)).1 =
    Some (Errorf ("scale: error removing file: " +:+ volInfo_file "uuid-0" +:+ "/" +:+
                  Error (PathError "remove" (volInfo_file "uuid-0") ENOENT))).
Proof. split; vm_compute; reflexivity. Qed.

(** C7. The create path picks the strategy by the path and the flag, but
    the delete path does not: for the raw-device record and for the same
    record with the flag set, which the rule sends to two strategies,
    deleteScaleImage runs the same teardown, the one that ends with the
    iSCSI delete. *)
Theorem deleteScaleImage_same_teardown_for_both_flags :
  select_strategy (VolBackendFs vol_a) false = RawDevice ∧
  select_strategy (VolBackendFs vol_a) true = NetworkBlockDevice ∧
  opening_call (set_VolIscsi false vol_a) 1024 = PickNextRawDevice ∧
  opening_call (set_VolIscsi true vol_a) 1024 = IscsiCreateVolume "uuid-0" 1024 ∧
  (∀ w : World Admin,
     deleteScaleImage (set_VolIscsi false vol_a) w =
     deleteScaleImage (set_VolIscsi true vol_a) w) ∧
  trace (deleteScaleImage (set_VolIscsi false vol_a) (start admin)).2 =
    [DeleteFS "uuid-0"; DeleteNSD "uuid-0"; IscsiDeleteVolume ""].
Proof. repeat split; vm_compute; reflexivity. Qed.

(** C1 as first stated fails: the name of the request resolves to a record
    whose stored size covers the required bytes, yet a request without
    capabilities does not get the existing record; it is rejected with
    INVALID_ARGUMENT. *)
Lemma CreateVolume_existing_name_without_capabilities :
  (getScaleVolumeByName (Name req_a_5_nocaps) after_a).1 = inl vol_a ∧
  (VolSize vol_a >= GetRequiredBytes (CapacityRange_ req_a_5_nocaps))%Z ∧
  CreateVolume cs req_a_5_nocaps after_a ≠
    (inl (mkCreateVolumeResponse
            (mkVolume (VolID vol_a) (VolSize vol_a) (Parameters req_a_5_nocaps))),
     after_a) ∧
  CreateVolume cs req_a_5_nocaps after_a =
    (inr (status_Error InvalidArgument "Volume Capabilities cannot be empty"), after_a).
Proof. repeat split; vm_compute; (reflexivity || discriminate). Qed.

Lemma CreateVolume_existing_name_witness :
  CreateVolume cs req_a_5 after_a =
    (inl (mkCreateVolumeResponse (mkVolume "uuid-0" 1073741824 ∅)), after_a).
Proof.
  destruct (CreateVolume_existing_name cs req_a_5 after_a vol_a) as [Hreuse _].
  - vm_compute. reflexivity.
  - discriminate.
  - discriminate.
  - vm_compute. reflexivity.
  - apply Hreuse. vm_compute. discriminate.
Defined.

(** C4 as first stated fails: a request without a name, on a driver that
    did not register the create/delete capability, is answered INTERNAL,
    not INVALID_ARGUMENT; and a request whose capability slice is empty but
    not nil is served. *)
Lemma CreateVolume_incomplete_request_not_invalid_argument :
  Name req_noname = "" ∧
  CreateVolume cs_without_capability req_noname (start admin) =
    (inr (status_Error Internal
            ("CreateVolume ValidateControllerServiceRequest failed: " +:+
             "unsupported controller service capability")), start admin) ∧
  VolumeCapabilities req_emptycaps = Some [] ∧
  (CreateVolume cs req_emptycaps (start admin)).1 =
    inl (mkCreateVolumeResponse (mkVolume "uuid-0" 1073741824 ∅)).
Proof. repeat split; vm_compute; reflexivity. Qed.

Lemma CreateVolume_rejects_incomplete_request_witness :
  ∃ msg, CreateVolume cs req_noname (start admin) =
         (inr (status_Error InvalidArgument msg), start admin).
Proof.
  apply (CreateVolume_rejects_incomplete_request cs req_noname (start admin)).
  - reflexivity.
  - left. reflexivity.
Defined.

Lemma synthesized_name_unreachable_witness : (len (GetName req_a) =? 0)%Z = false.
Proof.
  apply (proj1 (synthesized_name_unreachable cs req_a (start admin))
           [NewUUID; PickNextRawDevice; CreateNSD "uuid-0" "/dev/dm-1";
            CreateFS "uuid-0" "uuid-0"; OsCreate (volInfo_file "uuid-0")]).
  - vm_compute. reflexivity.
  - left.
Defined.

(** Provisioning fails at the NSD: INTERNAL, no file, no registry entry. *)
Lemma CreateVolume_provision_persist_insert_witness :
  let w := start (admin_failing [CreateNSD "uuid-0" "/dev/dm-1"]) in
  ∃ msg w2, CreateVolume cs req_a w = (inr (status_Error Internal msg), w2) ∧
            fsys w2 = fsys w ∧ scaleVolumes w2 = scaleVolumes w.
Proof.
  intros w.
  pose (u := extern NewUUID w).
  pose (c := createScaleImage (new_volume req_a u.1)
               (VolSize (new_volume req_a u.1) ÷ 1024 ÷ 1024) u.2).
  destruct (CreateVolume_provision_persist_insert cs req_a w
              (Errorf "volume name pvc-a does not exit in the volumes list")
              u.1 u.2 c.1.1 c.1.2 c.2) as [Hfail _].
  - reflexivity.
  - discriminate.
  - discriminate.
  - vm_compute. reflexivity.
  - vm_compute. reflexivity.
  - vm_compute. reflexivity.
  - destruct (Hfail (Errorf "command failed")) as ([msg Hrun] & Hfs & Hreg).
    + vm_compute. reflexivity.
    + exists msg, c.2. auto.
Defined.

(** The teardown fails at the NSD: INTERNAL, file and registry entry
    stay. *)
Lemma DeleteVolume_teardown_remove_evict_witness :
  let w := after_a_failing [DeleteNSD "uuid-0"] in
  ∃ msg w2, DeleteVolume cs delete_a w = (inr (status_Error Internal msg), w2) ∧
            fsys w2 = fsys w ∧ scaleVolumes w2 = scaleVolumes w.
Proof.
  intros w.
  pose (l := loadVolInfo (GetVolumeId delete_a) controller_dir zero_scaleVolume w).
  pose (d := deleteScaleImage l.1.1 l.2).
  destruct (DeleteVolume_teardown_remove_evict cs delete_a w l.2 l.1.1 d.1 d.2)
    as [Hfail _].
  - reflexivity.
  - vm_compute. reflexivity.
  - vm_compute. reflexivity.
  - destruct (Hfail (Errorf "failed to delete scale nsd: command failed"))
      as ([msg Hrun] & Hfs & Hreg).
    + vm_compute. reflexivity.
    + exists msg, d.2. auto.
Defined.

Lemma CreateVolume_fresh_name_size_witness :
  ∃ resp w', CreateVolume cs req_a (start admin) = (inl resp, w') ∧
             CapacityBytes (Volume_ resp) = 1073741824.
Proof.
  pose (r := CreateVolume cs req_a (start admin)).
  exists (mkCreateVolumeResponse (mkVolume "uuid-0" 1073741824 ∅)), r.2.
  assert (Hrun : CreateVolume cs req_a (start admin) =
                 (inl (mkCreateVolumeResponse (mkVolume "uuid-0" 1073741824 ∅)), r.2))
    by (vm_compute; reflexivity).
  split; [exact Hrun|].
  refine (proj1 (proj2 (CreateVolume_fresh_name_size cs req_a (start admin) r.2
                   (mkCreateVolumeResponse (mkVolume "uuid-0" 1073741824 ∅))
                   _ _ Hrun)) eq_refl).
  - reflexivity.
  - intros id v Hin. vm_compute in Hin. discriminate.
Defined.

Lemma persist_then_load_witness :
  (loadVolInfo (H := Scenarios.go_platform) "uuid-0" controller_dir zero_scaleVolume
     (persistVolInfo (H := Scenarios.go_platform) "uuid-0" controller_dir vol_a
        (start admin)).2).1 = (vol_a, None).
Proof.
  apply (persist_then_load (P := Sim.platform) Scenarios.json_error
           "uuid-0" controller_dir vol_a zero_scaleVolume (start admin)).
  - repeat split; vm_compute; congruence.
  - vm_compute. reflexivity.
Defined.

(** A record whose name is not UTF-8 does not come back as it was
    stored: the encoder writes the byte 0xFF of the name as the escape of
    U+FFFD, and the decoder answers, without error, the record under the
    name U+FFFD. *)
Lemma persist_then_load_byte_name :
  let stored := persistVolInfo (H := Scenarios.go_platform) "uuid-0" controller_dir
                  Scenarios.vol_byte_name (start admin) in
  let loaded := loadVolInfo (H := Scenarios.go_platform) "uuid-0" controller_dir
                  zero_scaleVolume stored.2 in
  stored.1 = None ∧
  loaded.1 = (Scenarios.vol_replaced_name, None) ∧
  loaded.1 ≠ (Scenarios.vol_byte_name, None).
Proof.
  cbv zeta.
  assert (Hloaded : (loadVolInfo (H := Scenarios.go_platform) "uuid-0" controller_dir
                       zero_scaleVolume
                       (persistVolInfo (H := Scenarios.go_platform) "uuid-0" controller_dir
                          Scenarios.vol_byte_name (start admin)).2).1 =
                    (Scenarios.vol_replaced_name, None)) by (vm_compute; reflexivity).
  split; [vm_compute; reflexivity|]. split; [done|].
  rewrite Hloaded. vm_compute. congruence.
Qed.

(** The encoder and the decoder on examples. The encoder escapes the
    angle bracket, the quote and the line feed, writes a byte that is not
    UTF-8 as the escape of U+FFFD and leaves a rune of two bytes as it is.
    The decoder skips white space and the member it has no field for,
    matches a key whatever its case, keeps storing after a value that does
    not fit and answers the first such error; an input without a value is
    [io.EOF] and one that ends inside a value [io.ErrUnexpectedEOF]. *)
Example json_runs :
  json.appendString ("<" +:+ String json.quote (String "010" (String "255"
                       (String "195" (String "169" ""))))) =
    Scenarios.literal (String json.backslash "u003c" +:+
                       String json.backslash (String json.quote "") +:+
                       String json.backslash "n" +:+
                       String json.backslash "ufffd" +:+
                       String "195" (String "169" "")) ∧
  json.Decode (" {" +:+ Scenarios.literal "VOLNAME" +:+ ": " +:+ Scenarios.literal "pvc" +:+
               ", " +:+ Scenarios.literal "other" +:+ ": [1, {}, null], " +:+
               Scenarios.literal "volSize" +:+ ": 1e3, " +:+
               Scenarios.literal "volIscsi" +:+ ": true, " +:+
               Scenarios.literal "volID" +:+ ": " +:+ Scenarios.literal "u1" +:+ "} x")
              zero_scaleVolume =
    (mkScaleVolume "pvc" "u1" 0 true "" "",
     Some (json.UnmarshalTypeError "number 1e3" "volSize")) ∧
  json.Decode " " vol_a = (vol_a, Some json.io_EOF) ∧
  json.Decode ("{" +:+ Scenarios.literal "volName") vol_a =
    (vol_a, Some json.io_ErrUnexpectedEOF) ∧
  json.Decode ("{" +:+ Scenarios.literal "volName" +:+ ":1,}") vol_a =
    (vol_a, Some json.SyntaxError).
Proof. repeat split; vm_compute; reflexivity. Qed.

(** The branch of DeleteVolume after a failed deleteVolInfo is taken too:
    with the metadata file protected, the teardown runs, the removal
    fails, and the registry entry stays. *)
Example DeleteVolume_protected_file :
  let r := DeleteVolume cs delete_a after_a_protected in
  r.1 = inr (status_Error Internal
               ("failed to delete volInfo with error: scale: error removing file: "
                +:+ volInfo_file "uuid-0" +:+ "/remove " +:+ volInfo_file "uuid-0"
                +:+ ": permission denied")) ∧
  scaleVolumes r.2 = scaleVolumes after_a_protected ∧
  fsys r.2 = fsys after_a_protected.
Proof. repeat split; vm_compute; reflexivity. Qed.

(** ** Further properties of the code *)

Section Capability_check.
Import csi.

Lemma validate_from_eq (all caps : list (option VolumeCapability)) :
  validate_from all caps =
  inl (mkValidateResponse
         (if decide (Forall (λ cap, GetMode (GetAccessMode cap) =
                                    VolumeCapability_AccessMode_MULTI_NODE_MULTI_WRITER) caps)
          then Some (mkConfirmed all) else None) "").
Proof.
  induction caps as [|cap caps IH]; cbn [validate_from].
  - by rewrite decide_True by constructor.
  - destruct (decide (GetMode (GetAccessMode cap) ≠ _)) as [Hne|Heq].
    + rewrite decide_False; [done|]. intros Hall. by inversion Hall.
    + apply dec_stable in Heq. rewrite IH.
      destruct (decide (Forall _ caps)) as [Hall|Hnot].
      * by rewrite decide_True by by constructor.
      * rewrite decide_False; [done|]. intros Hall. by inversion Hall.
Qed.

(** X1. ValidateVolumeCapabilities never answers an error. It confirms
    the capabilities of the request, all of them and unchanged, exactly
    when every one of them has the access mode MULTI_NODE_MULTI_WRITER (so
    a request without capabilities is confirmed); a capability that is nil,
    has no access mode or has another mode makes the answer unconfirmed
    with an empty message. *)
Theorem ValidateVolumeCapabilities_confirms_multi_writer_only
    (req : ValidateVolumeCapabilitiesRequest) :
  ValidateVolumeCapabilities req =
  inl (mkValidateResponse
         (if decide (Forall (λ cap, GetMode (GetAccessMode cap) =
                                    VolumeCapability_AccessMode_MULTI_NODE_MULTI_WRITER)
                            (VolumeCapabilities req))
          then Some (mkConfirmed (VolumeCapabilities req)) else None) "").
Proof. apply validate_from_eq. Qed.
End Capability_check.

Section File_system_name.

Lemma append_String (cur : string) (c : ascii) (s : string) :
  (cur +:+ String c "") +:+ s = cur +:+ String c s.
Proof.
  induction cur as [|d cur IH]; [reflexivity|].
  change (String d ((cur +:+ String c "") +:+ s) = String d (cur +:+ String c s)).
  congruence.
Qed.

Lemma append_empty_r (s : string) : s +:+ "" = s.
Proof.
  induction s as [|c s IH]; [reflexivity|].
  change (String c (s +:+ "") = String c s). congruence.
Qed.

Lemma split_from_nonempty (sep : ascii) (cur s : string) : split_from sep cur s ≠ [].
Proof.
  revert cur. induction s as [|c s IH]; intros cur; cbn; [done|].
  destruct (Ascii.eqb c sep); [done|apply IH].
Qed.

(** Without a separator there is one piece. *)
Lemma split_from_no_sep (sep : ascii) (cur s : string) :
  occurs sep s = false → split_from sep cur s = [cur +:+ s].
Proof.
  revert cur. induction s as [|c s IH]; intros cur Hocc; cbn [split_from occurs] in *.
  - by rewrite append_empty_r.
  - apply orb_false_iff in Hocc as [Hc Hs]. rewrite Hc.
    rewrite IH by done. by rewrite append_String.
Qed.

(** The last piece is the last piece of what follows a separator. *)
Lemma split_from_last (sep : ascii) (cur dir rest : string) :
  last (split_from sep cur (dir +:+ String sep rest)) = last (split_from sep "" rest).
Proof.
  revert cur. induction dir as [|c dir IH]; intros cur.
  - change (last (split_from sep cur (String sep rest)) = last (split_from sep "" rest)).
    cbn [split_from]. rewrite Ascii.eqb_refl.
    destruct (split_from sep "" rest) eqn:Hs; [by apply split_from_nonempty in Hs|done].
  - change (last (split_from sep cur (String c (dir +:+ String sep rest))) =
            last (split_from sep "" rest)).
    cbn [split_from]. destruct (Ascii.eqb c sep).
    + specialize (IH "").
      destruct (split_from sep "" (dir +:+ String sep rest)) eqn:Hs;
        [by apply split_from_nonempty in Hs|]. exact IH.
    + apply IH.
Qed.

(** X2. The file-system name createScaleImage and deleteScaleImage derive
    from the backing path is what follows its last slash: for a name
    without a slash, the path dir/name gives name, and so does the bare
    name; a path that ends in a slash gives the empty name. *)
Theorem fsName_is_last_path_component (dir name : string) :
  occurs "/" name = false →
  fsName_of (dir +:+ "/" +:+ name) = name ∧ fsName_of name = name.
Proof.
  intros Hocc. unfold fsName_of, strings_Split, last_elem. split.
  - change (dir +:+ "/" +:+ name) with (dir +:+ String "/" name).
    rewrite split_from_last, split_from_no_sep by done. reflexivity.
  - rewrite split_from_no_sep by done. reflexivity.
Qed.
End File_system_name.

Section Calls_within.
Context {B : Type} `{!Backend B} `{!Platform}.

Lemma calls_within_refl (P : Call → bool) (w : World B) : calls_within P w w.
Proof. exists []. split; [by rewrite app_nil_r|constructor]. Qed.

Lemma calls_within_trans (P : Call → bool) (w1 w2 w3 : World B) :
  calls_within P w1 w2 → calls_within P w2 w3 → calls_within P w1 w3.
Proof.
  intros (c1 & Ht1 & Hp1) (c2 & Ht2 & Hp2). exists (c1 ++ c2). split.
  - by rewrite Ht2, Ht1, app_assoc.
  - by apply Forall_app.
Qed.

Lemma calls_within_weaken {A} (P Q : Call → bool) (m : M B A) :
  (∀ c, P c = true → Q c = true) → calls_within_m P m → calls_within_m Q m.
Proof.
  intros HPQ Hm w. destruct (Hm w) as (calls & Ht & Hp). exists calls.
  split; [done|]. eapply Forall_impl; [exact Hp|]. cbn. auto.
Qed.

Lemma ret_calls {A} (P : Call → bool) (a : A) : calls_within_m (B:=B) P (ret a).
Proof. intros w. apply calls_within_refl. Qed.

Lemma bind_calls {A C} (P : Call → bool) (m : M B A) (k : A → M B C) :
  calls_within_m P m → (∀ a, calls_within_m P (k a)) → calls_within_m P (bind m k).
Proof.
  intros Hm Hk w. unfold bind. specialize (Hm w).
  destruct (m w) as [a w1]. eapply calls_within_trans; [exact Hm|apply Hk].
Qed.

Lemma one_call (P : Call → bool) (c : Call) (w w' : World B) :
  P c = true → trace w' = trace w ++ [c] → calls_within P w w'.
Proof. intros Hp Ht. exists [c]. split; [done|]. by repeat constructor. Qed.

Lemma extern_calls (P : Call → bool) (c : Call) :
  P c = true → calls_within_m P (extern c).
Proof. intros Hp w. rewrite extern_eq. by apply (one_call P c). Qed.

Lemma os_Create_calls (P : Call → bool) (file : string) :
  P (OsCreate file) = true → calls_within_m (B:=B) P (os_Create file).
Proof.
  intros Hp w. unfold os_Create. destruct (fs_Create file (fsys w)).
  by apply (one_call P (OsCreate file)).
Qed.

Lemma os_Open_calls (P : Call → bool) (file : string) :
  P (OsOpen file) = true → calls_within_m (B:=B) P (os_Open file).
Proof. intros Hp w. by apply (one_call P (OsOpen file)). Qed.

Lemma os_Remove_calls (P : Call → bool) (file : string) :
  P (OsRemove file) = true → calls_within_m (B:=B) P (os_Remove file).
Proof.
  intros Hp w. unfold os_Remove. destruct (fs_Remove file (fsys w)).
  by apply (one_call P (OsRemove file)).
Qed.

Lemma fp_Write_calls (P : Call → bool) (file data : string) :
  calls_within_m (B:=B) P (fp_Write file data).
Proof. intros w. exists []. split; [by rewrite app_nil_r|constructor]. Qed.

Lemma set_scaleVolumes_calls (P : Call → bool)
    (f : gmap string scaleVolume → gmap string scaleVolume) :
  calls_within_m (B:=B) P (set_scaleVolumes f).
Proof. intros w. exists []. split; [by rewrite app_nil_r|constructor]. Qed.

Lemma get_scaleVolumes_calls (P : Call → bool) :
  calls_within_m (B:=B) P get_scaleVolumes.
Proof. intros w. apply calls_within_refl. Qed.
End Calls_within.

(** Proves that a computation makes calls within a class only: it walks
    the binds and the case distinctions and checks every call. *)
Ltac solve_calls :=
  repeat first
    [ apply ret_calls
    | apply extern_calls; reflexivity
    | apply os_Create_calls; reflexivity
    | apply os_Open_calls; reflexivity
    | apply os_Remove_calls; reflexivity
    | apply fp_Write_calls
    | apply set_scaleVolumes_calls
    | apply get_scaleVolumes_calls
    | apply bind_calls; [|intros ?]
    | match goal with
      | |- calls_within_m _ (match ?x with _ => _ end) => destruct x
      end ].

Section Calls_of_the_controller.
Context {B : Type} `{!Backend B} `{!Platform} {D : Type} `{!Driver D}.

Lemma attach_to_nodes_calls (pbVol : PbVolume) (ns : list string) :
  calls_within_m provisioning_call (attach_to_nodes pbVol ns).
Proof.
  induction ns as [|node ns IH]; cbn [attach_to_nodes]; [solve_calls|].
  apply bind_calls; [solve_calls|]. intros [err|]; [solve_calls|exact IH].
Qed.

Lemma createScaleImage_calls (pOpts : scaleVolume) (volSzMb : Z) :
  calls_within_m provisioning_call (createScaleImage pOpts volSzMb).
Proof.
  unfold createScaleImage. cbv zeta.
  destruct (len (VolBackendFs pOpts) >? 0)%Z; [solve_calls|].
  destruct (VolIscsi pOpts); [|solve_calls].
  apply bind_calls; [solve_calls|]. intros [pbVol|err]; [|solve_calls].
  apply bind_calls; [apply attach_to_nodes_calls|]. intros a. solve_calls.
Qed.

Lemma deleteScaleImage_calls (pOpts : scaleVolume) :
  calls_within_m teardown_call (deleteScaleImage pOpts).
Proof.
  unfold deleteScaleImage. destruct (len (VolBackendFs pOpts) >? 0)%Z; solve_calls.
Qed.

Lemma persistVolInfo_calls (image dir : string) (volInfo : scaleVolume) :
  calls_within_m (B:=B) create_side_call (persistVolInfo image dir volInfo).
Proof. unfold persistVolInfo. solve_calls. Qed.

Lemma loadVolInfo_calls (image dir : string) (volInfo : scaleVolume) :
  calls_within_m (B:=B) delete_side_call (loadVolInfo image dir volInfo).
Proof. unfold loadVolInfo. solve_calls. Qed.

Lemma deleteVolInfo_calls (image dir : string) :
  calls_within_m (B:=B) delete_side_call (deleteVolInfo image dir).
Proof. unfold deleteVolInfo. solve_calls. Qed.

(** X3. createScaleImage makes provisioning calls only: whichever step
    fails, it issues no unlink and no delete of a fileset, file system, NSD
    or iSCSI volume, so what the earlier steps created is left in place. *)
Theorem createScaleImage_never_rolls_back (pOpts : scaleVolume) (volSzMb : Z)
    (w : World B) :
  ∃ calls, trace (createScaleImage pOpts volSzMb w).2 = trace w ++ calls ∧
           Forall (λ c, provisioning_call c = true) calls.
Proof. apply createScaleImage_calls. Qed.

(** X4. Whatever its outcome, CreateVolume calls nothing but the
    identifier generator, the provisioning operations and os.Create: it
    tears nothing down and removes no file, also after a failure. *)
Theorem CreateVolume_calls_create_side_only (cs : ScaleControllerServer D)
    (req : CreateVolumeRequest) (w : World B) :
  ∃ calls, trace (CreateVolume cs req w).2 = trace w ++ calls ∧
           Forall (λ c, create_side_call c = true) calls.
Proof.
  revert w. change (calls_within_m create_side_call (CreateVolume cs req)).
  unfold CreateVolume, getScaleVolumeByName.
  destruct (ValidateControllerServiceRequest _ _); [solve_calls|].
  destruct (len (Name req) =? 0)%Z; [solve_calls|].
  destruct (decide (VolumeCapabilities req = None)); [solve_calls|].
  apply bind_calls; [solve_calls|]. intros [exVol|notfound]; [solve_calls|].
  destruct (getScaleVolumeOptions _) as [scaleVol [err|]]; [solve_calls|].
  apply bind_calls; [solve_calls|]. intros uniqueID.
  apply bind_calls.
  { eapply calls_within_weaken; [|apply createScaleImage_calls].
    by intros []. }
  intros [scaleVol' [err|]]; [solve_calls|].
  apply bind_calls; [apply persistVolInfo_calls|].
  intros [err|]; solve_calls.
Qed.

(** X5. Whatever its outcome, DeleteVolume calls nothing but os.Open, the
    teardown operations and os.Remove: it provisions nothing, generates no
    identifier and writes no file. *)
Theorem DeleteVolume_calls_delete_side_only (cs : ScaleControllerServer D)
    (req : DeleteVolumeRequest) (w : World B) :
  ∃ calls, trace (DeleteVolume cs req w).2 = trace w ++ calls ∧
           Forall (λ c, delete_side_call c = true) calls.
Proof.
  revert w. change (calls_within_m delete_side_call (DeleteVolume cs req)).
  unfold DeleteVolume.
  destruct (ValidateControllerServiceRequest _ _); [solve_calls|].
  apply bind_calls; [apply loadVolInfo_calls|].
  intros [scaleVol [err|]]; [solve_calls|].
  apply bind_calls.
  { eapply calls_within_weaken; [|apply deleteScaleImage_calls].
    by intros []. }
  intros [err|]; [solve_calls|].
  apply bind_calls; [apply deleteVolInfo_calls|].
  intros [err|]; solve_calls.
Qed.
End Calls_of_the_controller.

Section Outcomes_of_CreateVolume.
Context {B : Type} `{!Backend B} `{!Platform} {D : Type} `{!Driver D}.

(** The outcomes of [CreateVolume]: an error with the registry as it was;
    the reuse of the record the name resolves to, with the world as it was;
    or a new record, persisted and inserted under its identifier. *)
Lemma CreateVolume_outcome (cs : ScaleControllerServer D) (req : CreateVolumeRequest)
    (w : World B) :
  let r := CreateVolume cs req w in
  (∃ st, r.1 = inr st ∧ scaleVolumes r.2 = scaleVolumes w) ∨
  (∃ exVol,
     first_named (Name req) (range_order (scaleVolumes w)) = inl exVol ∧
     (VolSize exVol >= GetRequiredBytes (CapacityRange_ req))%Z ∧
     r = (inl (mkCreateVolumeResponse
                 (mkVolume (VolID exVol) (VolSize exVol) (Parameters req))), w)) ∨
  (∃ notfound vid,
     let v := set_VolIscsiVid vid (new_volume req (exec NewUUID (backend w)).1) in
     first_named (Name req) (range_order (scaleVolumes w)) = inr notfound ∧
     Name req ≠ "" ∧
     r.1 = inl (mkCreateVolumeResponse (mkVolume (VolID v) (VolSize v) (Parameters req))) ∧
     scaleVolumes r.2 = <[VolID v := v]> (scaleVolumes w) ∧
     ∃ data, json_Marshal v = inl data ∧
             files (fsys r.2) !! volInfo_file (VolID v) = Some (data +:+ String "010" "")).
Proof.
  cbv zeta.
  destruct (ValidateControllerServiceRequest (Driver_ cs) RPC_CREATE_DELETE_VOLUME)
    as [verr|] eqn:Hvalid.
  { left. unfold CreateVolume. rewrite Hvalid. by eexists. }
  destruct (decide (Name req = "")) as [Hname|Hname].
  { left. destruct (CreateVolume_noname cs req w Hname) as [st ->]. by eexists. }
  destruct (decide (VolumeCapabilities req = None)) as [Hcaps|Hcaps].
  { left. destruct (CreateVolume_incomplete cs req w Hvalid (or_intror Hcaps)) as [msg ->].
    by eexists. }
  destruct (first_named (Name req) (range_order (scaleVolumes w))) as [exVol|nf] eqn:Hfound.
  - (* the name is taken *)
    assert (Hrun : CreateVolume cs req w =
      (if (VolSize exVol >=? GetRequiredBytes (CapacityRange_ req))%Z
       then inl (mkCreateVolumeResponse
                   (mkVolume (VolID exVol) (VolSize exVol) (Parameters req)))
       else inr (status_Error AlreadyExists
                   ("Volume with the same name: " +:+ Name req +:+
                    " but with different size already exist")), w)).
    { unfold CreateVolume.
      rewrite Hvalid, len_eqb_0, bool_decide_eq_false_2 by done.
      destruct (decide (VolumeCapabilities req = None)) as [|_]; [done|].
      unfold bind, getScaleVolumeByName, bind, get_scaleVolumes, ret, GetName.
      rewrite Hfound. unfold GetCapacityRange, GetParameters.
      by destruct (VolSize exVol >=? _)%Z. }
    rewrite Hrun.
    destruct (VolSize exVol >=? GetRequiredBytes (CapacityRange_ req))%Z eqn:Hge.
    + right; left. exists exVol. split; [done|]. split; [|done].
      apply Z.geb_le in Hge. lia.
    + left. by eexists.
  - (* the name is free *)
    rewrite (CreateVolume_fresh cs req w nf Hvalid Hname Hcaps Hfound).
    rewrite extern_eq. cbv zeta.
    set (uniqueID := (exec NewUUID (backend w)).1).
    set (w1 := mkWorld _ _ _ _).
    set (v := new_volume req uniqueID).
    pose proof (createScaleImage_admin_only v (VolSize v ÷ 1024 ÷ 1024) w1) as Hframe.
    destruct (createScaleImage_record v (VolSize v ÷ 1024 ÷ 1024) w1) as [vid Hv'].
    destruct (createScaleImage v _ w1) as [[v' cerr] w2] eqn:Hcreate.
    cbn [fst snd] in Hv', Hframe. destruct Hframe as (Hreg2 & _).
    change (scaleVolumes w1) with (scaleVolumes w) in Hreg2.
    destruct cerr as [err|].
    { left. eexists. split; [done|]. exact Hreg2. }
    pose proof (persistVolInfo_frame (VolID v) (path_Join [PluginFolder; "controller"]) v' w2)
      as Hpf.
    cbv zeta in Hpf.
    destruct (persistVolInfo _ _ v' w2) as [perr w3] eqn:Hpersist.
    destruct Hpf as (Hreg3 & _). cbn [snd] in Hreg3.
    destruct perr as [err|].
    { left. eexists. split; [done|]. cbn [snd]. by rewrite Hreg3. }
    right; right. exists nf, vid. cbv zeta. fold uniqueID. fold v. rewrite <- Hv'.
    assert (Hid : VolID v' = VolID v) by (rewrite Hv'; by destruct v).
    assert (Hsz : VolSize v' = VolSize v) by (rewrite Hv'; by destruct v).
    rewrite Hid, Hsz. split; [done|]. split; [done|]. split; [done|]. split.
    + unfold with_volume. cbn [snd scaleVolumes]. by rewrite Hreg3, Hreg2.
    + destruct (persistVolInfo_ok _ _ _ _ _ Hpersist) as (data & Hdata & Hfiles & _).
      exists data. split; [done|]. unfold with_volume, volInfo_file. cbn [snd fsys].
      rewrite Hfiles. apply lookup_insert_eq.
Qed.
End Outcomes_of_CreateVolume.

Section Registry_properties.
Context {B : Type} `{!Backend B} `{!Platform} {D : Type} `{!Driver D}.

(** A name that is not found is carried by no visited record. *)
Lemma first_named_notfound (name : string) (vols : list (string * scaleVolume))
    (err : error) :
  first_named name vols = inr err → ∀ id r, (id, r) ∈ vols → VolName r ≠ name.
Proof.
  induction vols as [|[id0 r0] vols IH]; cbn; intros Hnf id r Hin.
  - by apply elem_of_nil in Hin.
  - destruct (decide (VolName r0 = name)) as [|Hne]; [discriminate|].
    apply elem_of_cons in Hin as [[= -> ->]|Hin]; [done|]. by apply (IH Hnf id).
Qed.

(** A name that some visited record carries is found. *)
Lemma first_named_exists (name : string) (vols : list (string * scaleVolume))
    (id : string) (r : scaleVolume) :
  (id, r) ∈ vols → VolName r = name → ∃ v, first_named name vols = inl v.
Proof.
  intros Hin Hname. destruct (first_named name vols) as [v|err] eqn:Hf; [by eexists|].
  by destruct (first_named_notfound _ _ _ Hf id r Hin).
Qed.

(** X6. getScaleVolumeByName, on a registry whose records range visits
    each once, answers a record only if the registry holds it under some
    identifier and it carries the name, and answers an error only if no
    record of the registry carries the name; it changes nothing. *)
Theorem getScaleVolumeByName_sound_and_complete (volName : string) (w : World B) :
  range_order (scaleVolumes w) ≡ₚ map_to_list (scaleVolumes w) →
  (getScaleVolumeByName volName w).2 = w ∧
  match (getScaleVolumeByName volName w).1 with
  | inl v => VolName v = volName ∧ ∃ id, scaleVolumes w !! id = Some v
  | inr _ => fresh_name volName (scaleVolumes w)
  end.
Proof.
  intros Horder. split; [reflexivity|].
  unfold getScaleVolumeByName, bind, get_scaleVolumes, ret. cbn [fst].
  destruct (first_named volName (range_order (scaleVolumes w))) as [v|err] eqn:Hf.
  - destruct (first_named_found _ _ _ Hf) as (Hname & id & Hin). split; [done|].
    exists id. rewrite Horder in Hin. by apply elem_of_map_to_list in Hin.
  - intros id r Hin. apply (first_named_notfound _ _ _ Hf id).
    rewrite Horder. by apply elem_of_map_to_list.
Qed.

(** A [CreateVolume] that answers a volume has passed the checks. *)
Lemma CreateVolume_answered (cs : ScaleControllerServer D) (req : CreateVolumeRequest)
    (w w' : World B) (resp : CreateVolumeResponse) :
  CreateVolume cs req w = (inl resp, w') →
  ValidateControllerServiceRequest (Driver_ cs) RPC_CREATE_DELETE_VOLUME = None ∧
  Name req ≠ "" ∧ VolumeCapabilities req ≠ None.
Proof.
  intros Hrun.
  assert (Hvalid : ValidateControllerServiceRequest (Driver_ cs)
                     RPC_CREATE_DELETE_VOLUME = None).
  { unfold CreateVolume in Hrun. by destruct (ValidateControllerServiceRequest _ _). }
  split; [done|]. split.
  - intros He. destruct (CreateVolume_noname cs req w He) as [st Hst]. congruence.
  - intros He. destruct (CreateVolume_incomplete cs req w Hvalid (or_intror He))
      as [msg Hst]. congruence.
Qed.

(** X7. A CreateVolume that fails, at whatever step, leaves the registry
    as it was, and one that answers a volume changes no entry of the
    registry but the one of the identifier it answers. *)
Theorem CreateVolume_touches_one_entry (cs : ScaleControllerServer D)
    (req : CreateVolumeRequest) (w : World B) :
  let r := CreateVolume cs req w in
  (∀ st, r.1 = inr st → scaleVolumes r.2 = scaleVolumes w) ∧
  (∀ resp id, r.1 = inl resp → id ≠ VolumeId (Volume_ resp) →
              scaleVolumes r.2 !! id = scaleVolumes w !! id).
Proof.
  cbv zeta.
  destruct (CreateVolume_outcome cs req w)
    as [(st & Hst & Hreg)|[(exVol & _ & _ & Hrun)|(nf & vid & _ & _ & Hres & Hreg & _)]].
  - split; [done|]. intros resp id Hresp. congruence.
  - rewrite Hrun. cbn [fst snd]. split; [done|]. done.
  - split; [intros st Hst; congruence|].
    intros resp id Hresp Hne. rewrite Hreg. rewrite Hres in Hresp.
    injection Hresp as <-. cbn [Volume_ VolumeId] in Hne.
    by rewrite lookup_insert_ne.
Qed.

(** X8. Repeating a CreateVolume request that has just created a volume
    for a fresh name answers the same identifier and the same size again
    and changes nothing: no call leaves the package, no file and no registry
    entry changes. *)
Theorem CreateVolume_idempotent (cs : ScaleControllerServer D)
    (req : CreateVolumeRequest) (w w' : World B) (resp : CreateVolumeResponse) :
  (∀ m, range_order m ≡ₚ map_to_list m) →
  fresh_name (Name req) (scaleVolumes w) →
  CreateVolume cs req w = (inl resp, w') →
  CreateVolume cs req w' = (inl resp, w').
Proof.
  intros Horder Hfresh Hrun.
  destruct (CreateVolume_answered cs req w w' resp Hrun) as (Hvalid & Hname & Hcaps).
  destruct (CreateVolume_outcome cs req w)
    as [(st & Hst & _)|[(exVol & Hfound & _)|(nf & vid & Hnf & _ & Hres & Hreg & _)]].
  { rewrite Hrun in Hst. discriminate. }
  { destruct (first_named_found _ _ _ Hfound) as (Hn & id & Hin).
    rewrite Horder in Hin. apply elem_of_map_to_list in Hin.
    by destruct (Hfresh id exVol Hin). }
  cbv zeta in Hres, Hreg. rewrite Hrun in Hres, Hreg. cbn [fst snd] in Hres, Hreg.
  set (v := set_VolIscsiVid vid (new_volume req (exec NewUUID (backend w)).1)) in *.
  injection Hres as ->.
  (* the repeated request finds the record just inserted *)
  assert (Hvname : VolName v = Name req) by reflexivity.
  destruct (first_named_exists (Name req) (range_order (scaleVolumes w')) (VolID v) v)
    as [x Hx]; [|done|].
  { rewrite Horder. apply elem_of_map_to_list. rewrite Hreg. apply lookup_insert_eq. }
  assert (x = v) as ->.
  { destruct (first_named_found _ _ _ Hx) as (Hxn & id & Hin).
    rewrite Horder in Hin. apply elem_of_map_to_list in Hin. rewrite Hreg in Hin.
    destruct (decide (VolID v = id)) as [Heq|Hne].
    - rewrite <- Heq, lookup_insert_eq in Hin. congruence.
    - rewrite lookup_insert_ne in Hin by done. by destruct (Hfresh id x Hin). }
  destruct (CreateVolume_outcome cs req w')
    as [(st & Hst & _)|[(exVol & Hfound & _ & Hrun')|(nf' & _ & Hnf' & _)]].
  - (* an error is excluded: the stored size covers the required bytes *)
    exfalso. unfold CreateVolume in Hst.
    rewrite Hvalid, len_eqb_0, bool_decide_eq_false_2 in Hst by done.
    destruct (decide (VolumeCapabilities req = None)) as [|_]; [done|].
    unfold bind, getScaleVolumeByName, bind, get_scaleVolumes, ret, GetName in Hst.
    rewrite Hx in Hst.
    assert (Hge : (VolSize v >=? GetRequiredBytes (GetCapacityRange req))%Z = true).
    { apply Z.geb_le. unfold GetCapacityRange. subst v. cbn.
      destruct (CapacityRange_ req) as [r|]; cbn; lia. }
    rewrite Hge in Hst. discriminate.
  - rewrite Hx in Hfound. injection Hfound as <-. exact Hrun'.
  - cbv zeta in Hnf'. congruence.
Qed.
End Registry_properties.

Section Outcomes_of_DeleteVolume.
Context {B : Type} `{!Backend B} `{!Platform} {D : Type} `{!Driver D}.

(** [DeleteVolume] without the metadata file of the identifier. *)
Lemma DeleteVolume_no_file (cs : ScaleControllerServer D) (req : DeleteVolumeRequest)
    (w : World B) :
  ValidateControllerServiceRequest (Driver_ cs) RPC_CREATE_DELETE_VOLUME = None →
  files (fsys w) !! volInfo_file (GetVolumeId req) = None →
  ∃ msg, DeleteVolume cs req w =
         (inr (status_Error Internal msg),
          record_call (OsOpen (volInfo_file (GetVolumeId req))) w).
Proof.
  intros Hvalid Hnone. unfold DeleteVolume. rewrite Hvalid.
  unfold bind at 1. rewrite loadVolInfo_eq. cbv zeta.
  unfold volInfo_file in Hnone. rewrite Hnone. by eexists.
Qed.

(** The outcomes of [DeleteVolume]: an error with the registry as it was,
    or success with the metadata file, which existed, removed and the
    identifier deleted from the registry. *)
Lemma DeleteVolume_outcome (cs : ScaleControllerServer D) (req : DeleteVolumeRequest)
    (w : World B) :
  let r := DeleteVolume cs req w in
  (∃ st, r.1 = inr st ∧ scaleVolumes r.2 = scaleVolumes w) ∨
  (r.1 = inl mkDeleteVolumeResponse ∧
   scaleVolumes r.2 = delete (GetVolumeId req) (scaleVolumes w) ∧
   files (fsys r.2) = delete (volInfo_file (GetVolumeId req)) (files (fsys w)) ∧
   is_Some (files (fsys w) !! volInfo_file (GetVolumeId req))).
Proof.
  cbv zeta.
  destruct (ValidateControllerServiceRequest (Driver_ cs) RPC_CREATE_DELETE_VOLUME)
    as [verr|] eqn:Hvalid.
  { left. unfold DeleteVolume. rewrite Hvalid. by eexists. }
  destruct (files (fsys w) !! volInfo_file (GetVolumeId req)) as [data|] eqn:Hfile.
  2: { left. destruct (DeleteVolume_no_file cs req w Hvalid Hfile) as [msg ->].
       by eexists. }
  destruct (loadVolInfo (GetVolumeId req) (path_Join [PluginFolder; "controller"])
              zero_scaleVolume w) as [[v lerr] w1] eqn:Hload.
  assert (Hw1 : w1 = record_call (OsOpen (volInfo_file (GetVolumeId req))) w).
  { rewrite loadVolInfo_eq in Hload. cbv zeta in Hload. by injection Hload. }
  destruct lerr as [err|].
  { left.
    assert (Hrun : DeleteVolume cs req w =
                   (inr (status_Error Internal ("failed to load volInfo: " +:+ Error err)),
                    w1)).
    { unfold DeleteVolume. rewrite Hvalid. unfold bind at 1. by rewrite Hload. }
    rewrite Hrun, Hw1. by eexists. }
  destruct (deleteScaleImage v w1) as [derr w2] eqn:Hdel.
  destruct (DeleteVolume_teardown_and_removal cs req w w1 v derr w2 Hvalid Hload Hdel)
    as [Hfail Hok].
  destruct derr as [err|].
  { left. destruct (Hfail err eq_refl) as ([msg ->] & _ & Hreg). by eexists. }
  destruct (deleteVolInfo (GetVolumeId req) (path_Join [PluginFolder; "controller"]) w2)
    as [verr w3] eqn:Hrm.
  destruct (Hok eq_refl verr w3 eq_refl) as (Hreg3 & Hvfail & Hvok).
  destruct verr as [err|].
  { left. destruct (Hvfail err eq_refl) as ([msg ->] & _). by eexists. }
  right. destruct (Hvok eq_refl) as (-> & Hfiles & Hreg). cbn [fst snd].
  split; [done|]. split; [done|]. split; [done|]. by eexists.
Qed.
End Outcomes_of_DeleteVolume.

Section Lifecycle_properties.
Context {B : Type} `{!Backend B} `{!Platform} {D : Type} `{!Driver D}.

(** X9. The controller keeps the registry well formed: when every record
    is stored under its own identifier and no two entries carry the same
    name, the same holds after any CreateVolume and after any
    DeleteVolume, whatever their outcome. *)
Theorem registry_invariants_preserved (cs : ScaleControllerServer D)
    (creq : CreateVolumeRequest) (dreq : DeleteVolumeRequest) (w : World B) :
  range_order (scaleVolumes w) ≡ₚ map_to_list (scaleVolumes w) →
  keyed_by_VolID (scaleVolumes w) →
  unique_names (scaleVolumes w) →
  (keyed_by_VolID (scaleVolumes (CreateVolume cs creq w).2) ∧
   unique_names (scaleVolumes (CreateVolume cs creq w).2)) ∧
  (keyed_by_VolID (scaleVolumes (DeleteVolume cs dreq w).2) ∧
   unique_names (scaleVolumes (DeleteVolume cs dreq w).2)).
Proof.
  intros Horder Hkey Huniq. split.
  - destruct (CreateVolume_outcome cs creq w)
      as [(st & _ & ->)|[(exVol & _ & _ & ->)|(nf & vid & Hnf & _ & _ & -> & _)]];
      [done|done|].
    set (v := set_VolIscsiVid vid (new_volume creq (exec NewUUID (backend w)).1)).
    assert (Hfresh : ∀ id r, scaleVolumes w !! id = Some r → VolName r ≠ VolName v).
    { intros id r Hin. apply (first_named_notfound _ _ _ Hnf id).
      rewrite Horder. by apply elem_of_map_to_list. }
    split.
    + intros id x Hin. destruct (decide (VolID v = id)) as [Heq|Hne].
      * rewrite <- Heq, lookup_insert_eq in Hin. congruence.
      * rewrite lookup_insert_ne in Hin by done. by apply Hkey.
    + intros id1 id2 v1 v2 H1 H2 Hn.
      destruct (decide (VolID v = id1)) as [E1|N1];
        destruct (decide (VolID v = id2)) as [E2|N2].
      * congruence.
      * rewrite <- E1, lookup_insert_eq in H1. rewrite lookup_insert_ne in H2 by done.
        injection H1 as <-. by destruct (Hfresh id2 v2 H2).
      * rewrite <- E2, lookup_insert_eq in H2. rewrite lookup_insert_ne in H1 by done.
        injection H2 as <-. by destruct (Hfresh id1 v1 H1).
      * rewrite lookup_insert_ne in H1, H2 by done. by apply (Huniq id1 id2 v1 v2).
  - destruct (DeleteVolume_outcome cs dreq w) as [(st & _ & ->)|(_ & -> & _)]; [done|].
    split.
    + intros id x Hin. apply lookup_delete_Some in Hin as [_ Hin]. by apply Hkey.
    + intros id1 id2 v1 v2 H1 H2 Hn.
      apply lookup_delete_Some in H1 as [_ H1]. apply lookup_delete_Some in H2 as [_ H2].
      by apply (Huniq id1 id2 v1 v2).
Qed.

(** X10. DeleteVolume of an identifier that has no metadata file answers
    INTERNAL after the one attempt to open the file: no teardown call is
    made and nothing changes, also when the registry holds an entry for
    the identifier. *)
Theorem DeleteVolume_unknown_identifier (cs : ScaleControllerServer D)
    (req : DeleteVolumeRequest) (w : World B) :
  ValidateControllerServiceRequest (Driver_ cs) RPC_CREATE_DELETE_VOLUME = None →
  files (fsys w) !! volInfo_file (GetVolumeId req) = None →
  ∃ msg, DeleteVolume cs req w =
         (inr (status_Error Internal msg),
          record_call (OsOpen (volInfo_file (GetVolumeId req))) w).
Proof. apply DeleteVolume_no_file. Qed.

(** X11. DeleteVolume is not idempotent: after a DeleteVolume that
    succeeded, the same request answers INTERNAL, for the metadata file is
    gone; that second call makes no teardown call and changes neither the
    registry nor the files. *)
Theorem DeleteVolume_twice (cs : ScaleControllerServer D) (req : DeleteVolumeRequest)
    (w w' : World B) (resp : DeleteVolumeResponse) :
  DeleteVolume cs req w = (inl resp, w') →
  ∃ msg, DeleteVolume cs req w' =
         (inr (status_Error Internal msg),
          record_call (OsOpen (volInfo_file (GetVolumeId req))) w').
Proof.
  intros Hrun.
  assert (Hvalid : ValidateControllerServiceRequest (Driver_ cs)
                     RPC_CREATE_DELETE_VOLUME = None).
  { unfold DeleteVolume in Hrun. by destruct (ValidateControllerServiceRequest _ _). }
  apply (DeleteVolume_no_file cs req w' Hvalid).
  destruct (DeleteVolume_outcome cs req w) as [(st & Hst & _)|(_ & _ & Hfiles & _)].
  - rewrite Hrun in Hst. discriminate.
  - rewrite Hrun in Hfiles. cbn [snd] in Hfiles. rewrite Hfiles. apply lookup_delete_eq.
Qed.

(** X12. Deleting what was created: after a CreateVolume that created a
    volume for a fresh name, DeleteVolume of the answered identifier loads
    the record that was persisted (the JSON library decoding what it
    encoded) and starts the teardown of that very identifier, by the unlink
    of the fileset for a fileset volume and by the deletion of the file
    system otherwise; if it succeeds, the metadata file is gone, the
    registry holds the identifier no more and resolves the name no more. *)
Theorem create_then_delete (cs : ScaleControllerServer D) (req : CreateVolumeRequest)
    (w w' : World B) (resp : CreateVolumeResponse) :
  range_order (scaleVolumes w) ≡ₚ map_to_list (scaleVolumes w) →
  fresh_name (Name req) (scaleVolumes w) →
  CreateVolume cs req w = (inl resp, w') →
  (∀ v data, scaleVolumes w' !! VolumeId (Volume_ resp) = Some v →
             json_Marshal v = inl data →
             json_Decode (data +:+ String "010" "") zero_scaleVolume = (v, None)) →
  let volumeID := VolumeId (Volume_ resp) in
  let backendFs := index (Parameters req) "volBackendFs" in
  let d := DeleteVolume cs (mkDeleteVolumeRequest volumeID) w' in
  (∃ calls, trace d.2 =
            trace w' ++ OsOpen (volInfo_file volumeID)
              :: (if decide (backendFs ≠ "")
                  then UnlinkFSet (fsName_of backendFs) volumeID
                  else DeleteFS volumeID) :: calls) ∧
  (∀ dresp, d.1 = inl dresp →
     files (fsys d.2) !! volInfo_file volumeID = None ∧
     scaleVolumes d.2 !! volumeID = None ∧
     fresh_name (Name req) (scaleVolumes d.2)).
Proof.
  intros Horder Hfresh Hrun Hcodec. cbv zeta.
  destruct (CreateVolume_answered cs req w w' resp Hrun) as (Hvalid & Hname & Hcaps).
  destruct (CreateVolume_outcome cs req w)
    as [(st & Hst & _)|[(exVol & Hfound & _)
                       |(nf & vid & Hnf & _ & Hres & Hreg & data & Hdata & Hfile)]].
  { rewrite Hrun in Hst. discriminate. }
  { destruct (first_named_found _ _ _ Hfound) as (Hn & id & Hin).
    rewrite Horder in Hin. apply elem_of_map_to_list in Hin.
    by destruct (Hfresh id exVol Hin). }
  cbv zeta in Hres, Hreg, Hdata, Hfile. rewrite Hrun in Hres, Hreg, Hfile.
  cbn [fst snd] in Hres, Hreg, Hfile.
  set (v := set_VolIscsiVid vid (new_volume req (exec NewUUID (backend w)).1)) in *.
  assert (Hvfs : VolBackendFs v = index (Parameters req) "volBackendFs") by reflexivity.
  clearbody v.
  injection Hres as ->. cbn [Volume_ VolumeId] in Hcodec |- *.
  assert (Hstored : scaleVolumes w' !! VolID v = Some v)
    by (rewrite Hreg; apply lookup_insert_eq).
  set (dreq := mkDeleteVolumeRequest (VolID v)).
  (* the record loads *)
  assert (Hload : loadVolInfo (GetVolumeId dreq) (path_Join [PluginFolder; "controller"])
                    zero_scaleVolume w' =
                  ((v, None), record_call (OsOpen (volInfo_file (VolID v))) w')).
  { rewrite loadVolInfo_eq. cbv zeta. unfold volInfo_file in Hfile.
    change (GetVolumeId dreq) with (VolID v). rewrite Hfile.
    by rewrite (Hcodec v data Hstored Hdata). }
  set (w1 := record_call (OsOpen (volInfo_file (VolID v))) w') in *.
  split.
  - rewrite (DeleteVolume_loaded cs dreq w' w1 v Hvalid Hload).
    destruct (deleteScaleImage_opening_call v w1) as [calls Hopen].
    assert (Hfirst : (match select_strategy (VolBackendFs v) (VolIscsi v) with
                      | Fileset => UnlinkFSet (last_elem (strings_Split (VolBackendFs v) "/"))
                                              (VolID v)
                      | _ => DeleteFS (VolID v)
                      end) =
                     (if decide (index (Parameters req) "volBackendFs" ≠ "")
                      then UnlinkFSet (fsName_of (index (Parameters req) "volBackendFs"))
                                      (VolID v)
                      else DeleteFS (VolID v))).
    { unfold select_strategy, fsName_of. rewrite Hvfs.
      destruct (decide (index (Parameters req) "volBackendFs" ≠ "")); [done|].
      by destruct (VolIscsi v). }
    rewrite Hfirst in Hopen. clear Hfirst.
    destruct (deleteScaleImage v w1) as [[err|] w2].
    { exists calls. cbn [snd] in *. rewrite Hopen. subst w1. cbn [record_call trace].
      by rewrite <- app_assoc. }
    pose proof (deleteVolInfo_frame (GetVolumeId dreq)
                  (path_Join [PluginFolder; "controller"]) w2) as Hvf.
    cbv zeta in Hvf.
    destruct (deleteVolInfo _ _ w2) as [verr w3]. destruct Hvf as (_ & _ & Ht3).
    cbn [snd] in Ht3, Hopen.
    exists (calls ++ [OsRemove (path_Join [path_Join [PluginFolder; "controller"];
                                           GetVolumeId dreq +:+ ".json"])]).
    assert (Ht : trace w3 = trace w' ++ OsOpen (volInfo_file (VolID v))
                   :: (if decide (index (Parameters req) "volBackendFs" ≠ "")
                       then UnlinkFSet (fsName_of (index (Parameters req) "volBackendFs"))
                                       (VolID v)
                       else DeleteFS (VolID v))
                   :: calls ++ [OsRemove (path_Join [path_Join [PluginFolder; "controller"];
                                                     GetVolumeId dreq +:+ ".json"])]).
    { rewrite Ht3, Hopen. subst w1. cbn [record_call trace].
      by rewrite <- !app_assoc. }
    by destruct verr.
  - intros dresp Hd.
    destruct (DeleteVolume_outcome cs dreq w') as [(st & Hst & _)|(_ & Hdreg & Hdfiles & _)].
    { rewrite Hd in Hst. discriminate. }
    change (GetVolumeId dreq) with (VolID v) in Hdreg, Hdfiles.
    rewrite Hdfiles, Hdreg. split; [apply lookup_delete_eq|].
    split; [apply lookup_delete_eq|].
    intros id r Hin. apply lookup_delete_Some in Hin as [Hne Hin].
    rewrite Hreg, lookup_insert_ne in Hin by done. by apply (Hfresh id r).
Qed.
End Lifecycle_properties.

Section Metadata_isolation.
Context {B : Type} `{!Backend B} `{!Platform}.

(** X13. The metadata files are independent of each other: persistVolInfo
    and deleteVolInfo of an identifier leave every file but the one of that
    identifier as it was, whether they succeed or fail, and loadVolInfo
    changes no file at all. *)
Theorem metadata_files_independent (image dir file : string) (volInfo : scaleVolume)
    (w : World B) :
  file ≠ path_Join [dir; image +:+ ".json"] →
  files (fsys (persistVolInfo image dir volInfo w).2) !! file = files (fsys w) !! file ∧
  files (fsys (deleteVolInfo image dir w).2) !! file = files (fsys w) !! file ∧
  fsys (loadVolInfo image dir volInfo w).2 = fsys w.
Proof.
  intros Hne. split; [|split].
  - rewrite persistVolInfo_eq. cbv zeta. unfold fs_Create.
    destruct (decide (_ ∈ write_protected (fsys w))); [done|].
    destruct (json_Marshal volInfo); cbn.
    + by rewrite !lookup_insert_ne.
    + by rewrite lookup_insert_ne.
  - rewrite deleteVolInfo_eq. cbv zeta. unfold fs_Remove.
    destruct (files (fsys w) !! path_Join _) as [data|]; [|done].
    destruct (decide (_ ∈ write_protected (fsys w))); [done|].
    cbn. by rewrite lookup_delete_ne.
  - by rewrite loadVolInfo_eq.
Qed.
End Metadata_isolation.

Section Provisioning_sequences.
Context {B : Type} `{!Backend B} `{!Platform}.

(** X14. For a record with a backing file-system path, createScaleImage
    creates the fileset named by the volume identifier in the file system
    named by the last component of the path and then links it at
    path/identifier: when the creation fails the link is not attempted, the
    error of the failing call is answered unchanged, and the record is not
    written. The size is not used. *)
Theorem createScaleImage_fileset (pOpts : scaleVolume) (volSzMb : Z) (w : World B) :
  VolBackendFs pOpts ≠ "" →
  let fsName := fsName_of (VolBackendFs pOpts) in
  let create := CreateFSet fsName (VolID pOpts) in
  let link := LinkFSet fsName (VolID pOpts) (VolBackendFs pOpts +:+ "/" +:+ VolID pOpts) in
  let r := createScaleImage pOpts volSzMb w in
  r.1.1 = pOpts ∧
  match (exec create (backend w)).1 with
  | Some err => r.1.2 = Some err ∧ trace r.2 = trace w ++ [create]
  | None =>
      r.1.2 = (exec link (exec create (backend w)).2).1 ∧
      trace r.2 = trace w ++ [create; link]
  end.
Proof.
  intros Hfs. cbv zeta. unfold createScaleImage, fsName_of.
  rewrite len_gtb_0, bool_decide_eq_true_2 by done.
  unfold bind. rewrite extern_eq.
  destruct (exec (CreateFSet _ _) (backend w)) as [[err|] b1]; run_pure; [done|].
  rewrite extern_eq. run_pure.
  destruct (exec (LinkFSet _ _ _) b1) as [[err|] b2]; run_pure;
    by rewrite <- app_assoc.
Qed.

(** The attach loop that succeeds has attached every node, in order, and
    leaves the administrative layer as these calls left it. *)
Lemma attach_to_nodes_ok (pbVol : PbVolume) (ns : list string) (w w' : World B) :
  attach_to_nodes pbVol ns w = (None, w') →
  trace w' = trace w ++ map (AttachIscsiDevicesToNode (Iphost pbVol) (Iqn pbVol)) ns ∧
  backend w' =
    after_calls (map (AttachIscsiDevicesToNode (Iphost pbVol) (Iqn pbVol)) ns) (backend w).
Proof.
  revert w. induction ns as [|node ns IH]; intros w; cbn [attach_to_nodes map].
  - intros [= <-]. by rewrite app_nil_r.
  - unfold bind. rewrite extern_eq.
    unfold after_calls. cbn [fold_left].
    destruct (exec (AttachIscsiDevicesToNode _ _ node) (backend w)) as [[err|] b1];
      run_pure; [discriminate|].
    intros Hrest. destruct (IH _ Hrest) as [Htrace Hbackend].
    rewrite Htrace, Hbackend. cbn [trace backend snd]. by rewrite <- app_assoc.
Qed.

(** X15. For a record without backing path and with the flag VolIscsi,
    once the iSCSI volume is created its identifier is written into the
    record, whether or not the later steps succeed; a createScaleImage that
    succeeds has created the volume with the given size in MB, attached it
    to fin27p, fin31p and fin57p in that order, resolved the device path
    for the decimal LUN, created the NSD over fin31p: followed by the very
    path the iSCSI layer answered to that resolution, and the file system
    over the NSD, all named by the volume identifier. *)
Theorem createScaleImage_iscsi (pOpts : scaleVolume) (volSzMb : Z) (w : World B)
    (pbVol : PbVolume) (b1 : B) :
  VolBackendFs pOpts = "" →
  VolIscsi pOpts = true →
  exec (IscsiCreateVolume (VolID pOpts) volSzMb) (backend w) = (inl pbVol, b1) →
  let r := createScaleImage pOpts volSzMb w in
  let attach := AttachIscsiDevicesToNode (Iphost pbVol) (Iqn pbVol) in
  let resolve := IscsiGetDevicePath (Iphost pbVol) (Iqn pbVol) (pretty (Lun pbVol)) in
  let device : string :=
    (exec resolve (after_calls [attach "fin27p"; attach "fin31p"; attach "fin57p"] b1)).1 in
  r.1.1 = set_VolIscsiVid (Vid_Val pbVol) pOpts ∧
  (r.1.2 = None →
   trace r.2 = trace w ++
     [IscsiCreateVolume (VolID pOpts) volSzMb;
      attach "fin27p"; attach "fin31p"; attach "fin57p";
      resolve;
      CreateNSD (VolID pOpts) ("fin31p:" +:+ device);
      CreateFS (VolID pOpts) (VolID pOpts)]).
Proof.
  intros Hfs Hiscsi Hvol. cbv zeta. unfold createScaleImage.
  rewrite len_gtb_0, Hfs, bool_decide_eq_false_2 by (intros Hne; by apply Hne).
  rewrite Hiscsi. unfold bind. rewrite extern_eq, Hvol. run_pure.
  set (w1 := mkWorld _ _ _ _).
  destruct (attach_to_nodes pbVol nodes w1) as [[err|] w2] eqn:Hattach; run_pure.
  { split; [done|discriminate]. }
  apply attach_to_nodes_ok in Hattach as [Hattach Hb2].
  rewrite extern_eq. run_pure.
  assert (backend w2 =
          after_calls [AttachIscsiDevicesToNode (Iphost pbVol) (Iqn pbVol) "fin27p";
                       AttachIscsiDevicesToNode (Iphost pbVol) (Iqn pbVol) "fin31p";
                       AttachIscsiDevicesToNode (Iphost pbVol) (Iqn pbVol) "fin57p"] b1)
    as <- by (rewrite Hb2; reflexivity).
  destruct (exec (IscsiGetDevicePath _ _ _) (backend w2)) as [device b3]. run_pure.
  rewrite extern_eq. run_pure.
  destruct (exec (CreateNSD _ _) b3) as [[err|] b4]; run_pure.
  { split; [done|discriminate]. }
  rewrite extern_eq. run_pure.
  destruct (exec (CreateFS _ _) b4) as [[err|] b5]; run_pure.
  { split; [done|discriminate]. }
  split; [done|]. intros _.
  rewrite Hattach. subst w1. cbn [trace nodes map]. by rewrite <- !app_assoc.
Qed.

(** X16. For a record with a backing file-system path, deleteScaleImage
    unlinks the fileset named by the volume identifier and then deletes
    it: when the unlink fails the deletion is not attempted, and the error
    of the failing call is answered unchanged; no file system, NSD or iSCSI
    volume is touched. *)
Theorem deleteScaleImage_fileset (pOpts : scaleVolume) (w : World B) :
  VolBackendFs pOpts ≠ "" →
  let fsName := fsName_of (VolBackendFs pOpts) in
  let unlink := UnlinkFSet fsName (VolID pOpts) in
  let del := DeleteFSet fsName (VolID pOpts) in
  let r := deleteScaleImage pOpts w in
  match (exec unlink (backend w)).1 with
  | Some err => r.1 = Some err ∧ trace r.2 = trace w ++ [unlink]
  | None =>
      r.1 = (exec del (exec unlink (backend w)).2).1 ∧
      trace r.2 = trace w ++ [unlink; del]
  end.
Proof.
  intros Hfs. cbv zeta. unfold deleteScaleImage, fsName_of.
  rewrite len_gtb_0, bool_decide_eq_true_2 by done.
  unfold bind. rewrite extern_eq.
  destruct (exec (UnlinkFSet _ _) (backend w)) as [[err|] b1]; run_pure; [done|].
  rewrite extern_eq. run_pure.
  destruct (exec (DeleteFSet _ _) b1) as [[err|] b2]; run_pure;
    by rewrite <- app_assoc.
Qed.

(** X17. The size handed to createScaleImage reaches the iSCSI layer
    only: for a record the rule sends to the fileset or to the raw-device
    strategy, createScaleImage does the same whatever the size, so the
    requested capacity bounds nothing there. *)
Theorem createScaleImage_ignores_size (pOpts : scaleVolume) (mb1 mb2 : Z) (w : World B) :
  select_strategy (VolBackendFs pOpts) (VolIscsi pOpts) ≠ NetworkBlockDevice →
  createScaleImage pOpts mb1 w = createScaleImage pOpts mb2 w.
Proof.
  unfold select_strategy, createScaleImage. rewrite len_gtb_0.
  destruct (decide (VolBackendFs pOpts ≠ "")).
  - by rewrite bool_decide_eq_true_2 by done.
  - rewrite bool_decide_eq_false_2 by done. by destruct (VolIscsi pOpts).
Qed.
End Provisioning_sequences.

Section Create_dispatch.
Context {B : Type} `{!Backend B} `{!Platform} {D : Type} `{!Driver D}.

(** X18. createScaleImage dispatches by the path and the flag alone, and
    every record gets exactly one strategy: whatever the administrative
    layer answers, the first call is the creation of the fileset when the
    record has a backing path, else the creation of the iSCSI volume when
    the flag is set, else the pick of a raw device. *)
Theorem createScaleImage_dispatch (pOpts : scaleVolume) (volSzMb : Z) (w : World B) :
  ∃ calls, trace (createScaleImage pOpts volSzMb w).2 =
           trace w ++
           (if decide (VolBackendFs pOpts ≠ "")
            then CreateFSet (fsName_of (VolBackendFs pOpts)) (VolID pOpts)
            else if VolIscsi pOpts then IscsiCreateVolume (VolID pOpts) volSzMb
            else PickNextRawDevice) :: calls.
Proof.
  destruct (createScaleImage_opening_call pOpts volSzMb w) as [calls Hopen].
  exists calls. rewrite Hopen. unfold opening_call, select_strategy, fsName_of.
  destruct (decide (VolBackendFs pOpts ≠ "")); [done|]. by destruct (VolIscsi pOpts).
Qed.

(** X19. For a request that selects the iSCSI strategy, CreateVolume
    asks the iSCSI layer for the size in bytes divided by 1048576 and
    truncated, where the size is the required bytes of the capacity range,
    or 1 GiB without one: a request of less than 1 MiB asks for a volume
    of 0 MB. *)
Theorem CreateVolume_iscsi_size_in_MB (cs : ScaleControllerServer D)
    (req : CreateVolumeRequest) (w : World B) (notfound : error) :
  ValidateControllerServiceRequest (Driver_ cs) RPC_CREATE_DELETE_VOLUME = None →
  Name req ≠ "" →
  VolumeCapabilities req ≠ None →
  (getScaleVolumeByName (Name req) w).1 = inr notfound →
  index (Parameters req) "volBackendFs" = "" →
  (strconv_ParseBool (index (Parameters req) "volIscsi")).1 = true →
  let size := match CapacityRange_ req with
              | Some r => RequiredBytes r
              | None => 1073741824
              end in
  (∃ calls, trace (CreateVolume cs req w).2 =
            trace w ++ NewUUID
              :: IscsiCreateVolume (exec NewUUID (backend w)).1 (size ÷ 1048576) :: calls) ∧
  ((0 <= size < 1048576)%Z → size ÷ 1048576 = 0).
Proof.
  intros Hvalid Hname Hcaps Hfresh Hfs Hiscsi. cbv zeta. split.
  2: { intros Hsmall. by apply Z.quot_small. }
  rewrite (CreateVolume_fresh cs req w notfound Hvalid Hname Hcaps Hfresh).
  rewrite extern_eq. cbv zeta.
  set (uniqueID := (exec NewUUID (backend w)).1).
  set (w1 := mkWorld _ _ _ _).
  set (v := new_volume req uniqueID).
  assert (Hmb : VolSize v ÷ 1024 ÷ 1024 =
                match CapacityRange_ req with
                | Some r => RequiredBytes r
                | None => 1073741824
                end ÷ 1048576).
  { change (VolSize v) with (match CapacityRange_ req with
                             | Some r => RequiredBytes r
                             | None => 1073741824
                             end).
    by rewrite Z.quot_quot by done. }
  destruct (createScaleImage_opening_call v (VolSize v ÷ 1024 ÷ 1024) w1) as [calls Hopen].
  assert (Hcall : opening_call v (VolSize v ÷ 1024 ÷ 1024) =
                  IscsiCreateVolume uniqueID (VolSize v ÷ 1024 ÷ 1024)).
  { unfold opening_call, select_strategy.
    change (VolBackendFs v) with (index (Parameters req) "volBackendFs").
    change (VolIscsi v) with (strconv_ParseBool (index (Parameters req) "volIscsi")).1.
    rewrite Hfs, Hiscsi. rewrite decide_False by (intros Hne; by apply Hne).
    f_equal. unfold v, new_volume. cbn [VolID]. by rewrite Hfs. }
  rewrite Hcall in Hopen. rewrite Hmb in Hopen |- *. clear Hcall Hmb.
  change (trace w1) with (trace w ++ [NewUUID]) in Hopen.
  rewrite <- app_assoc in Hopen. cbn [app] in Hopen.
  clearbody v.
  destruct (createScaleImage v _ w1) as [[v' [err|]] w2]; cbn [snd] in Hopen.
  { by exists calls. }
  pose proof (persistVolInfo_frame (VolID v) (path_Join [PluginFolder; "controller"]) v' w2)
    as Hpf.
  cbv zeta in Hpf.
  destruct (persistVolInfo _ _ v' w2) as [perr w3]. destruct Hpf as (_ & _ & Ht3).
  cbn [snd] in Ht3.
  exists (calls ++ [OsCreate (path_Join [path_Join [PluginFolder; "controller"];
                                         VolID v +:+ ".json"])]).
  assert (Ht : trace w3 = trace w ++ NewUUID
                 :: IscsiCreateVolume uniqueID
                      (match CapacityRange_ req with
                       | Some r => RequiredBytes r
                       | None => 1073741824
                       end ÷ 1048576)
                 :: calls ++ [OsCreate (path_Join [path_Join [PluginFolder; "controller"];
                                                   VolID v +:+ ".json"])]).
  { rewrite Ht3, Hopen. by rewrite <- app_assoc. }
  by destruct perr.
Qed.

(** X20. For a CreateVolume that creates a volume for a fresh name, the
    identifier answered is the generated one, with the suffix -fileset
    exactly when the parameter volBackendFs is not empty; the answer
    carries the parameters of the request as context; and the record stored
    under that identifier has the identifier, the backing path and the
    iSCSI flag read from the parameters. *)
Theorem CreateVolume_identifier_and_context (cs : ScaleControllerServer D)
    (req : CreateVolumeRequest) (w w' : World B) (resp : CreateVolumeResponse) :
  range_order (scaleVolumes w) ≡ₚ map_to_list (scaleVolumes w) →
  fresh_name (Name req) (scaleVolumes w) →
  CreateVolume cs req w = (inl resp, w') →
  let uniqueID := (exec NewUUID (backend w)).1 in
  let volumeID := VolumeId (Volume_ resp) in
  volumeID = (if decide (index (Parameters req) "volBackendFs" = "")
              then uniqueID else uniqueID +:+ "-fileset") ∧
  VolumeContext (Volume_ resp) = Parameters req ∧
  ∃ v, scaleVolumes w' !! volumeID = Some v ∧
       VolID v = volumeID ∧
       VolBackendFs v = index (Parameters req) "volBackendFs" ∧
       VolIscsi v = (strconv_ParseBool (index (Parameters req) "volIscsi")).1.
Proof.
  intros Horder Hfresh Hrun. cbv zeta.
  destruct (CreateVolume_outcome cs req w)
    as [(st & Hst & _)|[(exVol & Hfound & _)|(nf & vid & _ & _ & Hres & Hreg & _)]].
  { rewrite Hrun in Hst. discriminate. }
  { destruct (first_named_found _ _ _ Hfound) as (Hn & id & Hin).
    rewrite Horder in Hin. apply elem_of_map_to_list in Hin.
    by destruct (Hfresh id exVol Hin). }
  cbv zeta in Hres, Hreg. rewrite Hrun in Hres, Hreg. cbn [fst snd] in Hres, Hreg.
  injection Hres as ->. cbn [Volume_ VolumeId VolumeContext].
  split; [reflexivity|]. split; [reflexivity|].
  eexists. split; [rewrite Hreg; apply lookup_insert_eq|]. done.
Qed.

(** X21. getScaleVolumeOptions never fails, so CreateVolume never answers
    the INTERNAL error it has for that failure. It reads the flag VolIscsi
    as true exactly when the parameter volIscsi is one of 1, t, T, true,
    TRUE, True: a parameter that is missing or is anything else (say yes)
    is read as false without complaint. The backing path is the parameter
    volBackendFs, empty when it is missing. *)
Theorem getScaleVolumeOptions_lenient (volOptions : gmap string string) :
  (getScaleVolumeOptions volOptions).2 = None ∧
  (VolIscsi (getScaleVolumeOptions volOptions).1 = true ↔
   index volOptions "volIscsi" ∈ ["1"; "t"; "T"; "true"; "TRUE"; "True"]) ∧
  VolBackendFs (getScaleVolumeOptions volOptions).1 = index volOptions "volBackendFs" ∧
  (volOptions !! "volIscsi" = None → VolIscsi (getScaleVolumeOptions volOptions).1 = false) ∧
  (volOptions !! "volBackendFs" = None →
   VolBackendFs (getScaleVolumeOptions volOptions).1 = "").
Proof.
  split; [reflexivity|]. split; [|split; [reflexivity|split]].
  - unfold getScaleVolumeOptions, strconv_ParseBool. cbn [fst VolIscsi set_VolIscsi set_VolBackendFs].
    destruct (decide (index volOptions "volIscsi" ∈ ["1"; "t"; "T"; "true"; "TRUE"; "True"]))
      as [Hin|Hnot].
    + by rewrite bool_decide_eq_true_2.
    + rewrite bool_decide_eq_false_2 by done.
      split; [|done]. by destruct (bool_decide _).
  - intros Hmiss. unfold getScaleVolumeOptions, index. rewrite Hmiss. reflexivity.
  - intros Hmiss. unfold getScaleVolumeOptions, index. rewrite Hmiss. reflexivity.
Qed.
End Create_dispatch.

(** ** The further properties on the simulated installation *)

Import Scenarios.

Lemma fsName_is_last_path_component_witness : fsName_of "/gpfs1" = "gpfs1".
Proof.
  apply (proj1 (fsName_is_last_path_component "" "gpfs1" eq_refl)).
Defined.

Lemma getScaleVolumeByName_sound_and_complete_witness :
  (getScaleVolumeByName "pvc-a" after_a).2 = after_a.
Proof.
  apply (getScaleVolumeByName_sound_and_complete "pvc-a" after_a).
  reflexivity.
Defined.

Lemma CreateVolume_idempotent_witness :
  CreateVolume cs req_a after_a =
    (inl (mkCreateVolumeResponse (mkVolume "uuid-0" 1073741824 ∅)), after_a).
Proof.
  apply (CreateVolume_idempotent cs req_a (start admin)).
  - intros m. reflexivity.
  - intros id v Hin. vm_compute in Hin. discriminate.
  - vm_compute. reflexivity.
Defined.

Lemma registry_invariants_preserved_witness :
  keyed_by_VolID (scaleVolumes (CreateVolume cs req_b after_a).2) ∧
  unique_names (scaleVolumes (CreateVolume cs req_b after_a).2).
Proof.
  assert (Hreg : scaleVolumes after_a = {[ "uuid-0" := vol_a ]})
    by (vm_compute; reflexivity).
  assert (Hone : ∀ id v, scaleVolumes after_a !! id = Some v → id = "uuid-0" ∧ v = vol_a).
  { intros id v Hin. rewrite Hreg in Hin.
    apply lookup_singleton_Some in Hin as [<- <-]. done. }
  apply (registry_invariants_preserved cs req_b delete_a after_a).
  - reflexivity.
  - intros id v Hin. by destruct (Hone id v Hin) as [-> ->].
  - intros id1 id2 v1 v2 H1 H2 _.
    destruct (Hone id1 v1 H1) as [-> _]. by destruct (Hone id2 v2 H2) as [-> _].
Defined.

Lemma DeleteVolume_unknown_identifier_witness :
  ∃ msg, DeleteVolume cs delete_a (start admin) =
         (inr (status_Error Internal msg),
          record_call (OsOpen (volInfo_file (GetVolumeId delete_a))) (start admin)).
Proof.
  apply (DeleteVolume_unknown_identifier cs delete_a (start admin)).
  - vm_compute. reflexivity.
  - vm_compute. reflexivity.
Defined.

Lemma DeleteVolume_twice_witness :
  ∃ msg, DeleteVolume cs delete_a after_delete_a =
         (inr (status_Error Internal msg),
          record_call (OsOpen (volInfo_file (GetVolumeId delete_a))) after_delete_a).
Proof.
  apply (DeleteVolume_twice cs delete_a after_a after_delete_a mkDeleteVolumeResponse).
  vm_compute. reflexivity.
Defined.

Lemma create_then_delete_witness :
  ∃ calls, trace (DeleteVolume cs delete_a after_a).2 =
           trace after_a ++ OsOpen (volInfo_file "uuid-0") :: DeleteFS "uuid-0" :: calls.
Proof.
  pose proof (create_then_delete cs req_a (start admin) after_a
                (mkCreateVolumeResponse (mkVolume "uuid-0" 1073741824 ∅))) as Hthm.
  destruct Hthm as [Hopen _].
  - reflexivity.
  - intros id v Hin. vm_compute in Hin. discriminate.
  - vm_compute. reflexivity.
  - intros v data Hstored Hdata.
    vm_compute in Hstored. injection Hstored as <-.
    injection Hdata as <-. vm_compute. reflexivity.
  - exact Hopen.
Defined.

Lemma metadata_files_independent_witness :
  fsys (loadVolInfo "uuid-1" controller_dir vol_a after_a).2 = fsys after_a.
Proof.
  apply (metadata_files_independent "uuid-1" controller_dir (volInfo_file "uuid-0")
           vol_a after_a).
  vm_compute. discriminate.
Defined.

Lemma createScaleImage_fileset_witness :
  (createScaleImage vol_b 1024 (start admin)).1.1 = vol_b.
Proof.
  apply (createScaleImage_fileset vol_b 1024 (start admin)). discriminate.
Defined.

Lemma createScaleImage_iscsi_witness :
  (createScaleImage (set_VolIscsiVid "" vol_i) 0 (start (mkAdmin 1 (λ _, false)))).1.1 =
  set_VolIscsiVid "vid-1" (set_VolIscsiVid "" vol_i).
Proof.
  apply (createScaleImage_iscsi (set_VolIscsiVid "" vol_i) 0 (start (mkAdmin 1 (λ _, false)))
           (mkPbVolume "vid-1" "10.0.0.7" "iqn.2019-04.scale:uuid-0" 1)
           (mkAdmin 2 (λ _, false))).
  - reflexivity.
  - reflexivity.
  - vm_compute. reflexivity.
Defined.

Lemma deleteScaleImage_fileset_witness :
  match (exec (UnlinkFSet (fsName_of (VolBackendFs vol_b)) (VolID vol_b))
              (backend (start admin))).1 with
  | Some err =>
      (deleteScaleImage vol_b (start admin)).1 = Some err ∧
      trace (deleteScaleImage vol_b (start admin)).2 =
        trace (start admin) ++ [UnlinkFSet (fsName_of (VolBackendFs vol_b)) (VolID vol_b)]
  | None =>
      (deleteScaleImage vol_b (start admin)).1 =
        (exec (DeleteFSet (fsName_of (VolBackendFs vol_b)) (VolID vol_b))
              (exec (UnlinkFSet (fsName_of (VolBackendFs vol_b)) (VolID vol_b))
                    (backend (start admin))).2).1 ∧
      trace (deleteScaleImage vol_b (start admin)).2 =
        trace (start admin) ++
        [UnlinkFSet (fsName_of (VolBackendFs vol_b)) (VolID vol_b);
         DeleteFSet (fsName_of (VolBackendFs vol_b)) (VolID vol_b)]
  end.
Proof.
  apply (deleteScaleImage_fileset vol_b (start admin)). discriminate.
Defined.

Lemma createScaleImage_ignores_size_witness :
  createScaleImage vol_a 0 (start admin) = createScaleImage vol_a 1024 (start admin).
Proof.
  apply (createScaleImage_ignores_size vol_a 0 1024 (start admin)).
  vm_compute. discriminate.
Defined.

Lemma CreateVolume_iscsi_size_in_MB_witness :
  ∃ calls, trace (CreateVolume cs req_i (start admin)).2 =
           trace (start admin) ++ NewUUID
             :: IscsiCreateVolume (exec NewUUID (backend (start admin))).1
                                  (match CapacityRange_ req_i with
                                   | Some r => RequiredBytes r
                                   | None => 1073741824
                                   end ÷ 1048576) :: calls.
Proof.
  destruct (CreateVolume_iscsi_size_in_MB cs req_i (start admin)
              (Errorf "volume name pvc-i does not exit in the volumes list"))
    as [Hcalls _].
  - vm_compute. reflexivity.
  - discriminate.
  - discriminate.
  - vm_compute. reflexivity.
  - vm_compute. reflexivity.
  - vm_compute. reflexivity.
  - exact Hcalls.
Defined.

Lemma CreateVolume_identifier_and_context_witness :
  VolumeContext (Volume_ (mkCreateVolumeResponse
                            (mkVolume "uuid-0-fileset" 1073741824 (Parameters req_b)))) =
  Parameters req_b.
Proof.
  apply (CreateVolume_identifier_and_context cs req_b (start admin)
           (CreateVolume cs req_b (start admin)).2
           (mkCreateVolumeResponse
              (mkVolume "uuid-0-fileset" 1073741824 (Parameters req_b)))).
  - reflexivity.
  - intros id v Hin. vm_compute in Hin. discriminate.
  - vm_compute. reflexivity.
Defined.

(** ** Properties of the configuration loader *)

Section Settings_properties.
Import settings.
Context `{!Platform} `{!ConfigLib}.

(** A read answers the content of a file that can be read, and an error
    for everything else. *)
Lemma ioutil_ReadFile_content (file : string) (disk : Disk) :
  match ioutil_ReadFile file disk with
  | inl data => content disk file = Some data
  | inr _ => content disk file = None
  end.
Proof.
  unfold ioutil_ReadFile, content. by destruct (disk !! file) as [[data|err]|].
Qed.

Lemma handle_cluster_same_settings (disk : Disk) (c : Clusters) :
  same_settings c (handle_cluster disk c).1.
Proof.
  unfold handle_cluster.
  repeat first
    [ done
    | match goal with
      | |- context [if ?b then _ else _] => destruct b
      | |- context [match ioutil_ReadFile ?f ?d with _ => _ end] =>
          destruct (ioutil_ReadFile f d)
      end; cbn [fst set_MgmtUsername set_MgmtPassword set_CacertValue
                Secrets Cacert SecureSslMode] ].
Qed.

Lemma handle_cluster_untouched (disk : Disk) (c : Clusters) :
  needed_files c = [] → handle_cluster disk c = (c, None).
Proof.
  unfold needed_files, handle_cluster. intros Hnone.
  destruct (bool_decide (Secrets c ≠ "")); [discriminate|].
  destruct (SecureSslMode c && bool_decide (Cacert c ≠ "")); [discriminate|done].
Qed.

(** X22. HandleSecretsAndCerts, whether it succeeds or stops at an
    error, keeps the number and the order of the clusters and every
    setting of a cluster but the user name, the password and the
    certificate content it reads from files; a cluster that names no
    secret and needs no certificate (it is not in secure mode, or names
    none) is left exactly as it was. *)
Theorem HandleSecretsAndCerts_keeps_settings (disk : Disk)
    (cmap : ScaleSettingsConfigMap) :
  Forall2 (λ c c', same_settings c c' ∧ (needed_files c = [] → c' = c))
          (Clusters_ cmap) (Clusters_ (HandleSecretsAndCerts disk cmap).1).
Proof.
  unfold HandleSecretsAndCerts.
  assert (Hloop : ∀ clusters,
    Forall2 (λ c c', same_settings c c' ∧ (needed_files c = [] → c' = c))
            clusters (handle_clusters disk clusters).1).
  { induction clusters as [|c rest IH]; cbn [handle_clusters]; [constructor|].
    pose proof (handle_cluster_same_settings disk c) as Hsame.
    pose proof (handle_cluster_untouched disk c) as Hunt.
    destruct (handle_cluster disk c) as [c' [e|]]; cbn [fst] in *.
    - constructor.
      + split; [done|]. intros Hn. specialize (Hunt Hn). congruence.
      + clear. induction rest; constructor; [|done]. by repeat split.
    - destruct (handle_clusters disk rest) as [rest' err]. cbn [fst] in *.
      constructor; [|done]. split; [done|]. intros Hn. specialize (Hunt Hn). congruence. }
  specialize (Hloop (Clusters_ cmap)).
  by destruct (handle_clusters disk (Clusters_ cmap)).
Qed.

(** What the body of the loop does for one cluster, by the files it can
    read. *)
Lemma handle_cluster_ok (disk : Disk) (c : Clusters) :
  match handle_cluster disk c with
  | (c', None) =>
      Forall (λ f, is_Some (content disk f)) (needed_files c) ∧
      (Secrets c ≠ "" →
       ∃ u p, content disk (path_Join [SecretBasePath; Secrets c; "username"]) = Some u ∧
              content disk (path_Join [SecretBasePath; Secrets c; "password"]) = Some p ∧
              MgmtUsername c' = trimmed u ∧ MgmtPassword c' = trimmed p) ∧
      (SecureSslMode c = true → Cacert c ≠ "" →
       content disk (path_Join [CertificatePath; Cacert c]) = Some (CacertValue c'))
  | (_, Some _) => ¬ Forall (λ f, is_Some (content disk f)) (needed_files c)
  end.
Proof.
  unfold handle_cluster, needed_files.
  pose proof (ioutil_ReadFile_content
                (path_Join [SecretBasePath; Secrets c; "username"]) disk) as Hu.
  pose proof (ioutil_ReadFile_content
                (path_Join [SecretBasePath; Secrets c; "password"]) disk) as Hp.
  pose proof (ioutil_ReadFile_content (path_Join [CertificatePath; Cacert c]) disk) as Hcert.
  destruct (decide (Secrets c ≠ "")) as [Hs|Hs].
  - rewrite !bool_decide_eq_true_2 by done.
    destruct (ioutil_ReadFile (path_Join [SecretBasePath; Secrets c; "username"]) disk)
      as [u|eu].
    2: { intros Hall. apply Forall_app in Hall as [Hall _].
         apply Forall_cons in Hall as [[x Hx] _]. congruence. }
    cbn [Secrets set_MgmtUsername].
    destruct (ioutil_ReadFile (path_Join [SecretBasePath; Secrets c; "password"]) disk)
      as [p|ep].
    2: { intros Hall. apply Forall_app in Hall as [Hall _].
         apply Forall_cons in Hall as [_ Hall].
         apply Forall_cons in Hall as [[x Hx] _]. congruence. }
    cbn [SecureSslMode Cacert set_MgmtPassword set_MgmtUsername].
    destruct (SecureSslMode c) eqn:Hm; cbn [andb].
    + destruct (decide (Cacert c ≠ "")) as [Hc|Hc].
      * rewrite !bool_decide_eq_true_2 by done.
        destruct (ioutil_ReadFile (path_Join [CertificatePath; Cacert c]) disk)
          as [cert|ec].
        -- split; [|split].
           ++ apply Forall_app. split; repeat constructor; by eexists.
           ++ intros _. by exists u, p.
           ++ done.
        -- intros Hall. apply Forall_app in Hall as [_ Hall].
           apply Forall_cons in Hall as [[x Hx] _]. congruence.
      * rewrite !bool_decide_eq_false_2 by done. split; [|split].
        -- apply Forall_app. split; repeat constructor; by eexists.
        -- intros _. by exists u, p.
        -- done.
    + split; [|split].
      * apply Forall_app. split; repeat constructor; by eexists.
      * intros _. by exists u, p.
      * done.
  - rewrite !bool_decide_eq_false_2 by done. cbn [app].
    destruct (SecureSslMode c) eqn:Hm; cbn [andb].
    + destruct (decide (Cacert c ≠ "")) as [Hc|Hc].
      * rewrite !bool_decide_eq_true_2 by done.
        destruct (ioutil_ReadFile (path_Join [CertificatePath; Cacert c]) disk)
          as [cert|ec].
        -- split; [|split]; [repeat constructor; by eexists|done|done].
        -- intros Hall. apply Forall_cons in Hall as [[x Hx] _]. congruence.
      * rewrite !bool_decide_eq_false_2 by done. split; [|split]; [constructor|done|done].
    + split; [|split]; [constructor|done|done].
Qed.

Lemma handle_clusters_ok (disk : Disk) (clusters : list Clusters) :
  match handle_clusters disk clusters with
  | (clusters', None) =>
      Forall (λ c, Forall (λ f, is_Some (content disk f)) (needed_files c)) clusters ∧
      Forall2 (λ c c',
        (Secrets c ≠ "" →
         ∃ u p, content disk (path_Join [SecretBasePath; Secrets c; "username"]) = Some u ∧
                content disk (path_Join [SecretBasePath; Secrets c; "password"]) = Some p ∧
                MgmtUsername c' = trimmed u ∧ MgmtPassword c' = trimmed p) ∧
        (SecureSslMode c = true → Cacert c ≠ "" →
         content disk (path_Join [CertificatePath; Cacert c]) = Some (CacertValue c')))
        clusters clusters'
  | (_, Some _) =>
      ¬ Forall (λ c, Forall (λ f, is_Some (content disk f)) (needed_files c)) clusters
  end.
Proof.
  induction clusters as [|c rest IH]; cbn [handle_clusters].
  - split; constructor.
  - pose proof (handle_cluster_ok disk c) as Hc.
    destruct (handle_cluster disk c) as [c' [e|]].
    + intros Hall. apply Forall_cons in Hall as [Hall _]. by apply Hc.
    + destruct Hc as (Hfiles & Hcred).
      destruct (handle_clusters disk rest) as [rest' [e|]].
      * intros Hall. apply Forall_cons in Hall as [_ Hall]. by apply IH.
      * destruct IH as (Hrest & Hcreds). split; by constructor.
Qed.

Lemma HandleSecretsAndCerts_succeeds_ok_iff (disk : Disk) (cmap : ScaleSettingsConfigMap) :
  (HandleSecretsAndCerts disk cmap).2 = None ↔
  Forall (λ c, Forall (λ f, is_Some (content disk f)) (needed_files c)) (Clusters_ cmap).
Proof.
  unfold HandleSecretsAndCerts.
  pose proof (handle_clusters_ok disk (Clusters_ cmap)) as Hok.
  destruct (handle_clusters disk (Clusters_ cmap)) as [clusters' [e|]]; cbn [snd].
  - split; [discriminate|]. intros Hall. by destruct Hok.
  - by destruct Hok as (Hall & _).
Qed.

(** X23. HandleSecretsAndCerts succeeds exactly when every file a cluster
    needs can be read: the user name and the password of a cluster that
    names a secret, and the certificate of a cluster that is in secure
    mode and names one (so a certificate that cannot be read is no error
    outside secure mode). A needed file that is missing and one that is
    there but whose read fails (no permission, a directory) stop it alike.
    When it succeeds, each such cluster has the user name and the password
    that its files hold, trimmed, and the certificate content of its
    file. *)
Theorem HandleSecretsAndCerts_succeeds_iff_files_read (disk : Disk)
    (cmap : ScaleSettingsConfigMap) :
  let r := HandleSecretsAndCerts disk cmap in
  (r.2 = None ↔
   Forall (λ c, Forall (λ f, is_Some (content disk f)) (needed_files c)) (Clusters_ cmap)) ∧
  (r.2 = None →
   Forall2 (λ c c',
     (Secrets c ≠ "" →
      ∃ u p, content disk (path_Join [SecretBasePath; Secrets c; "username"]) = Some u ∧
             content disk (path_Join [SecretBasePath; Secrets c; "password"]) = Some p ∧
             MgmtUsername c' = trimmed u ∧ MgmtPassword c' = trimmed p) ∧
     (SecureSslMode c = true → Cacert c ≠ "" →
      content disk (path_Join [CertificatePath; Cacert c]) = Some (CacertValue c')))
     (Clusters_ cmap) (Clusters_ r.1)).
Proof.
  cbv zeta. unfold HandleSecretsAndCerts.
  pose proof (handle_clusters_ok disk (Clusters_ cmap)) as Hok.
  destruct (handle_clusters disk (Clusters_ cmap)) as [clusters' [e|]]; cbn [fst snd].
  - split; [|discriminate]. split; [discriminate|]. intros Hall. by destruct Hok.
  - destruct Hok as (Hall & Hcreds). split; [|done]. by split.
Qed.

(** X24. LoadScaleConfigSettings never answers a half-loaded
    configuration, and hides every failure: it answers the empty
    configuration when the document cannot be read (it is missing, or its
    read fails), when it does not parse and when a file some cluster needs
    cannot be read; otherwise it answers the parsed configuration with the
    credentials and certificates read. *)
Theorem LoadScaleConfigSettings_all_or_nothing (disk : Disk) :
  LoadScaleConfigSettings disk =
  match content disk ConfigMapFile with
  | None => zero_config
  | Some doc =>
      match json_Unmarshal doc zero_config with
      | (_, Some _) => zero_config
      | (cmsj, None) =>
          if decide (Forall (λ c, Forall (λ f, is_Some (content disk f)) (needed_files c))
                            (Clusters_ cmsj))
          then (HandleSecretsAndCerts disk cmsj).1
          else zero_config
      end
  end.
Proof.
  unfold LoadScaleConfigSettings.
  pose proof (ioutil_ReadFile_content ConfigMapFile disk) as Hdoc.
  destruct (ioutil_ReadFile ConfigMapFile disk) as [doc|e]; rewrite Hdoc; [|done].
  destruct (json_Unmarshal doc zero_config) as [cmsj [e|]]; [done|].
  destruct (HandleSecretsAndCerts_succeeds_ok_iff disk cmsj) as [Hyes Hno].
  destruct (HandleSecretsAndCerts disk cmsj) as [cmsj' [e|]]; cbn [fst snd] in *.
  - by rewrite decide_False by (intros Hall; by specialize (Hno Hall)).
  - by rewrite decide_True by by apply Hyes.
Qed.
End Settings_properties.

Import settings.SimConfig.

(** The loader on the simulated installation: the credentials are read and
    trimmed; without the password file, and with a password file that may
    not be read, the answer is the empty configuration. *)
Example LoadScaleConfigSettings_runs :
  settings.LoadScaleConfigSettings config_fs =
    settings.mkScaleSettingsConfigMap
      [settings.mkClusters "c1" settings.SimConfig.zero_Primary true "ca.pem" "secret1" []
                           "admin" "s3cret" "CERTIFICATE"] ∧
  settings.LoadScaleConfigSettings config_fs_no_password = settings.zero_config ∧
  settings.LoadScaleConfigSettings config_fs_password_denied = settings.zero_config.
Proof. repeat split; vm_compute; reflexivity. Qed.

(** The capability check on examples: two multi-writer capabilities are
    confirmed, a single-writer one among them is not, and neither is a nil
    capability. *)
Example ValidateVolumeCapabilities_runs :
  csi.ValidateVolumeCapabilities (csi.mkValidateRequest [multi_writer; multi_writer]) =
    inl (csi.mkValidateResponse (Some (csi.mkConfirmed [multi_writer; multi_writer])) "") ∧
  csi.ValidateVolumeCapabilities (csi.mkValidateRequest [multi_writer; single_writer]) =
    inl (csi.mkValidateResponse None "") ∧
  csi.ValidateVolumeCapabilities (csi.mkValidateRequest [None]) =
    inl (csi.mkValidateResponse None "").
Proof. repeat split; vm_compute; reflexivity. Qed.
